(** * tf2onnx.onnx_opset.rnn: lowering of LSTMBlockCell and CudnnRNN

    A shallow embedding of [tf2onnx/onnx_opset/rnn.py].  The two handlers
    [LSTMBlockCell.version_1] and [CudnnRNN.version_11] are written in a
    small state-and-exception monad over the graph context they mutate.
    Python exceptions keep the mutations done before the raise, so the
    monad returns the state also on failure. *)

From Stdlib Require Import ZArith QArith Qround Qabs Qcanon String Ascii List Lia.
From stdpp Require Import base option list strings gmap pretty numbers.

Set Warnings "-register-all".

Open Scope string_scope.
Open Scope Z_scope.

(** ** Data model *)

(** ONNX element types and the numpy dtypes the handlers name. *)
Inductive onnx_dtype := FLOAT | FLOAT16 | DOUBLE | INT32 | INT64 | STRING.
Inductive numpy_dtype := np_float32 | np_float16 | np_float64 | np_int32 | np_int64.

#[global] Instance onnx_dtype_eq_dec : EqDecision onnx_dtype.
Proof. solve_decision. Defined.
#[global] Instance numpy_dtype_eq_dec : EqDecision numpy_dtype.
Proof. solve_decision. Defined.

Definition is_float_dtype (d : numpy_dtype) : bool :=
  match d with
  | np_float32 | np_float16 | np_float64 => true
  | np_int32 | np_int64 => false
  end.

Definition onnx_of_numpy (d : numpy_dtype) : onnx_dtype :=
  match d with
  | np_float32 => FLOAT
  | np_float16 => FLOAT16
  | np_float64 => DOUBLE
  | np_int32 => INT32
  | np_int64 => INT64
  end.

(** Numbers are exact rationals: a finite Python float is one, and the
    handlers only negate them and compare them with zero.  An element of a
    tensor is a rational or one of the two infinities, which a cast to a
    narrower float type can produce; NaN is outside this model. *)
Inductive scalar :=
| Fin (q : Qc)
| PInf
| NInf.

Record ndarray := {
  np_dtype : numpy_dtype;
  np_shape : list Z;
  np_data : list scalar
}.

(** An attribute value, as an ONNX [AttributeProto] holds it. *)
Inductive attr_value :=
| AttrF (f : Qc)
| AttrI (i : Z)
| AttrS (s : string)
| AttrInts (ints : list Z)
| AttrT (t : ndarray).

(** The protobuf accessors [.f], [.i], [.s]: a field that is not set reads
    as its default. *)
Definition attr_f (a : attr_value) : Qc :=
  match a with AttrF q => q | _ => Q2Qc 0 end.
Definition attr_i (a : attr_value) : Z :=
  match a with AttrI z => z | _ => 0 end.
Definition attr_s (a : attr_value) : string :=
  match a with AttrS s => s | _ => "" end.

Record Node := {
  name : string;
  op_type : string;
  input : list string;
  output : list string;
  attr : list (string * attr_value)
}.

Record Graph := {
  nodes : list Node;
  dtypes : gmap string onnx_dtype;
  shapes : gmap string (list Z);
  opset : Z
}.

(** The exceptions the handlers can end in. *)
Inductive exn :=
| RuntimeError (msg : string)
| ValueError (msg : string)
| TypeError (msg : string)
| KeyError (key : string)
| IndexError
| AttributeError (msg : string)
| OverflowError
| UnsupportedConfiguration (msg : string).

Inductive result (A : Type) :=
| Ok (a : A)
| Raise (e : exn).
Arguments Ok {A} a.
Arguments Raise {A} e.

(** Ghost history of the graph-context calls that mutate the graph. *)
Inductive event :=
| EvMakeNode (n : Node)
| EvMakeConst (n : Node)
| EvReplace (old new : string)
| EvCopyDtype (old new : string)
| EvCopyShape (old new : string)
| EvRemove (nm : string).

Record State := {
  graph : Graph;
  counter : nat;
  trace : list event
}.

(** ** The monad *)

Definition M (A : Type) : Type := State -> result A * State.

Definition ret {A} (a : A) : M A := fun st => (Ok a, st).
Definition raise {A} (e : exn) : M A := fun st => (Raise e, st).
Definition bind {A B} (c : M A) (k : A -> M B) : M B :=
  fun st =>
    match c st with
    | (Ok a, st') => k a st'
    | (Raise e, st') => (Raise e, st')
    end.

Declare Scope py_scope.
Delimit Scope py_scope with py.
Notation "x <- c ;; k" := (bind c (fun x => k))
  (at level 100, c at next level, right associativity) : py_scope.
Notation "c ;;; k" := (bind c (fun _ => k))
  (at level 100, right associativity) : py_scope.
Open Scope py_scope.

Definition get_graph : M Graph := fun st => (Ok (graph st), st).
Definition modify_graph (f : Graph -> Graph) : M unit :=
  fun st => (Ok tt, {| graph := f (graph st); counter := counter st; trace := trace st |}).
Definition log (e : event) : M unit :=
  fun st => (Ok tt, {| graph := graph st; counter := counter st; trace := trace st ++ [e] |}).

(** ** Python built-ins the handlers use *)

(** [l[k]]. *)
Definition index {A} (l : list A) (k : nat) : M A :=
  match nth_error l k with
  | Some a => ret a
  | None => raise IndexError
  end.

(** [d[key]] on a dict. *)
Fixpoint assoc {A} (key : string) (d : list (string * A)) : option A :=
  match d with
  | [] => None
  | (k, v) :: d' => if String.eqb k key then Some v else assoc key d'
  end.

Definition getitem {A} (d : list (string * A)) (key : string) : M A :=
  match assoc key d with
  | Some v => ret v
  | None => raise (KeyError key)
  end.

(** [str(i)] of an integer. *)
Definition str (i : Z) : string := pretty i.

(** [int(a / b)] under true division: the quotient truncated towards zero
    (exact while the operands stay below 2^53). *)
Definition int_div (a b : Z) : Z := Z.quot a b.

(** [range(n)]. *)
Definition range (n : Z) : list Z := map Z.of_nat (seq 0 (Z.to_nat n)).

(** ** numpy *)

Definition int64_min : Z := - 2 ^ 63.
Definition int64_max : Z := 2 ^ 63 - 1.
Definition in_int64 (z : Z) : bool := (int64_min <=? z) && (z <=? int64_max).

(** Two's-complement wrap-around of int64 arithmetic. *)
Definition wrap64 (z : Z) : Z := (z + 2 ^ 63) mod 2 ^ 64 - 2 ^ 63.

Definition Qc_of_int (z : Z) : Qc := Q2Qc (inject_Z z).

(** Truncation towards zero, the cast of a float to an integer dtype. *)
Definition Qc_trunc (q : Qc) : Z := Z.quot (Qnum q) (Zpos (Qden q)).

(** [2 ** e] for an integer [e] of either sign. *)
Definition pow2 (e : Z) : Q :=
  if 0 <=? e then inject_Z (2 ^ e) else (1 / inject_Z (2 ^ (- e)))%Q.

(** The exponent of a positive rational: the [e] with [2^e <= q < 2^(e+1)]. *)
Definition ilog2 (q : Q) : Z :=
  let e := Z.log2 (Qnum q) - Z.log2 (Zpos (Qden q)) in
  if Qle_bool (pow2 e) q then e else e - 1.

(** The integer nearest to a rational that is not negative, a tie going to
    the even one. *)
Definition round_half_even (q : Q) : Z :=
  let f := Qfloor q in
  match Qcompare (q - inject_Z f) (1 # 2) with
  | Lt => f
  | Gt => f + 1
  | Eq => if Z.even f then f else f + 1
  end.

(** Rounding to a binary floating-point format with [prec] significand
    bits and exponents from [emin] to [emax]: to the nearest value of the
    format, ties to even, gradual underflow, and an infinity from half a
    unit in the last place above the largest finite value on. *)
Definition round_binary (prec emin emax : Z) (q : Qc) : scalar :=
  match Qcompare q 0 with
  | Eq => Fin q
  | c =>
    let a := Qabs q in
    let e := Z.max (ilog2 a) emin in
    let quantum := pow2 (e - (prec - 1)) in
    let v := (inject_Z (round_half_even (a / quantum)) * quantum)%Q in
    if Qle_bool (pow2 (emax + 1)) v
    then (match c with Lt => NInf | _ => PInf end)
    else Fin (Q2Qc (match c with Lt => - v | _ => v end)%Q)
  end.

(** IEEE binary16. *)
Definition round_float16 : Qc -> scalar := round_binary 11 (-14) 15.

(** The cast of a Python float to a dtype, [np.array(v, dtype=d)].  The
    floats cast here are float32 attribute values: float32 and float64
    hold them exactly, float16 rounds them, an integer type truncates. *)
Definition np_cast (d : numpy_dtype) (q : Qc) : scalar :=
  match d with
  | np_float32 | np_float64 => Fin q
  | np_float16 => round_float16 q
  | np_int32 | np_int64 => Fin (Qc_of_int (Qc_trunc q))
  end.

(** [np.array(v, dtype=d)] of a Python float [v]: a 0-dimensional array. *)
Definition np_array_scalar (v : Qc) (d : numpy_dtype) : ndarray :=
  {| np_dtype := d; np_shape := []; np_data := [np_cast d v] |}.

(** [np.array(l, dtype=np.int64)] of a list of Python ints. *)
Definition np_array_int64 (l : list Z) : M ndarray :=
  if forallb in_int64 l
  then ret {| np_dtype := np_int64;
              np_shape := [Z.of_nat (length l)];
              np_data := map (fun z => Fin (Qc_of_int z)) l |}
  else raise OverflowError.

(** [np.zeros([n], dtype=d)]. *)
Definition np_zeros (n : Z) (d : numpy_dtype) : M ndarray :=
  if n <? 0
  then raise (ValueError "negative dimensions are not allowed")
  else ret {| np_dtype := d; np_shape := [n];
              np_data := repeat (Fin (Q2Qc 0)) (Z.to_nat n) |}.

(** [np.prod(l)] of a list of ints that fit int64: an int64 that wraps. *)
Definition np_prod (l : list Z) : Z := wrap64 (fold_right Z.mul 1 l).

(** int64 scalar addition. *)
Definition np_add (a b : Z) : Z := wrap64 (a + b).

(** ** The graph context

    [tf2onnx.graph.Graph] and [tf2onnx.utils] are not part of the lowering
    module; the operations below are the ones [rnn.py] calls. *)

(** Shape and element-type inference for a freshly created primitive node
    is done by the graph context; it is a parameter here.  The answer for
    output slot [k] of node [n] may depend on the graph [n] is added to. *)
Class ShapeInference := {
  infer_dtype : Graph -> Node -> nat -> option onnx_dtype;
  infer_shape : Graph -> Node -> nat -> option (list Z)
}.

(** Modelled from the spec: [utils.make_name], which the spec only
    describes by its effect, a name that is unique within the graph.  A
    counter is advanced and appended to the requested base name. *)
Definition make_name_str (base : string) (n : nat) : string :=
  base +:+ "__" +:+ pretty n.

Definition make_name (base : string) : M string :=
  fun st =>
    let n := S (counter st) in
    (Ok (make_name_str base n),
     {| graph := graph st; counter := n; trace := trace st |}).

Definition set_opt {V} (m : gmap string V) (k : string) (o : option V) : gmap string V :=
  match o with
  | Some v => <[k := v]> m
  | None => m
  end.

(** The default name of output slot [k] of the node named [nm]. *)
Definition out_name (nm : string) (k : nat) : string :=
  nm +:+ ":" +:+ pretty k.

Definition default_outputs (nm : string) (output_count : nat) : list string :=
  map (out_name nm) (seq 0 output_count).

Definition add_node `{ShapeInference} (n : Node) (g : Graph) : Graph :=
  let slots := combine (seq 0 (length (output n))) (output n) in
  {| nodes := nodes g ++ [n];
     dtypes := fold_left (fun m p => set_opt m (snd p) (infer_dtype g n (fst p)))
                         slots (dtypes g);
     shapes := fold_left (fun m p => set_opt m (snd p) (infer_shape g n (fst p)))
                         slots (shapes g);
     opset := opset g |}.

(** Modelled from the spec: [Graph.make_node], the spec's [create_node]
    and [create_named_node]: "creates and inserts a node; returns its
    output value references", the second "with caller-chosen output
    identities". *)
Definition make_node `{ShapeInference} (op : string) (inputs : list string)
    (attrs : list (string * attr_value)) (output_count : nat)
    (outputs : option (list string)) : M Node :=
  nm <- make_name op ;;
  let n := {| name := nm; op_type := op; input := inputs;
              output := match outputs with
                        | Some os => os
                        | None => default_outputs nm output_count
                        end;
              attr := attrs |} in
  modify_graph (add_node n) ;;;
  log (EvMakeNode n) ;;;
  ret n.

Definition add_const (n : Node) (t : ndarray) (g : Graph) : Graph :=
  {| nodes := nodes g ++ [n];
     dtypes := fold_left (fun m o => <[o := onnx_of_numpy (np_dtype t)]> m) (output n) (dtypes g);
     shapes := fold_left (fun m o => <[o := np_shape t]> m) (output n) (shapes g);
     opset := opset g |}.

(** Modelled from the spec: [Graph.make_const], the spec's
    [create_constant(name, tensor_data)]: "inserts a constant-producing
    node", "a node with zero inputs and one output whose value is fixed
    data".  The output carries the constant's own name, and its element
    type and shape are those of the data. *)
Definition make_const (nm : string) (np_val : ndarray) : M Node :=
  let n := {| name := nm; op_type := "Const"; input := [];
              output := [nm]; attr := [("value", AttrT np_val)] |} in
  modify_graph (add_const n np_val) ;;;
  log (EvMakeConst n) ;;;
  ret n.

(** Modelled from the spec: [Graph.get_shape] and [Graph.get_dtype]; a
    value with nothing recorded reads as [None]. *)
Definition get_shape (v : string) : M (option (list Z)) :=
  g <- get_graph ;; ret (shapes g !! v).
Definition get_dtype (v : string) : M (option onnx_dtype) :=
  g <- get_graph ;; ret (dtypes g !! v).

Definition replace_input (old new : string) (n : Node) : Node :=
  {| name := name n; op_type := op_type n;
     input := map (fun i => if String.eqb i old then new else i) (input n);
     output := output n; attr := attr n |}.

Definition replace_all_inputs_graph (old new : string) (g : Graph) : Graph :=
  {| nodes := map (replace_input old new) (nodes g);
     dtypes := dtypes g; shapes := shapes g; opset := opset g |}.

Definition copy_dtype_graph (old new : string) (g : Graph) : Graph :=
  {| nodes := nodes g;
     dtypes := set_opt (dtypes g) new (dtypes g !! old);
     shapes := shapes g; opset := opset g |}.

Definition copy_shape_graph (old new : string) (g : Graph) : Graph :=
  {| nodes := nodes g; dtypes := dtypes g;
     shapes := set_opt (shapes g) new (shapes g !! old);
     opset := opset g |}.

Definition remove_node_graph (nm : string) (g : Graph) : Graph :=
  {| nodes := filter (fun n => name n ≠ nm) (nodes g);
     dtypes := dtypes g; shapes := shapes g; opset := opset g |}.

(** Modelled from the spec: [Graph.replace_all_inputs] over all the
    graph's nodes: "find every node in the graph whose input list contains
    the old reference and replace that occurrence with the new reference,
    in place, preserving input order". *)
Definition replace_all_inputs (old new : string) : M unit :=
  modify_graph (replace_all_inputs_graph old new) ;;;
  log (EvReplace old new).

(** Modelled from the spec: [Graph.copy_dtype] and [Graph.copy_shape]:
    "copy the old reference's previously recorded element type and shape
    onto the new reference". *)
Definition copy_dtype (old new : string) : M unit :=
  modify_graph (copy_dtype_graph old new) ;;;
  log (EvCopyDtype old new).
Definition copy_shape (old new : string) : M unit :=
  modify_graph (copy_shape_graph old new) ;;;
  log (EvCopyShape old new).

(** Modelled from the spec: [Graph.remove_node], the spec's
    [remove_node(name)]. *)
Definition remove_node (nm : string) : M unit :=
  modify_graph (remove_node_graph nm) ;;;
  log (EvRemove nm).

(** Modelled from the spec: [utils.make_sure], whose failure the spec calls
    an unsupported-configuration error "naming the unmet constraint". *)
Definition make_sure (b : bool) (error_msg : string) : M unit :=
  if b then ret tt else raise (UnsupportedConfiguration error_msg).

(** Modelled from the spec: [utils.map_onnx_to_numpy_type], a table lookup
    from the element type of a value to the numpy dtype of a constant of
    "the cell state's element type"; a value with no recorded type, or a
    type without a numeric numpy counterpart, has no entry. *)
Definition map_onnx_to_numpy_type (d : option onnx_dtype) : M numpy_dtype :=
  match d with
  | Some FLOAT => ret np_float32
  | Some FLOAT16 => ret np_float16
  | Some DOUBLE => ret np_float64
  | Some INT32 => ret np_int32
  | Some INT64 => ret np_int64
  | Some STRING => raise (KeyError "STRING")
  | None => raise (KeyError "None")
  end.

(** [node.get_attr(name)], [None] when the attribute is absent; reading a
    field of [None] raises. *)
Definition get_attr (n : Node) (key : string) : M attr_value :=
  match assoc key (attr n) with
  | Some a => ret a
  | None => raise (AttributeError "'NoneType' object has no attribute")
  end.

(** [len(shape)] of what [get_shape] returned. *)
Definition len_shape (s : option (list Z)) : M (list Z) :=
  match s with
  | Some l => ret l
  | None => raise (TypeError "object of type 'NoneType' has no len()")
  end.

(** ** LSTMBlockCell *)

Module LSTMBlockCell.
Section Handler.
Context `{ShapeInference}.

Definition make_sigmoid (i w b : string) : M string :=
    i_w_node <- make_node "Mul" [i; w] [] 1 None ;;
    i_w_out <- index (output i_w_node) 0 ;;
    i_w_b_node <- make_node "Add" [i_w_out; b] [] 1 None ;;
    i_w_b_out <- index (output i_w_b_node) 0 ;;
    output_node <- make_node "Sigmoid" [i_w_b_out] [] 1 None ;;
    index (output output_node) 0.

Definition replace_output (old_output new_output : string) : M unit :=
    replace_all_inputs old_output new_output ;;;
    copy_dtype old_output new_output ;;;
    copy_shape old_output new_output.

  (** The message of the shape error. *)
Definition shape_error_msg (nm : string) : string :=
    "shape of W of LSTMBlockCell " +:+ nm +:+ " should be times of 4".

  (** The cell-state clamp, [if cell_clip > 0: ...]. *)
Definition clip_cs (node : Node) (cell_clip : Qc) (cs : string) : M string :=
    if bool_decide (Q2Qc 0 < cell_clip)%Qc then
      g <- get_graph ;;
      if opset g <? 11 then
        cs_clip_node <- make_node "Clip" [cs]
          [("max", AttrF cell_clip); ("min", AttrF (- cell_clip)%Qc)] 1 None ;;
        index (output cs_clip_node) 0
      else
        cs_dtype <- get_dtype cs ;;
        dtype <- map_onnx_to_numpy_type cs_dtype ;;
        name_min <- make_name (name node +:+ "_min") ;;
        name_max <- make_name (name node +:+ "_max") ;;
        min_const <- make_const name_min (np_array_scalar (- cell_clip)%Qc dtype) ;;
        max_const <- make_const name_max (np_array_scalar cell_clip dtype) ;;
        min_out <- index (output min_const) 0 ;;
        max_out <- index (output max_const) 0 ;;
        cs_clip_node <- make_node "Clip" [cs; min_out; max_out] [] 1 None ;;
        index (output cs_clip_node) 0
    else ret cs.

Definition version_1 (node : Node) : M unit :=
    match input node with
    | [x; cs_prev; h_prev; w; wci; wcf; wco; b] =>
      forget_bias_attr <- get_attr node "forget_bias" ;;
      let forget_bias := attr_f forget_bias_attr in
      cell_clip_attr <- get_attr node "cell_clip" ;;
      let cell_clip := attr_f cell_clip_attr in
      use_peephole_attr <- get_attr node "use_peephole" ;;
      let use_peephole := negb (attr_i use_peephole_attr =? 0) in
      (* xh = [x, h] *)
      xh_node <- make_node "Concat" [x; h_prev] [("axis", AttrI 1)] 1 None ;;
      xh <- index (output xh_node) 0 ;;
      (* i, ci, f, o = xh * w + b *)
      xh_w_node <- make_node "MatMul" [xh; w] [] 1 None ;;
      w_shape_opt <- get_shape w ;;
      w_shape <- len_shape w_shape_opt ;;
      (if negb (length w_shape =? 2)%nat then raise (RuntimeError (shape_error_msg (name node)))
       else
         w1 <- index w_shape 1 ;;
         if negb (w1 mod 4 =? 0) then raise (RuntimeError (shape_error_msg (name node)))
         else ret tt) ;;;
      xh_w <- index (output xh_w_node) 0 ;;
      merged_output_node <- make_node "Add" [xh_w; b] [] 1 None ;;
      w1 <- index w_shape 1 ;;
      let w_last_dim := int_div w1 4 in
      let split := repeat w_last_dim 4 in
      merged <- index (output merged_output_node) 0 ;;
      split_output_node <- make_node "Split" [merged]
        [("axis", AttrI 1); ("split", AttrInts split)] 4 None ;;
      match output split_output_node with
      | [i; ci; f; o] =>
        (* f = f + forget_bias *)
        fb_name <- make_name (name node +:+ "__forget_bias") ;;
        forget_bias_const <- make_const fb_name (np_array_scalar forget_bias np_float32) ;;
        fb_out <- index (output forget_bias_const) 0 ;;
        f_node <- make_node "Add" [f; fb_out] [] 1 None ;;
        peep <- (if negb use_peephole then
                   z_name <- make_name (name node +:+ "__zeros_const") ;;
                   zeros <- np_zeros w_last_dim np_float32 ;;
                   zeros_const <- make_const z_name zeros ;;
                   z0 <- index (output zeros_const) 0 ;;
                   z1 <- index (output zeros_const) 0 ;;
                   z2 <- index (output zeros_const) 0 ;;
                   ret (z0, z1, z2)
                 else ret (wci, wcf, wco)) ;;
        let '(wci, wcf, wco) := peep in
        (* i = sigmoid(cs_prev .* wci + i) *)
        i <- make_sigmoid cs_prev wci i ;;
        (* f = sigmoid(cs_prev .* wcf + f) *)
        f_out <- index (output f_node) 0 ;;
        f <- make_sigmoid cs_prev wcf f_out ;;
        (* ci = Tanh(ci) *)
        ci_node <- make_node "Tanh" [ci] [] 1 None ;;
        (* cs = ci .* i + f .* cs_prev *)
        ci_out <- index (output ci_node) 0 ;;
        ci_i_node <- make_node "Mul" [ci_out; i] [] 1 None ;;
        cs_prev_f_node <- make_node "Mul" [cs_prev; f] [] 1 None ;;
        ci_i_out <- index (output ci_i_node) 0 ;;
        cs_prev_f_out <- index (output cs_prev_f_node) 0 ;;
        cs_node <- make_node "Add" [ci_i_out; cs_prev_f_out] [] 1 None ;;
        cs <- index (output cs_node) 0 ;;
        (* cs = clip(cs) *)
        cs <- clip_cs node cell_clip cs ;;
        (* o = cs * wco + o *)
        o <- make_sigmoid cs wco o ;;
        (* co = Tanh(cs) *)
        co_node <- make_node "Tanh" [cs] [] 1 None ;;
        (* h = co .* o *)
        co_out <- index (output co_node) 0 ;;
        h_node <- make_node "Mul" [co_out; o] [] 1 None ;;
        out0 <- index (output node) 0 ;;
        replace_output out0 i ;;;
        out1 <- index (output node) 1 ;;
        replace_output out1 cs ;;;
        out2 <- index (output node) 2 ;;
        replace_output out2 f ;;;
        out3 <- index (output node) 3 ;;
        replace_output out3 o ;;;
        out4 <- index (output node) 4 ;;
        ci_out <- index (output ci_node) 0 ;;
        replace_output out4 ci_out ;;;
        out5 <- index (output node) 5 ;;
        co_out <- index (output co_node) 0 ;;
        replace_output out5 co_out ;;;
        out6 <- index (output node) 6 ;;
        h_out <- index (output h_node) 0 ;;
        replace_output out6 h_out
      | _ => raise (ValueError "not enough values to unpack")
      end
    | _ => raise (ValueError "not enough values to unpack")
    end.

Definition version_7 (node : Node) : M unit := version_1 node.

End Handler.
End LSTMBlockCell.

(** ** CudnnRNN *)

(** [shape[k]] of what [get_shape] returned. *)
Definition subscript (s : option (list Z)) (k : nat) : M Z :=
  match s with
  | Some l => index l k
  | None => raise (TypeError "'NoneType' object is not subscriptable")
  end.

(** A [for] loop that threads the variables its body rebinds. *)
Fixpoint for_each {A S} (l : list A) (body : S -> A -> M S) (s : S) : M S :=
  match l with
  | [] => ret s
  | a :: l' => s' <- body s a ;; for_each l' body s'
  end.

Module CudnnRNN.
Section Handler.
Context `{ShapeInference}.

Definition NM (node : Node) (nm : string) : string :=
    name node +:+ "_" +:+ nm.

  (** One direction of one layer: the recurrent operator and the squeeze of
      its sequence output; the result is the squeezed output's name. *)
Definition gru_step (node : Node) (X : string) (num_units : Z)
      (direction : string) (XN : string) (suffix : string) : M string :=
    make_node "GRU"
      [XN; NM node ("W" +:+ suffix); NM node ("R" +:+ suffix);
       NM node ("B" +:+ suffix); ""; NM node ("H" +:+ suffix)]
      [("direction", AttrS direction); ("hidden_size", AttrI num_units)] 1
      (Some [NM node ("Y" +:+ suffix); NM node ("YH" +:+ suffix)]) ;;;
    let XN' := NM node (X +:+ suffix) in
    make_node "Squeeze" [NM node ("Y" +:+ suffix)] [("axes", AttrInts [1])] 1
      (Some [XN']) ;;;
    ret XN'.

  (** The body of [for i in range(num_layers)], on the pair [(XNF, XNB)]. *)
Definition layer_body (node : Node) (X : string) (num_dirs num_units : Z)
      (xn : string * string) (i : Z) : M (string * string) :=
    let '(XNF, XNB) := xn in
    XNF <- gru_step node X num_units "forward" XNF ("_" +:+ str (i * num_dirs)) ;;
    if num_dirs =? 2 then
      XNB <- gru_step node X num_units "reverse" XNB ("_" +:+ str (i * 2 + 1)) ;;
      ret (XNF, XNB)
    else ret (XNF, XNB).

Definition rnn_mode_msg : string := "rnn mode other than gru are not supported yet".
Definition dropout_msg : string := "dropout not supported yet".
Definition input_mode_msg : string := "input mode must be linear input".

Definition version_11 (node : Node) : M unit :=
    X <- index (input node) 0 ;;
    X_shape <- get_shape X ;;
    H <- index (input node) 1 ;;
    H_shape <- get_shape H ;;
    P <- index (input node) 3 ;;
    rnn_mode <- getitem (attr node) "rnn_mode" ;;
    make_sure (String.eqb (attr_s rnn_mode) "gru") rnn_mode_msg ;;;
    dropout <- getitem (attr node) "dropout" ;;
    make_sure (bool_decide (attr_f dropout = Q2Qc 0)) dropout_msg ;;;
    input_mode <- getitem (attr node) "input_mode" ;;
    make_sure (String.eqb (attr_s input_mode) "linear_input") input_mode_msg ;;;
    direction <- getitem (attr node) "direction" ;;
    let num_dirs := if String.eqb (attr_s direction) "unidirectional" then 1 else 2 in
    H0 <- subscript H_shape 0 ;;
    let num_layers := int_div H0 num_dirs in
    hidden_size <- subscript H_shape 2 ;;
    let num_units := hidden_size in
    input_size <- subscript X_shape 2 ;;
    let w_shape := [num_layers * num_dirs; 3 * hidden_size; input_size] in
    w_shape_name <- make_name "w_shape" ;;
    w_shape_arr <- np_array_int64 w_shape ;;
    w_shape_const <- make_const w_shape_name w_shape_arr ;;
    let r_shape := [num_layers * num_dirs; 3 * hidden_size; hidden_size] in
    r_shape_name <- make_name "r_shape" ;;
    r_shape_arr <- np_array_int64 r_shape ;;
    r_shape_const <- make_const r_shape_name r_shape_arr ;;
    let b_shape := [num_layers * num_dirs; 6 * hidden_size] in
    b_shape_name <- make_name "b_shape" ;;
    b_shape_arr <- np_array_int64 b_shape ;;
    b_shape_const <- make_const b_shape_name b_shape_arr ;;
    zero_name <- make_name "zero" ;;
    zero_arr <- np_array_int64 [0] ;;
    zero_const <- make_const zero_name zero_arr ;;
    let w_end := np_prod w_shape in
    w_end_name <- make_name "w_end" ;;
    w_end_arr <- np_array_int64 [w_end] ;;
    w_end_const <- make_const w_end_name w_end_arr ;;
    let r_end := np_add w_end (np_prod r_shape) in
    r_end_name <- make_name "r_end" ;;
    r_end_arr <- np_array_int64 [r_end] ;;
    r_end_const <- make_const r_end_name r_end_arr ;;
    let b_end := np_add r_end (np_prod b_shape) in
    b_end_name <- make_name "b_end" ;;
    b_end_arr <- np_array_int64 [b_end] ;;
    b_end_const <- make_const b_end_name b_end_arr ;;
    let names prefix := map (fun i => NM node (prefix +:+ str i))
                            (range (num_layers * num_dirs)) in
    let WS := names "W_" in
    let RS := names "R_" in
    let BS := names "B_" in
    let HS := names "H_" in
    let YHS := names "YH_" in
    zero_out <- index (output zero_const) 0 ;;
    w_end_out <- index (output w_end_const) 0 ;;
    W_flattened <- make_node "Slice" [P; zero_out; w_end_out] [] 1 None ;;
    w_end_out <- index (output w_end_const) 0 ;;
    r_end_out <- index (output r_end_const) 0 ;;
    R_flattened <- make_node "Slice" [P; w_end_out; r_end_out] [] 1 None ;;
    r_end_out <- index (output r_end_const) 0 ;;
    b_end_out <- index (output b_end_const) 0 ;;
    B_flattened <- make_node "Slice" [P; r_end_out; b_end_out] [] 1 None ;;
    W <- make_name "W" ;;
    R <- make_name "R" ;;
    B <- make_name "B" ;;
    W_flat_out <- index (output W_flattened) 0 ;;
    w_shape_out <- index (output w_shape_const) 0 ;;
    make_node "Reshape" [W_flat_out; w_shape_out] [] 1 (Some [W]) ;;;
    R_flat_out <- index (output R_flattened) 0 ;;
    r_shape_out <- index (output r_shape_const) 0 ;;
    make_node "Reshape" [R_flat_out; r_shape_out] [] 1 (Some [R]) ;;;
    B_flat_out <- index (output B_flattened) 0 ;;
    b_shape_out <- index (output b_shape_const) 0 ;;
    make_node "Reshape" [B_flat_out; b_shape_out] [] 1 (Some [B]) ;;;
    make_node "Split" [W] [] 1 (Some WS) ;;;
    make_node "Split" [R] [] 1 (Some RS) ;;;
    make_node "Split" [B] [] 1 (Some BS) ;;;
    make_node "Split" [H] [] 1 (Some HS) ;;;
    xn <- for_each (range num_layers) (layer_body node X num_dirs num_units) (X, X) ;;
    let '(XNF, XNB) := xn in
    remove_node (name node) ;;;
    (if num_dirs =? 2 then
       out0 <- index (output node) 0 ;;
       make_node "Concat" [XNF; XNB] [("axis", AttrI (-1))] 1 (Some [out0])
     else
       out0 <- index (output node) 0 ;;
       make_node "Identity" [XNF] [] 1 (Some [out0])) ;;;
    out1 <- index (output node) 1 ;;
    make_node "Concat" YHS [("axis", AttrI 0)] 1 (Some [out1]) ;;;
    ret tt.

End Handler.
End CudnnRNN.

(** ** What a value of the graph denotes *)

(** The expression a value stands for: a leaf, or output slot [slot] of a
    primitive applied to the expressions of its inputs. *)
Inductive term :=
| Leaf (v : string)
| App (op : string) (attrs : list (string * attr_value)) (args : list term) (slot : nat).

Fixpoint find_slot (v : string) (outs : list string) : option nat :=
  match outs with
  | [] => None
  | o :: outs' => if String.eqb o v then Some 0%nat else S <$> find_slot v outs'
  end.

(** The node that produces value [v], and the slot it produces it in. *)
Fixpoint producer (ns : list Node) (v : string) : option (Node * nat) :=
  match ns with
  | [] => None
  | n :: ns' =>
    match find_slot v (output n) with
    | Some k => Some (n, k)
    | None => producer ns' v
    end
  end.

(** Unfold value [v] through the nodes [ns] down to the [leaves]. *)
Fixpoint denote (fuel : nat) (ns : list Node) (leaves : list string) (v : string)
    : option term :=
  match fuel with
  | O => None
  | S fuel' =>
    if existsb (String.eqb v) leaves then Some (Leaf v)
    else
      match producer ns v with
      | None => None
      | Some (n, k) =>
        match mapM (denote fuel' ns leaves) (input n) with
        | Some args => Some (App (op_type n) (attr n) args k)
        | None => None
        end
      end
  end.

(** With enough fuel, [v] denotes [t]. *)
Definition denotes (ns : list Node) (leaves : list string) (v : string) (t : term) : Prop :=
  exists fuel, denote fuel ns leaves v = Some t.

(** The nodes a run has added to the graph. *)
Definition new_nodes (st st' : State) : list Node :=
  drop (length (nodes (graph st))) (nodes (graph st')).

(** The events a run has added to the history. *)
Definition new_events (st st' : State) : list event :=
  drop (length (trace st)) (trace st').

(** The rewirings of a history, in order. *)
Definition rewirings (evs : list event) : list (string * string) :=
  omap (fun e => match e with EvReplace o n => Some (o, n) | _ => None end) evs.

(** The constants a history created, in order. *)
Definition constants (evs : list event) : list Node :=
  omap (fun e => match e with EvMakeConst n => Some n | _ => None end) evs.

(** The primitive nodes a history created, in order. *)
Definition primitives (evs : list event) : list Node :=
  omap (fun e => match e with EvMakeNode n => Some n | _ => None end) evs.

(** The removals of a history, in order. *)
Definition removals (evs : list event) : list string :=
  omap (fun e => match e with EvRemove nm => Some nm | _ => None end) evs.

(** ** Numeric meaning of an expression *)

(** The order of the rationals with the two infinities. *)
Definition scalar_lt (a b : scalar) : bool :=
  match a, b with
  | Fin x, Fin y => bool_decide (x < y)%Qc
  | NInf, NInf | PInf, _ | _, NInf => false
  | NInf, _ | _, PInf => true
  end.

Definition scalar_max (a b : scalar) : scalar := if scalar_lt a b then b else a.
Definition scalar_min (a b : scalar) : scalar := if scalar_lt b a then b else a.

(** Modelled from the spec: the clamp primitive (ONNX [Clip]), an
    "elementwise restriction of a tensor's values to a symmetric numeric
    range"; an absent bound does not restrict. *)
Definition clip (lo hi : option scalar) (xs : list scalar) : list scalar :=
  map (fun x =>
         let y := match lo with Some l => scalar_max x l | None => x end in
         match hi with Some h => scalar_min y h | None => y end) xs.

Definition attr_bound (attrs : list (string * attr_value)) (key : string)
    : option scalar :=
  (fun a => Fin (attr_f a)) <$> assoc key attrs.

Definition const_data (attrs : list (string * attr_value)) : list scalar :=
  match assoc "value" attrs with
  | Some (AttrT t) => np_data t
  | _ => []
  end.

Section Eval.
  (** The meaning of the primitives other than constants and clamps, and of
      the leaves, is left open: tensors are flattened to their elements. *)
Variable prim :
    string -> list (string * attr_value) -> list (list scalar) -> nat -> list scalar.
Variable rho : string -> list scalar.

Fixpoint eval (t : term) : list scalar :=
    match t with
    | Leaf v => rho v
    | App op attrs args k =>
      if String.eqb op "Const" then const_data attrs
      else if String.eqb op "Clip" then
        match args with
        | [a] => clip (attr_bound attrs "min") (attr_bound attrs "max") (eval a)
        | [a; lo; hi] => clip (head (eval lo)) (head (eval hi)) (eval a)
        | _ => prim op attrs (map eval args) k
        end
      else prim op attrs (map eval args) k
    end.
End Eval.

(** ** The closed form of section 4.1, in the spec's words *)

Module ClosedForm.
Section Equations.
  (** The eight input tensors, the three attributes, and the target
      version with the cell state's element type that select the clamp
      representation. *)
Variables input previous_cell previous_hidden weight : term.
Variables peephole_in_w peephole_forget_w peephole_out_w bias : term.
Variable hidden_size : Z.
Variable forget_bias_offset clamp_bound : Qc.
Variable peephole_enabled : bool.
Variable target_version : Z.
Variable cell_dtype : numpy_dtype.

Definition const (t : ndarray) : term := App "Const" [("value", AttrT t)] [] 0.
Definition add (a b : term) : term := App "Add" [] [a; b] 0.
Definition mul (a b : term) : term := App "Mul" [] [a; b] 0.
Definition sigmoid (a : term) : term := App "Sigmoid" [] [a] 0.
Definition tanh (a : term) : term := App "Tanh" [] [a] 0.

Definition zero_vector (n : Z) : term :=
    const {| np_dtype := np_float32; np_shape := [n];
             np_data := repeat (Fin (Q2Qc 0)) (Z.to_nat n) |}.

  (** The two representations of the clamp to [±bound]. *)
Definition clamp_attributes (bound : Qc) (t : term) : term :=
    App "Clip" [("max", AttrF bound); ("min", AttrF (- bound)%Qc)] [t] 0.
Definition clamp_inputs (bound : Qc) (t : term) : term :=
    App "Clip" [] [t; const (np_array_scalar (- bound)%Qc cell_dtype);
                      const (np_array_scalar bound cell_dtype)] 0.
Definition clamp (bound : Qc) (t : term) : term :=
    if target_version <? 11 then clamp_attributes bound t else clamp_inputs bound t.

Definition concat : term :=
    App "Concat" [("axis", AttrI 1)] [input; previous_hidden] 0.
Definition gates : term := add (App "MatMul" [] [concat; weight] 0) bias.
Definition gate_pre (k : nat) : term :=
    App "Split" [("axis", AttrI 1); ("split", AttrInts (repeat hidden_size 4))] [gates] k.
Definition in_gate_pre := gate_pre 0.
Definition cellin_pre := gate_pre 1.
Definition forget_pre := gate_pre 2.
Definition out_gate_pre := gate_pre 3.
Definition forget_pre' : term :=
    add forget_pre (const (np_array_scalar forget_bias_offset np_float32)).
Definition peephole_in : term :=
    if peephole_enabled then peephole_in_w else zero_vector hidden_size.
Definition peephole_forget : term :=
    if peephole_enabled then peephole_forget_w else zero_vector hidden_size.
Definition peephole_out : term :=
    if peephole_enabled then peephole_out_w else zero_vector hidden_size.
Definition in_gate : term := sigmoid (add (mul previous_cell peephole_in) in_gate_pre).
Definition forget : term := sigmoid (add (mul previous_cell peephole_forget) forget_pre').
Definition cell_input : term := tanh cellin_pre.
Definition cell_state_unclamped : term :=
    add (mul cell_input in_gate) (mul previous_cell forget).
Definition cell_state : term :=
    if bool_decide (Q2Qc 0 < clamp_bound)%Qc
    then clamp clamp_bound cell_state_unclamped
    else cell_state_unclamped.
Definition out_gate : term := sigmoid (add (mul cell_state peephole_out) out_gate_pre).
Definition cell_tanh : term := tanh cell_state.
Definition hidden : term := mul cell_tanh out_gate.

  (** "Outputs, in fixed order". *)
Definition outputs : list term :=
    [in_gate; cell_state; forget; out_gate; cell_input; cell_tanh; hidden].
End Equations.
End ClosedForm.

(** ** Concrete graphs, used to run the handlers *)

(** An inference that knows every new value as float32, shape unknown. *)
Definition float_inference : ShapeInference :=
  {| infer_dtype := fun _ _ _ => Some FLOAT; infer_shape := fun _ _ _ => None |}.

(** An inference that knows nothing. *)
Definition no_inference : ShapeInference :=
  {| infer_dtype := fun _ _ _ => None; infer_shape := fun _ _ _ => None |}.

Definition lstm_node (forget_bias cell_clip : Qc) (use_peephole : Z) : Node :=
  {| name := "lstm"; op_type := "LSTMBlockCell";
     input := ["x"; "cs"; "hp"; "w"; "wci"; "wcf"; "wco"; "b"];
     output := ["i"; "c"; "f"; "o"; "ci"; "co"; "h"];
     attr := [("forget_bias", AttrF forget_bias); ("cell_clip", AttrF cell_clip);
              ("use_peephole", AttrI use_peephole)] |}.

Definition consumer_node : Node :=
  {| name := "next"; op_type := "Add"; input := ["h"; "c"]; output := ["y"]; attr := [] |}.

(** A graph holding the fused cell and one consumer of two of its outputs;
    the weight matrix is declared [rows x cols]. *)
Definition lstm_state (n : Node) (rows cols : Z) (ops : Z) : State :=
  {| graph := {| nodes := [n; consumer_node];
                 dtypes := <["c" := FLOAT]> (<["h" := FLOAT]> ∅);
                 shapes := <["w" := [rows; cols]]> ∅;
                 opset := ops |};
     counter := 0; trace := [] |}.

(** ** Generated names *)

(** A name handed out by the graph context: the name of a node or
    constant made with counter [n], or of output slot [k] of such a node. *)
Definition gen (base : string) (n : nat) (slot : option nat) : string :=
  match slot with
  | None => make_name_str base n
  | Some k => out_name (make_name_str base n) k
  end.

(** [v] cannot be handed out once the counter has passed [c]. *)
Definition fresh_from (c : nat) (v : string) : Prop :=
  forall base n slot, (c < n)%nat -> v <> gen base n slot.

Definition is_digit (a : ascii) : bool :=
  (48 <=? nat_of_ascii a)%nat && (nat_of_ascii a <=? 57)%nat.

Fixpoint all_digits (s : string) : bool :=
  match s with
  | EmptyString => true
  | String a s' => is_digit a && all_digits s'
  end.

(** No underscore occurs in the string. *)
Fixpoint no_underscore (s : string) : bool :=
  match s with
  | EmptyString => true
  | String a s' => negb (Ascii.eqb a "_") && no_underscore s'
  end.

(** ** Successful runs *)

(** [c] run from [st] returns a value, and the value and the state it
    leaves satisfy [Q]. *)
Definition wp {A} (c : M A) (Q : A -> State -> Prop) (st : State) : Prop :=
  exists a st', c st = (Ok a, st') /\ Q a st'.

(** ** What a successful lowering of the cell leaves behind *)

(** The three calls of [replace_output old new]. *)
Definition rewire_events (p : string * string) : list event :=
  [EvReplace (fst p) (snd p); EvCopyDtype (fst p) (snd p); EvCopyShape (fst p) (snd p)].

(** The node and constant creations of a history, in order. *)
Definition creations (evs : list event) : list event :=
  List.filter (fun e => match e with
                        | EvMakeNode _ | EvMakeConst _ => true
                        | _ => false
                        end) evs.

(** A node after the rewirings [ps], applied in order. *)
Definition rewire_all (ps : list (string * string)) (n : Node) : Node :=
  fold_left (fun n p => replace_input (fst p) (snd p) n) ps n.

(** The tensor a constant node holds. *)
Definition const_tensor (n : Node) : option ndarray :=
  match assoc "value" (attr n) with
  | Some (AttrT t) => Some t
  | _ => None
  end.

(** The state [st'] a run of [LSTMBlockCell.version_1] from [st] has
    reached, on the cell with inputs [ins], outputs [outs], attributes
    [forget_bias], [cell_clip], [use_peephole] and weight width
    [4 * hidden_size].  [cell_dtype] is the numpy type of the cell state,
    [cs_raw] the value holding the cell state before the clamp. *)
Record lowered_cell `{ShapeInference} (st : State) (ins outs : list string)
    (x cs_prev h_prev w wci wcf wco b : string)
    (forget_bias cell_clip : Qc) (use_peephole : bool) (hidden_size : Z)
    (cell_dtype : numpy_dtype) (cs_raw : string) (st' : State) : Prop := {
  (** creations first, then one rewiring per output, and nothing else *)
  lc_history :
    new_events st st' =
    (creations (new_events st st') ++
     flat_map rewire_events (rewirings (new_events st st')))%list;
  lc_rewired : map fst (rewirings (new_events st st')) = outs;
  (** the old nodes stay, rewired; the created ones follow *)
  lc_nodes :
    nodes (graph st') =
    (map (rewire_all (rewirings (new_events st st'))) (nodes (graph st)) ++
     new_nodes st st')%list;
  lc_created :
    new_nodes st st' =
    omap (fun e => match e with
                   | EvMakeNode n | EvMakeConst n => Some n
                   | _ => None
                   end) (new_events st st');
  (** the replacement values denote the closed form *)
  lc_denotes :
    Forall2 (denotes (new_nodes st st') ins)
      (map snd (rewirings (new_events st st')))
      (ClosedForm.outputs (Leaf x) (Leaf cs_prev) (Leaf h_prev) (Leaf w)
         (Leaf wci) (Leaf wcf) (Leaf wco) (Leaf b)
         hidden_size forget_bias cell_clip use_peephole
         (opset (graph st)) cell_dtype);
  lc_cs_raw :
    denotes (new_nodes st st') ins cs_raw
      (ClosedForm.cell_state_unclamped (Leaf x) (Leaf cs_prev) (Leaf h_prev) (Leaf w)
         (Leaf wci) (Leaf wcf) (Leaf b) hidden_size forget_bias use_peephole);
  (** the constants *)
  lc_constants :
    map const_tensor (constants (new_events st st')) =
    ([Some (np_array_scalar forget_bias np_float32)] ++
     (if use_peephole then []
      else [Some {| np_dtype := np_float32; np_shape := [hidden_size];
                    np_data := repeat (Fin (Q2Qc 0)) (Z.to_nat hidden_size) |}]) ++
     (if bool_decide (Q2Qc 0 < cell_clip)%Qc && negb (opset (graph st) <? 11)
      then [Some (np_array_scalar (- cell_clip)%Qc cell_dtype);
            Some (np_array_scalar cell_clip cell_dtype)]
      else []))%list;
  (** on the constant-input clamp path, the type read for the constants *)
  lc_cell_dtype :
    bool_decide (Q2Qc 0 < cell_clip)%Qc && negb (opset (graph st) <? 11) = true ->
    exists d g n, op_type n = "Add" /\ infer_dtype g n 0 = Some d /\
                  dtypes (graph st') !! cs_raw = Some d /\
                  map_onnx_to_numpy_type (Some d) = ret cell_dtype;
  lc_opset : opset (graph st') = opset (graph st)
}.

(** A call of [LSTMBlockCell.version_1] on a well-formed cell: eight
    inputs and seven outputs, the three attributes, a weight matrix whose
    declared shape is two-dimensional with a width [4 * hidden_size], names
    that the graph context will not hand out again, no output fed back as
    an input, and, where the clamp needs it, an inference that knows the
    element type of a sum. *)
Record cell_call `{ShapeInference} (st : State) (node : Node)
    (x cs_prev h_prev w wci wcf wco b : string)
    (forget_bias cell_clip : Qc) (use_peephole : bool) (hidden_size : Z) : Prop := {
  cc_input : input node = [x; cs_prev; h_prev; w; wci; wcf; wco; b];
  cc_output : length (output node) = 7%nat;
  cc_forget_bias : attr_f <$> assoc "forget_bias" (attr node) = Some forget_bias;
  cc_cell_clip : attr_f <$> assoc "cell_clip" (attr node) = Some cell_clip;
  cc_use_peephole :
    (fun a => negb (attr_i a =? 0)) <$> assoc "use_peephole" (attr node)
    = Some use_peephole;
  cc_weight :
    exists rows cols, shapes (graph st) !! w = Some [rows; cols] /\
                      cols mod 4 = 0 /\ 0 <= cols /\ hidden_size = int_div cols 4;
  cc_fresh_input : Forall (fresh_from (counter st)) (input node);
  cc_fresh_output : Forall (fresh_from (counter st)) (output node);
  cc_no_feedback : forall v, In v (input node) -> ~ In v (output node);
  cc_inference :
    (Q2Qc 0 < cell_clip)%Qc -> 11 <= opset (graph st) ->
    forall g n, op_type n = "Add" ->
                exists d, infer_dtype g n 0 = Some d /\ d <> STRING
}.

(** No element of [ins] occurs in [outs]. *)
Definition disjointb (ins outs : list string) : bool :=
  forallb (fun v => negb (existsb (String.eqb v) outs)) ins.

(** The example cell: forget bias 1, clamp bound 3/2, peephole off, a 5x8
    weight matrix, and a target version with constant-input clamps. *)
Definition example_cell : Node := lstm_node (Q2Qc 1) (Q2Qc (3 # 2)) 0.
Definition example_state : State := lstm_state example_cell 5 8 11.

(** What [replace_output old new] does to the graph. *)
Definition replace_output_graph (old new : string) (g : Graph) : Graph :=
  copy_shape_graph old new (copy_dtype_graph old new (replace_all_inputs_graph old new g)).

(** The example cell with the peephole connections switched on. *)
Definition example_cell_peephole : Node := lstm_node (Q2Qc 1) (Q2Qc (3 # 2)) 1.
Definition example_state_peephole : State := lstm_state example_cell_peephole 5 8 11.


(** ** Failing runs *)

(** [c] run from [st] raises [e], and the state it leaves satisfies [Q]. *)
Definition fails {A} (c : M A) (e : exn) (Q : State -> Prop) (st : State) : Prop :=
  exists st', c st = (Raise e, st') /\ Q st'.

(** A graph whose weight matrix has a width that is no multiple of four. *)
Definition example_state_bad_width : State := lstm_state example_cell 5 6 11.

(** ** What a run of the multi-layer lowering leaves behind *)

(** A node without its generated name. *)
Definition signature : Type :=
  string * list string * list string * list (string * attr_value).

Definition sig (n : Node) : signature := (op_type n, input n, output n, attr n).

(** [num_dirs = 1 if direction == b"unidirectional" else 2]. *)
Definition num_dirs (direction : string) : Z :=
  if String.eqb direction "unidirectional" then 1 else 2.

(** The recurrent operator of one direction of one layer and the squeeze
    of its sequence output. *)
Definition gru_sig (node : Node) (X : string) (num_units : Z)
    (direction XN suffix : string) : list signature :=
  [("GRU",
    [XN; CudnnRNN.NM node ("W" +:+ suffix); CudnnRNN.NM node ("R" +:+ suffix);
     CudnnRNN.NM node ("B" +:+ suffix); ""; CudnnRNN.NM node ("H" +:+ suffix)],
    [CudnnRNN.NM node ("Y" +:+ suffix); CudnnRNN.NM node ("YH" +:+ suffix)],
    [("direction", AttrS direction); ("hidden_size", AttrI num_units)]);
   ("Squeeze", [CudnnRNN.NM node ("Y" +:+ suffix)], [CudnnRNN.NM node (X +:+ suffix)],
    [("axes", AttrInts [1])])].

(** The value the forward operator of layer [i] reads: the network input,
    or the squeezed forward output of layer [i - 1]. *)
Definition fwd_input (node : Node) (X : string) (dirs : Z) (i : Z) : string :=
  if i =? 0 then X else CudnnRNN.NM node (X +:+ "_" +:+ str ((i - 1) * dirs)).

(** The value the reverse operator of layer [i] reads: the network input,
    or the squeezed reverse output of layer [i - 1]. *)
Definition bwd_input (node : Node) (X : string) (i : Z) : string :=
  if i =? 0 then X else CudnnRNN.NM node (X +:+ "_" +:+ str ((i - 1) * 2 + 1)).

(** The pair [(XNF, XNB)] on entry to layer [i]. *)
Definition chain (node : Node) (X : string) (dirs : Z) (i : Z) : string * string :=
  (fwd_input node X dirs i, if dirs =? 2 then bwd_input node X i else X).

Definition layer_sig (node : Node) (X : string) (dirs num_units : Z) (i : Z)
    : list signature :=
  (gru_sig node X num_units "forward" (fwd_input node X dirs i) ("_" +:+ str (i * dirs)) ++
   (if dirs =? 2
    then gru_sig node X num_units "reverse" (bwd_input node X i) ("_" +:+ str (i * 2 + 1))
    else []))%list.

(** The per-layer, per-direction names [NM(prefix + str(i))]. *)
Definition names (node : Node) (count : Z) (prefix : string) : list string :=
  map (fun i => CudnnRNN.NM node (prefix +:+ str i)) (range count).

(** The seven constants, with the counter at [c] on entry. *)
Definition int64_array (l : list Z) : ndarray :=
  {| np_dtype := np_int64; np_shape := [Z.of_nat (length l)];
     np_data := map (fun z => Fin (Qc_of_int z)) l |}.

Definition rnn_constants (layers dirs hidden input_size : Z) : list ndarray :=
  let w_shape := [layers * dirs; 3 * hidden; input_size] in
  let r_shape := [layers * dirs; 3 * hidden; hidden] in
  let b_shape := [layers * dirs; 6 * hidden] in
  let w_end := np_prod w_shape in
  let r_end := np_add w_end (np_prod r_shape) in
  let b_end := np_add r_end (np_prod b_shape) in
  [int64_array w_shape; int64_array r_shape; int64_array b_shape; int64_array [0];
   int64_array [w_end]; int64_array [r_end]; int64_array [b_end]].

Definition rnn_constant_names (c : nat) : list string :=
  [make_name_str "w_shape" (1 + c); make_name_str "r_shape" (2 + c);
   make_name_str "b_shape" (3 + c); make_name_str "zero" (4 + c);
   make_name_str "w_end" (5 + c); make_name_str "r_end" (6 + c);
   make_name_str "b_end" (7 + c)].

(** The slices, reshapes and splits of the packed parameters. *)
Definition scaffold_sig (c : nat) (node : Node) (H P : string) (count : Z)
    : list signature :=
  let slice k := out_name (make_name_str "Slice" (k + c)) 0 in
  let W := make_name_str "W" (11 + c) in
  let R := make_name_str "R" (12 + c) in
  let B := make_name_str "B" (13 + c) in
  [("Slice", [P; make_name_str "zero" (4 + c); make_name_str "w_end" (5 + c)],
    [slice 8%nat], []);
   ("Slice", [P; make_name_str "w_end" (5 + c); make_name_str "r_end" (6 + c)],
    [slice 9%nat], []);
   ("Slice", [P; make_name_str "r_end" (6 + c); make_name_str "b_end" (7 + c)],
    [slice 10%nat], []);
   ("Reshape", [slice 8%nat; make_name_str "w_shape" (1 + c)], [W], []);
   ("Reshape", [slice 9%nat; make_name_str "r_shape" (2 + c)], [R], []);
   ("Reshape", [slice 10%nat; make_name_str "b_shape" (3 + c)], [B], []);
   ("Split", [W], names node count "W_", []);
   ("Split", [R], names node count "R_", []);
   ("Split", [B], names node count "B_", []);
   ("Split", [H], names node count "H_", [])].

(** The node bound to the first output. *)
Definition final_sig (node : Node) (X : string) (dirs layers : Z) (out0 : string)
    : signature :=
  if dirs =? 2
  then ("Concat", [fwd_input node X dirs layers; bwd_input node X layers], [out0],
        [("axis", AttrI (-1))])
  else ("Identity", [fwd_input node X dirs layers], [out0], []).

(** The node bound to the second output. *)
Definition final_hidden_sig (node : Node) (count : Z) (out1 : string) : signature :=
  ("Concat", names node count "YH_", [out1], [("axis", AttrI 0)]).

(** A call of [CudnnRNN.version_11] that passes the three checks, with the
    shapes it reads declared and within the range of int64. *)
Record rnn_call (st : State) (node : Node) (X H P direction : string)
    (H0 hidden input_size : Z) (out0 out1 : string) : Prop := {
  rc_X : nth_error (input node) 0 = Some X;
  rc_H : nth_error (input node) 1 = Some H;
  rc_P : nth_error (input node) 3 = Some P;
  rc_rnn_mode : attr_s <$> assoc "rnn_mode" (attr node) = Some "gru";
  rc_dropout : attr_f <$> assoc "dropout" (attr node) = Some (Q2Qc 0);
  rc_input_mode : attr_s <$> assoc "input_mode" (attr node) = Some "linear_input";
  rc_direction : attr_s <$> assoc "direction" (attr node) = Some direction;
  rc_H_shape :
    exists hs, shapes (graph st) !! H = Some hs /\
               nth_error hs 0 = Some H0 /\ nth_error hs 2 = Some hidden;
  rc_X_shape :
    exists xs, shapes (graph st) !! X = Some xs /\ nth_error xs 2 = Some input_size;
  rc_int64 :
    forallb in_int64
      [int_div H0 (num_dirs direction) * num_dirs direction; 3 * hidden; input_size;
       hidden; 6 * hidden] = true;
  rc_out0 : nth_error (output node) 0 = Some out0;
  rc_out1 : nth_error (output node) 1 = Some out1
}.

(** The state [st'] a run of [CudnnRNN.version_11] from [st] has reached:
    seven constants, the scaffold, the layers, the removal of the fused
    node, and then the two nodes bound to its outputs. *)
Definition lowered_rnn (st : State) (node : Node) (X H P : string)
    (dirs H0 hidden input_size : Z) (out0 out1 : string) (st' : State) : Prop :=
  let layers := int_div H0 dirs in
  exists consts scaffold steps final final_hidden,
    trace st' =
      (trace st ++ map EvMakeConst consts ++ map EvMakeNode scaffold ++
       map EvMakeNode steps ++ EvRemove (name node) ::
       [EvMakeNode final; EvMakeNode final_hidden])%list /\
    nodes (graph st') =
      (filter (fun n => name n ≠ name node)
         (nodes (graph st) ++ consts ++ scaffold ++ steps) ++
       [final; final_hidden])%list /\
    map name consts = rnn_constant_names (counter st) /\
    map op_type consts = repeat "Const" 7 /\
    map const_tensor consts = map Some (rnn_constants layers dirs hidden input_size) /\
    map sig scaffold = scaffold_sig (counter st) node H P (layers * dirs) /\
    map sig steps = flat_map (layer_sig node X dirs hidden) (range layers) /\
    sig final = final_sig node X dirs (Z.max 0 layers) out0 /\
    sig final_hidden = final_hidden_sig node (layers * dirs) out1.

(** ** Concrete multi-layer networks *)

Definition rnn_node (nm rnn_mode direction : string) : Node :=
  {| name := nm; op_type := "CudnnRNN";
     input := ["x"; "h"; "c"; "p"];
     output := ["y"; "yh"; "yc"; "reserve"];
     attr := [("rnn_mode", AttrS rnn_mode); ("dropout", AttrF (Q2Qc 0));
              ("input_mode", AttrS "linear_input"); ("direction", AttrS direction)] |}.

(** A graph holding the fused network, with a sequence input of shape
    [7 x 1 x input_size] and initial hidden states of shape
    [H0 x 1 x hidden]. *)
Definition rnn_state (n : Node) (H0 hidden input_size : Z) : State :=
  {| graph := {| nodes := [n];
                 dtypes := ∅;
                 shapes := <["x" := [7; 1; input_size]]> (<["h" := [H0; 1; hidden]]> ∅);
                 opset := 11 |};
     counter := 0; trace := [] |}.

(** Two bidirectional layers. *)
Definition example_rnn : Node := rnn_node "rnn" "gru" "bidirectional".
Definition example_rnn_state : State := rnn_state example_rnn 4 5 3.

(** Hidden states with a leading dimension of 3 under two directions. *)
Definition example_rnn_state_odd : State := rnn_state example_rnn 3 5 3.

(** A network in a recurrence mode other than "gru". *)
Definition example_rnn_lstm : Node := rnn_node "encoder/cudnn" "lstm" "bidirectional".

(** [needle in hay] on strings. *)
Fixpoint contains (needle hay : string) : bool :=
  String.prefix needle hay ||
  match hay with
  | EmptyString => false
  | String _ hay' => contains needle hay'
  end.

(** The first input and the direction of every recurrent operator among
    the nodes [ns]. *)
Definition gru_inputs (ns : list Node) : list (option string * option string) :=
  map (fun n => (attr_s <$> assoc "direction" (attr n), head (input n)))
      (List.filter (fun n => String.eqb (op_type n) "GRU") ns).

(** A graph that records no shape at all. *)
Definition example_state_no_shapes : State :=
  {| graph := {| nodes := [example_cell; consumer_node]; dtypes := ∅; shapes := ∅;
                 opset := 11 |};
     counter := 0; trace := [] |}.

(** A bystander that consumes none of the cell's outputs. *)
Definition bystander_node : Node :=
  {| name := "prev"; op_type := "Relu"; input := ["x"]; output := ["r"]; attr := [] |}.

(** The example graph with the bystander in front. *)
Definition example_state_bystander : State :=
  {| graph := {| nodes := [bystander_node; example_cell; consumer_node];
                 dtypes := ∅; shapes := <["w" := [5; 8]]> ∅; opset := 11 |};
     counter := 0; trace := [] |}.

(** The parts of a signature. *)
Definition sig_op (s : signature) : string := s.1.1.1.
Definition sig_inputs (s : signature) : list string := s.1.1.2.
Definition sig_outputs (s : signature) : list string := s.1.2.

(** The second outputs of the recurrent operators among [ns], in order:
    their final hidden states. *)
Definition final_states (ns : list Node) : list string :=
  flat_map (fun n => if String.eqb (op_type n) "GRU" then drop 1 (output n) else []) ns.

(** An input network with one unidirectional layer and an unknown leading
    dimension of the hidden states. *)
Definition example_rnn_uni : Node := rnn_node "rnn" "gru" "unidirectional".
Definition example_rnn_state_unknown : State := rnn_state example_rnn_uni (-1) 5 3.

(** ** The nodes the cell lowering creates *)

(** The nodes and constants a history created, in order. *)
Definition created_nodes (evs : list event) : list Node :=
  omap (fun e => match e with
                 | EvMakeNode n | EvMakeConst n => Some n
                 | _ => None
                 end) evs.

(** [v] is a name the graph context handed out after the counter was [c]. *)
Definition generated (c : nat) (v : string) : Prop :=
  exists base n slot, v = gen base n slot /\ (c < n)%nat.

(** Every output of [n] is such a name, and every input is such a name or
    one of [ins]. *)
Definition well_wired (c : nat) (ins : list string) (n : Node) : Prop :=
  Forall (generated c) (output n) /\
  Forall (fun i => In i ins \/ generated c i) (input n).

(** The primitives of the lowered cell, in the order of their creation. *)
Definition cell_ops (use_peephole clamp attribute_clamp : bool) : list string :=
  (["Concat"; "MatMul"; "Add"; "Split"; "Const"; "Add"] ++
   (if use_peephole then [] else ["Const"]) ++
   ["Mul"; "Add"; "Sigmoid"; "Mul"; "Add"; "Sigmoid"; "Tanh"; "Mul"; "Mul"; "Add"] ++
   (if clamp then (if attribute_clamp then ["Clip"] else ["Const"; "Const"; "Clip"])
    else []) ++
   ["Mul"; "Add"; "Sigmoid"; "Tanh"; "Mul"])%list.

(** The name after one replacement, and after the replacements [ps]. *)
Definition rewire_name (ps : list (string * string)) (i : string) : string :=
  fold_left (fun i p => if String.eqb i (fst p) then snd p else i) ps i.

(** ** The clamp under the element types of the cell state *)

(** The run takes the constant-input clamp path. *)
Definition constant_clamp (cell_clip : Qc) (target_version : Z) : bool :=
  bool_decide (Q2Qc 0 < cell_clip)%Qc && negb (target_version <? 11).






(** * Properties *)

(** ** Generated names are pairwise distinct *)

Lemma pretty_N_go_digits (x : N) (s : string) :
  all_digits s = true -> all_digits (pretty_N_go x s) = true.
Proof.
  revert s. induction (N.lt_wf_0 x) as [x _ IH]; intros s Hs.
  destruct (decide (x = 0%N)) as [->|Hx].
  - by rewrite pretty_N_go_0.
  - rewrite pretty_N_go_step by lia.
    apply IH; [apply N.div_lt; lia|].
    simpl. rewrite Hs, andb_true_r.
    assert (Hm : (x `mod` 10 < 10)%N) by (apply N.mod_lt; lia).
    destruct (x `mod` 10)%N as [|p]; [done|].
    do 4 (destruct p as [p|p|]; try done; try lia).
Qed.

Lemma pretty_nat_digits (n : nat) : all_digits (pretty n) = true.
Proof.
  unfold pretty, pretty_nat, pretty, pretty_N.
  case_decide; [done|]. by apply pretty_N_go_digits.
Qed.

Lemma append_cons (x : ascii) (a b : string) : String x a +:+ b = String x (a +:+ b).
Proof. reflexivity. Qed.

Lemma append_nil (b : string) : "" +:+ b = b.
Proof. reflexivity. Qed.

Lemma app_assoc_str (a b c : string) : (a +:+ b) +:+ c = a +:+ (b +:+ c).
Proof. induction a as [|x a IH]; [done|]. by rewrite !append_cons, IH. Qed.

(** A string splits in one way only into a prefix, a non-digit and a run of
    digits. *)
Lemma digits_suffix_unique (a1 a2 : string) (c1 c2 : ascii) (d1 d2 : string) :
  all_digits d1 = true -> all_digits d2 = true ->
  is_digit c1 = false -> is_digit c2 = false ->
  a1 +:+ String c1 d1 = a2 +:+ String c2 d2 ->
  a1 = a2 /\ c1 = c2 /\ d1 = d2.
Proof.
  intros Hd1 Hd2 Hc1 Hc2. revert a2.
  assert (Hmid : forall (a : string) c d d', all_digits d' = true -> is_digit c = false ->
            d' <> a +:+ String c d).
  { intros a c d d'. revert d'.
    induction a as [|y a IH]; intros d' Hd' Hc Heq; subst;
      rewrite ?append_cons, ?append_nil in Hd'; simpl in Hd'.
    - rewrite Hc in Hd'. done.
    - apply andb_true_iff in Hd' as [_ Hd']. by eapply IH. }
  induction a1 as [|y a1 IH]; intros [|z a2];
    rewrite ?append_cons, ?append_nil; intros Heq.
  - by simplify_eq.
  - simplify_eq. by destruct (Hmid a2 c2 d2 (a2 +:+ String c2 d2)).
  - simplify_eq. by destruct (Hmid a1 c1 d1 (a1 +:+ String c1 d1)).
  - simplify_eq. destruct (IH a2) as (-> & -> & ->); done.
Qed.

Lemma make_name_str_split (base : string) (n : nat) :
  make_name_str base n = (base +:+ "_") +:+ String "_" (pretty n).
Proof. unfold make_name_str. by rewrite app_assoc_str. Qed.

Lemma out_name_split (nm : string) (k : nat) :
  out_name nm k = nm +:+ String ":" (pretty k).
Proof. done. Qed.

Lemma gen_inj (b b' : string) (n n' : nat) (s s' : option nat) :
  gen b n s = gen b' n' s' -> n = n' /\ s = s'.
Proof.
  destruct s as [k|], s' as [k'|]; simpl.
  - rewrite !out_name_split. intros Heq.
    apply digits_suffix_unique in Heq as (Heq & _ & Hk);
      [|apply pretty_nat_digits..|done|done].
    apply (inj pretty) in Hk as ->.
    rewrite !make_name_str_split in Heq.
    apply digits_suffix_unique in Heq as (_ & _ & Hn);
      [|apply pretty_nat_digits..|done|done].
    by apply (inj pretty) in Hn as ->.
  - rewrite out_name_split, (make_name_str_split b' n'). intros Heq.
    apply digits_suffix_unique in Heq as (_ & [=] & _);
      [apply pretty_nat_digits..|done|done].
  - rewrite out_name_split, (make_name_str_split b n). intros Heq.
    apply digits_suffix_unique in Heq as (_ & [=] & _);
      [apply pretty_nat_digits..|done|done].
  - rewrite !make_name_str_split. intros Heq.
    apply digits_suffix_unique in Heq as (_ & _ & Hn);
      [|apply pretty_nat_digits..|done|done].
    by apply (inj pretty) in Hn as ->.
Qed.

Lemma gen_neq (b b' : string) (n n' : nat) (s s' : option nat) :
  n <> n' \/ s <> s' -> gen b n s <> gen b' n' s'.
Proof. intros Hne Heq. apply gen_inj in Heq as [-> ->]. by destruct Hne. Qed.

Lemma gen_fresh (c : nat) (b : string) (n : nat) (s : option nat) :
  (n <= c)%nat -> fresh_from c (gen b n s).
Proof. intros Hle b' n' s' Hlt. apply gen_neq. left. lia. Qed.

Lemma no_underscore_app (a b : string) :
  no_underscore (a +:+ String "_" b) = false.
Proof.
  induction a as [|x a IH]; rewrite ?append_cons, ?append_nil; simpl; [done|].
  rewrite IH. apply andb_false_r.
Qed.

(** A name without an underscore is never handed out. *)
Lemma no_underscore_fresh (c : nat) (v : string) :
  no_underscore v = true -> fresh_from c v.
Proof.
  intros Hv b n s _ ->. destruct s as [k|]; simpl in Hv.
  - unfold out_name, make_name_str in Hv.
    rewrite app_assoc_str in Hv.
    change ("__" +:+ pretty n) with (String "_" ("_" +:+ pretty n)) in Hv.
    rewrite append_cons in Hv.
    by rewrite no_underscore_app in Hv.
  - unfold make_name_str in Hv.
    change ("__" +:+ pretty n) with (String "_" ("_" +:+ pretty n)) in Hv.
    by rewrite no_underscore_app in Hv.
Qed.

Lemma fresh_from_mono (c c' : nat) (v : string) :
  (c <= c')%nat -> fresh_from c v -> fresh_from c' v.
Proof. intros Hle Hv b n s Hlt. apply Hv. lia. Qed.

(** ** Rules for successful runs *)

Lemma wp_ret {A} (a : A) (Q : A -> State -> Prop) st :
  Q a st -> wp (ret a) Q st.
Proof. intros HQ. by exists a, st. Qed.

Lemma wp_bind {A B} (c : M A) (k : A -> M B) (Q : B -> State -> Prop) st :
  wp c (fun a => wp (k a) Q) st -> wp (bind c k) Q st.
Proof.
  intros (a & st1 & Hc & b & st2 & Hk & HQ).
  exists b, st2. split; [|done]. unfold bind. by rewrite Hc.
Qed.

Lemma wp_index {A} (l : list A) (k : nat) (a : A) (Q : A -> State -> Prop) st :
  nth_error l k = Some a -> Q a st -> wp (index l k) Q st.
Proof. intros Hl HQ. exists a, st. unfold index. by rewrite Hl. Qed.

Lemma wp_get_attr (n : Node) (key : string) (a : attr_value) (Q : attr_value -> State -> Prop) st :
  assoc key (attr n) = Some a -> Q a st -> wp (get_attr n key) Q st.
Proof. intros Hl HQ. exists a, st. unfold get_attr. by rewrite Hl. Qed.

Lemma wp_getitem {A} (d : list (string * A)) (key : string) (a : A) (Q : A -> State -> Prop) st :
  assoc key d = Some a -> Q a st -> wp (getitem d key) Q st.
Proof. intros Hl HQ. exists a, st. unfold getitem. by rewrite Hl. Qed.

Lemma wp_get_graph (Q : Graph -> State -> Prop) st :
  Q (graph st) st -> wp get_graph Q st.
Proof. intros HQ. by exists (graph st), st. Qed.

Lemma wp_get_shape (v : string) (Q : option (list Z) -> State -> Prop) st :
  Q (shapes (graph st) !! v) st -> wp (get_shape v) Q st.
Proof. intros HQ. by exists (shapes (graph st) !! v), st. Qed.

Lemma wp_get_dtype (v : string) (Q : option onnx_dtype -> State -> Prop) st :
  Q (dtypes (graph st) !! v) st -> wp (get_dtype v) Q st.
Proof. intros HQ. by exists (dtypes (graph st) !! v), st. Qed.

Lemma wp_make_name (base : string) (Q : string -> State -> Prop) st :
  Q (make_name_str base (S (counter st)))
    {| graph := graph st; counter := S (counter st); trace := trace st |} ->
  wp (make_name base) Q st.
Proof.
  intros HQ. eexists _, _. split; [|exact HQ].
  cbv [make_node make_const replace_all_inputs copy_dtype copy_shape remove_node
       bind make_name modify_graph log ret graph counter trace]. reflexivity.
Qed.

Section Rules.
Context `{ShapeInference}.

Lemma wp_make_node op inputs attrs cnt outs (Q : Node -> State -> Prop) st :
    (let nm := make_name_str op (S (counter st)) in
     let n := {| name := nm; op_type := op; input := inputs;
                 output := match outs with
                           | Some os => os
                           | None => default_outputs nm cnt
                           end;
                 attr := attrs |} in
     Q n {| graph := add_node n (graph st); counter := S (counter st);
            trace := trace st ++ [EvMakeNode n] |}) ->
    wp (make_node op inputs attrs cnt outs) Q st.
  Proof.
  intros HQ. eexists _, _. split; [|exact HQ].
  cbv [make_node make_const replace_all_inputs copy_dtype copy_shape remove_node
       bind make_name modify_graph log ret graph counter trace]. reflexivity.
Qed.
End Rules.

Lemma wp_make_const (nm : string) (t : ndarray) (Q : Node -> State -> Prop) st :
  (let n := {| name := nm; op_type := "Const"; input := [];
               output := [nm]; attr := [("value", AttrT t)] |} in
   Q n {| graph := add_const n t (graph st); counter := counter st;
          trace := trace st ++ [EvMakeConst n] |}) ->
  wp (make_const nm t) Q st.
Proof.
  intros HQ. eexists _, _. split; [|exact HQ].
  cbv [make_node make_const replace_all_inputs copy_dtype copy_shape remove_node
       bind make_name modify_graph log ret graph counter trace]. reflexivity.
Qed.

Lemma wp_replace_all_inputs old new (Q : unit -> State -> Prop) st :
  Q tt {| graph := replace_all_inputs_graph old new (graph st); counter := counter st;
          trace := trace st ++ [EvReplace old new] |} ->
  wp (replace_all_inputs old new) Q st.
Proof.
  intros HQ. eexists _, _. split; [|exact HQ].
  cbv [make_node make_const replace_all_inputs copy_dtype copy_shape remove_node
       bind make_name modify_graph log ret graph counter trace]. reflexivity.
Qed.

Lemma wp_copy_dtype old new (Q : unit -> State -> Prop) st :
  Q tt {| graph := copy_dtype_graph old new (graph st); counter := counter st;
          trace := trace st ++ [EvCopyDtype old new] |} ->
  wp (copy_dtype old new) Q st.
Proof.
  intros HQ. eexists _, _. split; [|exact HQ].
  cbv [make_node make_const replace_all_inputs copy_dtype copy_shape remove_node
       bind make_name modify_graph log ret graph counter trace]. reflexivity.
Qed.

Lemma wp_copy_shape old new (Q : unit -> State -> Prop) st :
  Q tt {| graph := copy_shape_graph old new (graph st); counter := counter st;
          trace := trace st ++ [EvCopyShape old new] |} ->
  wp (copy_shape old new) Q st.
Proof.
  intros HQ. eexists _, _. split; [|exact HQ].
  cbv [make_node make_const replace_all_inputs copy_dtype copy_shape remove_node
       bind make_name modify_graph log ret graph counter trace]. reflexivity.
Qed.

Lemma wp_remove_node nm (Q : unit -> State -> Prop) st :
  Q tt {| graph := remove_node_graph nm (graph st); counter := counter st;
          trace := trace st ++ [EvRemove nm] |} ->
  wp (remove_node nm) Q st.
Proof.
  intros HQ. eexists _, _. split; [|exact HQ].
  cbv [make_node make_const replace_all_inputs copy_dtype copy_shape remove_node
       bind make_name modify_graph log ret graph counter trace]. reflexivity.
Qed.

Lemma wp_replace_output `{ShapeInference} old new (Q : unit -> State -> Prop) st :
  Q tt {| graph := copy_shape_graph old new
                     (copy_dtype_graph old new
                        (replace_all_inputs_graph old new (graph st)));
          counter := counter st;
          trace := trace st ++ [EvReplace old new; EvCopyDtype old new; EvCopyShape old new] |} ->
  wp (LSTMBlockCell.replace_output old new) Q st.
Proof.
  intros HQ. eexists _, _. split.
  - cbv [LSTMBlockCell.replace_output replace_all_inputs copy_dtype copy_shape
         bind modify_graph log ret graph counter trace]. reflexivity.
  - by rewrite <- !app_assoc.
Qed.

Lemma wp_make_sure (b : bool) msg (Q : unit -> State -> Prop) st :
  b = true -> Q tt st -> wp (make_sure b msg) Q st.
Proof. intros -> HQ. by exists tt, st. Qed.

Lemma wp_np_array_int64 (l : list Z) (Q : ndarray -> State -> Prop) st :
  forallb in_int64 l = true ->
  Q {| np_dtype := np_int64; np_shape := [Z.of_nat (length l)];
       np_data := map (fun z => Fin (Qc_of_int z)) l |} st ->
  wp (np_array_int64 l) Q st.
Proof. intros Hl HQ. unfold np_array_int64. rewrite Hl. by apply wp_ret. Qed.

Lemma wp_np_zeros (n : Z) (d : numpy_dtype) (Q : ndarray -> State -> Prop) st :
  0 <= n ->
  Q {| np_dtype := d; np_shape := [n]; np_data := repeat (Fin (Q2Qc 0)) (Z.to_nat n) |} st ->
  wp (np_zeros n d) Q st.
Proof.
  intros Hn HQ. unfold np_zeros.
  destruct (Z.ltb_spec n 0); [lia|]. by apply wp_ret.
Qed.

(** ** Lookups in the graph context *)

Section Lookups.
Context `{ShapeInference}.

Lemma fold_set_opt_ne {V} (f : nat -> option V) (v : string)
      (slots : list (nat * string)) (m : gmap string V) :
    Forall (fun p => snd p <> v) slots ->
    fold_left (fun m p => set_opt m (snd p) (f (fst p))) slots m !! v = m !! v.
  Proof.
    revert m. induction slots as [|[k o] slots IH]; intros m Hne; simpl; [done|].
    inversion Hne as [|?? Ho Hrest]; subst. rewrite IH by done.
    unfold set_opt. destruct (f k); [|done]. by rewrite lookup_insert_ne.
  Qed.

Lemma slots_ne (v : string) (outs : list string) (k : nat) :
    Forall (fun o => o <> v) outs ->
    Forall (fun p : nat * string => snd p <> v) (combine (seq k (length outs)) outs).
  Proof.
    revert k. induction outs as [|o outs IH]; intros k Hne; simpl; [constructor|].
    inversion Hne; subst. constructor; [done|]. by apply IH.
  Qed.

Lemma shapes_add_node_ne (n : Node) (g : Graph) (v : string) :
    Forall (fun o => o <> v) (output n) ->
    shapes (add_node n g) !! v = shapes g !! v.
  Proof. intros Hne. unfold add_node; simpl. by apply fold_set_opt_ne, slots_ne. Qed.

Lemma dtypes_add_node_ne (n : Node) (g : Graph) (v : string) :
    Forall (fun o => o <> v) (output n) ->
    dtypes (add_node n g) !! v = dtypes g !! v.
  Proof. intros Hne. unfold add_node; simpl. by apply fold_set_opt_ne, slots_ne. Qed.

Lemma nodes_add_node (n : Node) (g : Graph) : nodes (add_node n g) = (nodes g ++ [n])%list.
  Proof. reflexivity. Qed.

Lemma opset_add_node (n : Node) (g : Graph) : opset (add_node n g) = opset g.
  Proof. reflexivity. Qed.
End Lookups.

Lemma fold_insert_ne {V} (x : V) (v : string) (outs : list string) (m : gmap string V) :
  Forall (fun o => o <> v) outs ->
  fold_left (fun m o => <[o := x]> m) outs m !! v = m !! v.
Proof.
  revert m. induction outs as [|o outs IH]; intros m Hne; simpl; [done|].
  inversion Hne; subst. rewrite IH by done. by rewrite lookup_insert_ne.
Qed.

Lemma shapes_add_const_ne (n : Node) (t : ndarray) (g : Graph) (v : string) :
  Forall (fun o => o <> v) (output n) ->
  shapes (add_const n t g) !! v = shapes g !! v.
Proof. intros Hne. unfold add_const; simpl. by apply fold_insert_ne. Qed.

Lemma dtypes_add_const_ne (n : Node) (t : ndarray) (g : Graph) (v : string) :
  Forall (fun o => o <> v) (output n) ->
  dtypes (add_const n t g) !! v = dtypes g !! v.
Proof. intros Hne. unfold add_const; simpl. by apply fold_insert_ne. Qed.

(** ** Rewiring *)

Lemma replace_input_id (old new : string) (n : Node) :
  Forall (fun i => i <> old) (input n) -> replace_input old new n = n.
Proof.
  intros Hne. destruct n as [nm op ins outs attrs]; unfold replace_input; simpl in *.
  f_equal. induction ins as [|i ins IH]; simpl; [done|].
  inversion Hne as [|?? Hi Hrest]; subst. rewrite IH by done.
  destruct (String.eqb_spec i old); [done|done].
Qed.

Lemma replace_all_id (old new : string) (ns : list Node) :
  Forall (fun n => Forall (fun i => i <> old) (input n)) ns ->
  map (replace_input old new) ns = ns.
Proof.
  induction 1 as [|n ns Hn _ IH]; simpl; [done|].
  by rewrite replace_input_id, IH.
Qed.

(** ** Denotation *)

Lemma find_slot_here (v : string) (outs : list string) :
  find_slot v (v :: outs) = Some 0%nat.
Proof. simpl. by rewrite String.eqb_refl. Qed.

Lemma find_slot_skip (v o : string) (outs : list string) (k : nat) :
  o <> v -> find_slot v outs = Some k -> find_slot v (o :: outs) = Some (S k).
Proof.
  intros Hne Hk. simpl. destruct (String.eqb_spec o v); [done|]. by rewrite Hk.
Qed.

Lemma find_slot_none (v : string) (outs : list string) :
  Forall (fun o => o <> v) outs -> find_slot v outs = None.
Proof.
  induction 1 as [|o outs Ho _ IH]; simpl; [done|].
  destruct (String.eqb_spec o v); [done|]. by rewrite IH.
Qed.

Lemma producer_hit (n : Node) (ns : list Node) (v : string) (k : nat) :
  find_slot v (output n) = Some k -> producer (n :: ns) v = Some (n, k).
Proof. intros Hk. simpl. by rewrite Hk. Qed.

Lemma producer_skip (n : Node) (ns : list Node) (v : string) r :
  Forall (fun o => o <> v) (output n) -> producer ns v = r -> producer (n :: ns) v = r.
Proof. intros Hne Hr. simpl. by rewrite find_slot_none. Qed.

Lemma existsb_eqb_false (v : string) (L : list string) :
  Forall (fun l => v <> l) L -> existsb (String.eqb v) L = false.
Proof.
  induction 1 as [|l L Hl _ IH]; simpl; [done|].
  destruct (String.eqb_spec v l); [done|done].
Qed.

Lemma existsb_eqb_true (v : string) (L : list string) :
  In v L -> existsb (String.eqb v) L = true.
Proof.
  intros Hin. apply existsb_exists. exists v. split; [done|apply String.eqb_refl].
Qed.

Lemma mapM_denote_mono (f : string -> option term) (g : string -> option term)
    (l : list string) (ts : list term) :
  (forall v t, f v = Some t -> g v = Some t) ->
  mapM f l = Some ts -> mapM g l = Some ts.
Proof.
  intros Hfg. rewrite !mapM_Some. intros Hl.
  eapply Forall2_impl; [|exact Hl]. simpl. auto.
Qed.

Lemma denote_mono (fuel fuel' : nat) ns L v t :
  (fuel <= fuel')%nat -> denote fuel ns L v = Some t -> denote fuel' ns L v = Some t.
Proof.
  revert fuel' v t. induction fuel as [|fuel IH]; intros fuel' v t Hle; [done|].
  destruct fuel' as [|fuel']; [lia|]. simpl.
  destruct (existsb (String.eqb v) L); [done|].
  destruct (producer ns v) as [[n k]|]; [|done].
  destruct (mapM (denote fuel ns L) (input n)) as [args|] eqn:Hargs; [|done].
  intros Heq. erewrite mapM_denote_mono; [exact Heq| |exact Hargs].
  intros v' t'. apply IH. lia.
Qed.

Lemma denotes_leaf ns L v : In v L -> denotes ns L v (Leaf v).
Proof. intros Hin. exists 1%nat. simpl. by rewrite existsb_eqb_true. Qed.

Lemma Forall2_denotes_fuel ns L (ins : list string) (args : list term) :
  Forall2 (denotes ns L) ins args ->
  exists fuel, mapM (denote fuel ns L) ins = Some args.
Proof.
  induction 1 as [|i t ins args [f Hf] _ [f' IH]].
  - by exists 0%nat.
  - exists (f `max` f')%nat. rewrite mapM_Some. constructor.
    + eapply denote_mono; [|exact Hf]. lia.
    + rewrite mapM_Some in IH. eapply Forall2_impl; [|exact IH]. simpl.
      intros v t'. apply denote_mono. lia.
Qed.

Lemma denotes_node ns L v n k args t :
  Forall (fun l => v <> l) L ->
  producer ns v = Some (n, k) ->
  Forall2 (denotes ns L) (input n) args ->
  t = App (op_type n) (attr n) args k ->
  denotes ns L v t.
Proof.
  intros HL Hp Hargs ->. destruct (Forall2_denotes_fuel _ _ _ _ Hargs) as [f Hf].
  exists (S f). simpl. by rewrite existsb_eqb_false, Hp, Hf.
Qed.

Lemma denotes_eq ns L v t t' : denotes ns L v t' -> t' = t -> denotes ns L v t.
Proof. by intros ? <-. Qed.

(** ** Distinct names, one case at a time *)

Lemma out_out_neq b b' n n' k k' :
  n <> n' \/ k <> k' ->
  out_name (make_name_str b n) k <> out_name (make_name_str b' n') k'.
Proof.
  intros Hne. apply (gen_neq b b' n n' (Some k) (Some k')).
  destruct Hne; [by left|right; congruence].
Qed.

Lemma out_name_neq b b' n n' k :
  out_name (make_name_str b n) k <> make_name_str b' n'.
Proof. apply (gen_neq b b' n n' (Some k) None). by right. Qed.

Lemma name_out_neq b b' n n' k :
  make_name_str b n <> out_name (make_name_str b' n') k.
Proof. apply (gen_neq b b' n n' None (Some k)). by right. Qed.

Lemma name_name_neq b b' n n' :
  n <> n' -> make_name_str b n <> make_name_str b' n'.
Proof. intros Hne. apply (gen_neq b b' n n' None None). by left. Qed.

Lemma fresh_out_l c v b n k :
  fresh_from c v -> (c < n)%nat -> v <> out_name (make_name_str b n) k.
Proof. intros Hv Hlt. by apply (Hv b n (Some k)). Qed.

Lemma fresh_out_r c v b n k :
  fresh_from c v -> (c < n)%nat -> out_name (make_name_str b n) k <> v.
Proof. intros Hv Hlt Heq. by apply (Hv b n (Some k)). Qed.

Lemma fresh_name_l c v b n :
  fresh_from c v -> (c < n)%nat -> v <> make_name_str b n.
Proof. intros Hv Hlt. by apply (Hv b n None). Qed.

Lemma fresh_name_r c v b n :
  fresh_from c v -> (c < n)%nat -> make_name_str b n <> v.
Proof. intros Hv Hlt Heq. by apply (Hv b n None). Qed.

Lemma opset_add_const n t g : opset (add_const n t g) = opset g.
Proof. reflexivity. Qed.

Lemma dtypes_add_node_hit `{ShapeInference} n g o d :
  output n = [o] -> infer_dtype g n 0 = Some d -> dtypes (add_node n g) !! o = Some d.
Proof.
  intros Ho Hd. unfold add_node; simpl. rewrite Ho; simpl. rewrite Hd; simpl.
  apply lookup_insert_eq.
Qed.

Lemma map_onnx_to_numpy_type_ok (d : onnx_dtype) :
  d <> STRING -> exists nd, map_onnx_to_numpy_type (Some d) = ret nd.
Proof. destruct d; intros Hd; try done; by eexists. Qed.

Lemma wp_map_onnx_to_numpy_type d nd (Q : numpy_dtype -> State -> Prop) st :
  map_onnx_to_numpy_type (Some d) = ret nd -> Q nd st ->
  wp (map_onnx_to_numpy_type (Some d)) Q st.
Proof. intros -> HQ. by apply wp_ret. Qed.

Lemma app_snoc_cons {A} (l : list A) (x : A) (r : list A) :
  ((l ++ [x]) ++ r = l ++ x :: r)%list.
Proof. by rewrite <- app_assoc. Qed.

Lemma drop_old {A} (l l' r : list A) :
  length l' = length l -> drop (length l) (l' ++ r) = r.
Proof. intros <-. by rewrite drop_app_length. Qed.

Lemma dtypes_copy_dtype_ne old new g v :
  new <> v -> dtypes (copy_dtype_graph old new g) !! v = dtypes g !! v.
Proof.
  intros Hne. unfold copy_dtype_graph, set_opt; simpl.
  destruct (dtypes g !! old); [|done]. by rewrite lookup_insert_ne.
Qed.

Lemma dtypes_copy_shape old new g : dtypes (copy_shape_graph old new g) = dtypes g.
Proof. reflexivity. Qed.

Lemma dtypes_replace old new g : dtypes (replace_all_inputs_graph old new g) = dtypes g.
Proof. reflexivity. Qed.

Lemma nodes_add_const n t g : nodes (add_const n t g) = (nodes g ++ [n])%list.
Proof. reflexivity. Qed.

Lemma nodes_replace old new g :
  nodes (replace_all_inputs_graph old new g) = map (replace_input old new) (nodes g).
Proof. reflexivity. Qed.

Lemma nodes_copy_dtype old new g : nodes (copy_dtype_graph old new g) = nodes g.
Proof. reflexivity. Qed.

Lemma nodes_copy_shape old new g : nodes (copy_shape_graph old new g) = nodes g.
Proof. reflexivity. Qed.

Lemma nodes_remove nm g :
  nodes (remove_node_graph nm g) = filter (fun n => name n <> nm) (nodes g).
Proof. reflexivity. Qed.

Lemma opset_replace old new g : opset (replace_all_inputs_graph old new g) = opset g.
Proof. reflexivity. Qed.

Lemma opset_copy_dtype old new g : opset (copy_dtype_graph old new g) = opset g.
Proof. reflexivity. Qed.

Lemma opset_copy_shape old new g : opset (copy_shape_graph old new g) = opset g.
Proof. reflexivity. Qed.

Create Rewrite HintDb graph_nodes.
#[export] Hint Rewrite @nodes_add_node nodes_add_const nodes_replace
  nodes_copy_dtype nodes_copy_shape : graph_nodes.

Create Rewrite HintDb graph_opset.
#[export] Hint Rewrite @opset_add_node opset_add_const opset_replace
  opset_copy_dtype opset_copy_shape : graph_opset.

Opaque out_name make_name_str.

Ltac solve_neq :=
  match goal with
  | |- out_name (make_name_str _ _) _ <> out_name (make_name_str _ _) _ =>
    apply out_out_neq; first [left; lia | right; lia]
  | |- out_name (make_name_str _ _) _ <> make_name_str _ _ => apply out_name_neq
  | |- make_name_str _ _ <> out_name (make_name_str _ _) _ => apply name_out_neq
  | |- make_name_str _ _ <> make_name_str _ _ => apply name_name_neq; lia
  | Hf : fresh_from _ ?v |- ?v <> out_name (make_name_str _ _) _ =>
    apply (fresh_out_l _ _ _ _ _ Hf); lia
  | Hf : fresh_from _ ?v |- out_name (make_name_str _ _) _ <> ?v =>
    apply (fresh_out_r _ _ _ _ _ Hf); lia
  | Hf : fresh_from _ ?v |- ?v <> make_name_str _ _ =>
    apply (fresh_name_l _ _ _ _ Hf); lia
  | Hf : fresh_from _ ?v |- make_name_str _ _ <> ?v =>
    apply (fresh_name_r _ _ _ _ Hf); lia
  | Hd : forall v, In v _ -> ~ In v _ |- ?a <> ?b =>
    first [ intros ->; apply (Hd b); simpl; tauto
          | intros <-; apply (Hd a); simpl; tauto ]
  end.

Ltac solve_neqs :=
  repeat (apply List.Forall_cons; [solve_neq|]); apply List.Forall_nil.

Ltac wp_simpl :=
  cbn [counter graph trace index nth_error output input name attr op_type
       default_outputs map seq length repeat negb Nat.eqb fst snd].

Ltac wp_step :=
  lazymatch goal with
  | |- wp (bind _ _) _ _ => apply wp_bind
  | |- wp (ret _) _ _ => apply wp_ret
  | |- wp (make_node _ _ _ _ _) _ _ => apply wp_make_node; cbv zeta
  | |- wp (make_const _ _) _ _ => apply wp_make_const; cbv zeta
  | |- wp (make_name _) _ _ => apply wp_make_name
  | |- wp get_graph _ _ => apply wp_get_graph
  | |- wp (get_shape _) _ _ => apply wp_get_shape
  | |- wp (get_dtype _) _ _ => apply wp_get_dtype
  | |- wp (LSTMBlockCell.replace_output _ _) _ _ => apply wp_replace_output
  | |- wp (LSTMBlockCell.make_sigmoid _ _ _) _ _ => unfold LSTMBlockCell.make_sigmoid
  | |- wp (np_zeros _ _) _ _ => apply wp_np_zeros; [apply Z.quot_pos; lia|]
  | |- wp (remove_node _) _ _ => apply wp_remove_node
  end; wp_simpl.

(** The producer of a value in an explicit list of nodes. *)
Ltac solve_find_slot :=
  first [ apply find_slot_here
        | apply find_slot_skip; [solve_neq | solve_find_slot] ].

Ltac solve_producer :=
  first [ apply producer_hit; cbn [output default_outputs map seq]; solve_find_slot
        | apply producer_skip;
          [cbn [output default_outputs map seq]; solve_neqs | solve_producer] ].

(** The denotation of a value, from the denotations of its inputs that are
    already among the hypotheses. *)
Ltac solve_denotes :=
  lazymatch goal with
  | H : denotes ?ns ?L ?v _ |- denotes ?ns ?L ?v _ => exact H
  | |- denotes _ _ ?v _ =>
    first [ is_var v; apply denotes_leaf; simpl; tauto
          | eapply denotes_node;
            [ solve_neqs
            | solve_producer
            | cbn [input]; repeat (eapply Forall2_cons; [solve_denotes|]); apply Forall2_nil
            | cbn [op_type attr]; reflexivity ] ]
  end.

(** Record the denotation of every output of the nodes [ns]. *)
Ltac denote_outputs NEW L outs :=
  lazymatch outs with
  | [] => idtac
  | ?o :: ?rest =>
    let H := fresh "Hden" in
    eassert (denotes NEW L o _) as H by solve_denotes;
    denote_outputs NEW L rest
  end.

Ltac denote_nodes NEW L ns :=
  lazymatch ns with
  | [] => idtac
  | ?n :: ?rest =>
    let outs := eval cbn [output default_outputs map seq] in (output n) in
    denote_outputs NEW L outs;
    denote_nodes NEW L rest
  end.

Section Cell.
Context `{ShapeInference}.

Lemma version_1_lowers st node x cs_prev h_prev w wci wcf wco b
    o0 o1 o2 o3 o4 o5 o6 afb acc aup r cols :
  input node = [x; cs_prev; h_prev; w; wci; wcf; wco; b] ->
  output node = [o0; o1; o2; o3; o4; o5; o6] ->
  assoc "forget_bias" (attr node) = Some afb ->
  assoc "cell_clip" (attr node) = Some acc ->
  assoc "use_peephole" (attr node) = Some aup ->
  shapes (graph st) !! w = Some [r; cols] ->
  cols mod 4 = 0 -> 0 <= cols ->
  Forall (fresh_from (counter st)) (input node) ->
  Forall (fresh_from (counter st)) (output node) ->
  (forall v, In v (input node) -> ~ In v (output node)) ->
  ((Q2Qc 0 < attr_f acc)%Qc -> 11 <= opset (graph st) ->
     forall g n, op_type n = "Add" -> exists d, infer_dtype g n 0 = Some d /\ d <> STRING) ->
  wp (LSTMBlockCell.version_1 node)
     (fun _ st' => exists d cs_raw,
        lowered_cell st (input node) (output node) x cs_prev h_prev w wci wcf wco b
          (attr_f afb) (attr_f acc) (negb (attr_i aup =? 0)) (int_div cols 4)
          d cs_raw st') st.
Proof.
  intros Hin Hout Hfb Hcc Hup Hw Hmod Hnn Hfi Hfo Hdisj Hinf.
  unfold LSTMBlockCell.version_1. rewrite Hin in *. rewrite Hout in *.
  repeat (apply Forall_cons_iff in Hfi as [? Hfi]).
  repeat (apply Forall_cons_iff in Hfo as [? Hfo]).
  apply wp_bind. eapply wp_get_attr; [exact Hfb|].
  apply wp_bind. eapply wp_get_attr; [exact Hcc|].
  apply wp_bind. eapply wp_get_attr; [exact Hup|].
  repeat wp_step.
  rewrite !shapes_add_node_ne by (wp_simpl; solve_neqs).
  rewrite Hw. cbn [len_shape]. repeat wp_step.
  rewrite Hmod. cbn [Z.eqb negb].
  repeat wp_step.
  destruct (attr_i aup =? 0) eqn:Hpeep; cbn [negb]; repeat wp_step.
  all: unfold LSTMBlockCell.clip_cs.
  all: destruct (bool_decide (Q2Qc 0 < attr_f acc)%Qc) eqn:Hclip; repeat wp_step.
  all: repeat (rewrite opset_add_node || rewrite opset_add_const).
  all: try match goal with
       | |- context [opset (graph ?s) <? 11] =>
         destruct (opset (graph s) <? 11) eqn:Hops; repeat wp_step
       end.
  all: try match goal with
       | |- context [dtypes (add_node ?n ?g) !! _] =>
         let d := fresh "d" in let Hd := fresh "Hd" in let Hns := fresh "Hns" in
         let nd := fresh "nd" in let Hnd := fresh "Hnd" in
         destruct (Hinf ltac:(by apply bool_decide_eq_true in Hclip)
                        ltac:(by apply Z.ltb_ge in Hops) g n eq_refl) as (d & Hd & Hns);
         rewrite (dtypes_add_node_hit n g _ d eq_refl Hd);
         destruct (map_onnx_to_numpy_type_ok d Hns) as [nd Hnd];
         eapply wp_map_onnx_to_numpy_type; [exact Hnd|]
       end.
  all: repeat wp_step.
  all: match goal with
       | |- exists d cs_raw, lowered_cell _ _ _ _ _ _ _ _ _ _ _ _ _ _ _ d cs_raw ?s =>
         set (st' := s)
       end.
  all: pose proof (eq_refl (nodes (graph st'))) as Hnodes;
       unfold st' at 2 in Hnodes; cbn [graph] in Hnodes;
       autorewrite with graph_nodes in Hnodes;
       rewrite !app_snoc_cons in Hnodes;
       repeat match type of Hnodes with
              | context [map (replace_input ?o ?v) (?old ++ ?new)] =>
                rewrite (map_app (replace_input o v) old new),
                        (replace_all_id o v new) in Hnodes
                  by (repeat (apply List.Forall_cons; [cbn [input]; solve_neqs|]);
                      apply List.Forall_nil)
              end.
  all: eassert (new_nodes st st' = _) as Hnew
         by (unfold new_nodes; rewrite Hnodes; apply drop_old;
             by rewrite !length_map).
  all: eassert (new_events st st' = _) as Hev
         by (unfold new_events, st'; cbn [trace]; rewrite <- !app_assoc; cbn [app];
             apply drop_app_length).
  all: match type of Hnew with
       | _ = ?NEW => denote_nodes NEW [x; cs_prev; h_prev; w; wci; wcf; wco; b] NEW
       end.
  all: let cs := lazymatch type of Hev with
                 | context [EvMakeNode {| name := _; op_type := "Clip"; input := ?c :: _;
                                          output := _; attr := _ |}] => c
                 | _ = ?evs =>
                   let r := eval cbn [rewirings omap list_omap] in (rewirings evs) in
                   lazymatch r with _ :: (_, ?v) :: _ => v end
                 end in
       let d := lazymatch goal with
                | Hnd : map_onnx_to_numpy_type _ = ret ?nd |- _ => nd
                | _ => constr:(np_float32)
                end in
       exists d, cs.
  all: split.
  all: try rewrite Hnodes.
  all: rewrite ?Hnew, ?Hev.
  all: cbv [ClosedForm.outputs ClosedForm.in_gate ClosedForm.cell_state ClosedForm.forget
            ClosedForm.out_gate ClosedForm.cell_input ClosedForm.cell_tanh ClosedForm.hidden
            ClosedForm.cell_state_unclamped ClosedForm.clamp ClosedForm.clamp_attributes
            ClosedForm.clamp_inputs ClosedForm.peephole_in ClosedForm.peephole_forget
            ClosedForm.peephole_out ClosedForm.in_gate_pre ClosedForm.cellin_pre
            ClosedForm.forget_pre ClosedForm.forget_pre' ClosedForm.out_gate_pre
            ClosedForm.gate_pre ClosedForm.gates ClosedForm.concat ClosedForm.zero_vector
            ClosedForm.const ClosedForm.add ClosedForm.mul ClosedForm.sigmoid
            ClosedForm.tanh].
  all: rewrite ?Hclip, ?Hops.
  all: lazymatch goal with
       | |- Forall2 _ _ _ =>
         cbn [rewirings omap list_omap map snd];
         repeat (apply Forall2_cons; [eapply denotes_eq; [solve_denotes|reflexivity]|]);
         apply Forall2_nil
       | |- denotes _ _ _ _ => eapply denotes_eq; [solve_denotes|reflexivity]
       | |- (map (replace_input _ _) _ ++ _)%list = _ =>
         cbn [rewirings omap list_omap]; rewrite !map_map; reflexivity
       | |- opset _ = _ =>
         unfold st'; cbn [graph]; autorewrite with graph_opset; reflexivity
       | |- _ -> _ =>
         cbn [andb negb]; intros Hc; try discriminate;
         match goal with
         | Hd : infer_dtype _ _ _ = Some ?d |- _ =>
           match type of Hd with
           | infer_dtype ?g ?n _ = _ => exists d, g, n
           end;
           split; [reflexivity|]; split; [exact Hd|]; split; [|assumption];
           unfold st'; cbn [graph];
           repeat first
             [ rewrite dtypes_copy_shape
             | rewrite dtypes_replace
             | rewrite dtypes_copy_dtype_ne by solve_neq
             | rewrite dtypes_add_node_ne
                 by (cbn [output default_outputs map seq]; solve_neqs)
             | rewrite dtypes_add_const_ne
                 by (cbn [output default_outputs map seq]; solve_neqs) ];
           eapply dtypes_add_node_hit; [reflexivity|exact Hd]
         end
       | |- _ => try reflexivity
       end.
Qed.
End Cell.

(** ** The cell lowering on a well-formed call *)

Lemma wp_run {A} (c : M A) (Q : A -> State -> Prop) st :
  wp c Q st -> exists a st', c st = (Ok a, st') /\ Q a st'.
Proof. done. Qed.

Lemma disjointb_sound (ins outs : list string) :
  disjointb ins outs = true -> forall v, In v ins -> ~ In v outs.
Proof.
  unfold disjointb. rewrite forallb_forall. intros Hall v Hin Hout.
  apply Hall in Hin. apply negb_true_iff in Hin.
  rewrite existsb_eqb_true in Hin; done.
Qed.

Lemma combine_fst_snd {A B} (l : list (A * B)) :
  combine (map fst l) (map snd l) = l.
Proof. induction l as [|[a b] l IH]; simpl; [done|]. by rewrite IH. Qed.

Section CellCall.
Context `{ShapeInference}.

Lemma cell_call_lowers st node x cs_prev h_prev w wci wcf wco b fb cc up hs :
  cell_call st node x cs_prev h_prev w wci wcf wco b fb cc up hs ->
  wp (LSTMBlockCell.version_1 node)
     (fun _ st' => exists d cs_raw,
        lowered_cell st (input node) (output node) x cs_prev h_prev w wci wcf wco b
          fb cc up hs d cs_raw st') st.
Proof.
  intros [Hin Hout Hfb Hcc Hup (rows & cols & Hw & Hmod & Hnn & ->) Hfi Hfo Hdisj Hinf].
  destruct (output node) as [|o0 [|o1 [|o2 [|o3 [|o4 [|o5 [|o6 [|]]]]]]]] eqn:Houts;
    try discriminate.
  destruct (assoc "forget_bias" (attr node)) as [afb|] eqn:Hafb; [|discriminate].
  destruct (assoc "cell_clip" (attr node)) as [acc|] eqn:Hacc; [|discriminate].
  destruct (assoc "use_peephole" (attr node)) as [aup|] eqn:Haup; [|discriminate].
  simpl in Hfb, Hcc, Hup. injection Hfb as <-. injection Hcc as <-. injection Hup as <-.
  rewrite <- Houts.
  eapply version_1_lowers; eauto; by rewrite Houts.
Qed.

End CellCall.

(** The calls on the example cells are well-formed. *)
Lemma lstm_node_call (n : Node) (fb cc : Qc) (upz rows cols ops : Z) :
  cols mod 4 = 0 -> 0 <= cols ->
  @cell_call float_inference (lstm_state n rows cols ops) (lstm_node fb cc upz)
    "x" "cs" "hp" "w" "wci" "wcf" "wco" "b" fb cc (negb (upz =? 0)) (int_div cols 4).
Proof.
  intros Hmod Hnn. split.
  - reflexivity.
  - reflexivity.
  - reflexivity.
  - reflexivity.
  - reflexivity.
  - exists rows, cols. repeat split; first [done | apply lookup_insert].
  - repeat (apply List.Forall_cons; [by apply no_underscore_fresh|]). apply List.Forall_nil.
  - repeat (apply List.Forall_cons; [by apply no_underscore_fresh|]). apply List.Forall_nil.
  - by apply disjointb_sound.
  - intros _ _ g m _. exists FLOAT. by split.
Qed.

Lemma example_cell_call :
  @cell_call float_inference example_state example_cell
    "x" "cs" "hp" "w" "wci" "wcf" "wco" "b" (Q2Qc 1) (Q2Qc (3 # 2)) false 2.
Proof. by apply (lstm_node_call _ (Q2Qc 1) (Q2Qc (3 # 2)) 0 5 8 11). Qed.

Section CellRun.
Context `{ShapeInference}.

Lemma cell_call_run st node x cs_prev h_prev w wci wcf wco b fb cc up hs :
  cell_call st node x cs_prev h_prev w wci wcf wco b fb cc up hs ->
  exists st' d cs_raw,
    LSTMBlockCell.version_1 node st = (Ok tt, st') /\
    lowered_cell st (input node) (output node) x cs_prev h_prev w wci wcf wco b
      fb cc up hs d cs_raw st'.
Proof.
  intros Hcall.
  destruct (cell_call_lowers _ _ _ _ _ _ _ _ _ _ _ _ _ _ Hcall)
    as ([] & st' & Hrun & d & cs & Hl).
  by exists st', d, cs.
Qed.

End CellRun.

(** ** C1: the seven rewired values and the closed form *)



(** ** C10: the element types of the synthesized constants *)

(** C10: whatever element types the graph records for the cell's inputs,
    the constants a run creates are, in order: the forget bias as a float32
    scalar; with the peephole off, the float32 zero vector; and, on the
    constant-input clamp path only, the two bounds in the numpy type of the
    element type recorded for the unclamped cell state. *)
Theorem cell_constant_dtypes `{ShapeInference}
    st node x cs_prev h_prev w wci wcf wco b fb cc up hs :
  cell_call st node x cs_prev h_prev w wci wcf wco b fb cc up hs ->
  exists st' d cs_raw,
    LSTMBlockCell.version_1 node st = (Ok tt, st') /\
    map const_tensor (constants (new_events st st')) =
      ([Some {| np_dtype := np_float32; np_shape := []; np_data := [Fin fb] |}] ++
       (if up then []
        else [Some {| np_dtype := np_float32; np_shape := [hs];
                      np_data := repeat (Fin (Q2Qc 0)) (Z.to_nat hs) |}]) ++
       (if bool_decide (Q2Qc 0 < cc)%Qc && negb (opset (graph st) <? 11)
        then [Some (np_array_scalar (- cc)%Qc d); Some (np_array_scalar cc d)]
        else []))%list /\
    denotes (new_nodes st st') (input node) cs_raw
      (ClosedForm.cell_state_unclamped (Leaf x) (Leaf cs_prev) (Leaf h_prev) (Leaf w)
         (Leaf wci) (Leaf wcf) (Leaf b) hs fb up) /\
    (bool_decide (Q2Qc 0 < cc)%Qc && negb (opset (graph st) <? 11) = true ->
     exists dd, dtypes (graph st') !! cs_raw = Some dd /\
                map_onnx_to_numpy_type (Some dd) = ret d).
Proof.
  intros Hcall.
  destruct (cell_call_run _ _ _ _ _ _ _ _ _ _ _ _ _ _ Hcall)
    as (st' & d & cs & Hrun & Hl).
  exists st', d, cs. split; [done|]. split; [|split].
  - exact (lc_constants _ _ _ _ _ _ _ _ _ _ _ _ _ _ _ _ _ _ Hl).
  - exact (lc_cs_raw _ _ _ _ _ _ _ _ _ _ _ _ _ _ _ _ _ _ Hl).
  - intros Hc.
    destruct (lc_cell_dtype _ _ _ _ _ _ _ _ _ _ _ _ _ _ _ _ _ _ Hl Hc)
      as (dd & g & n & _ & _ & Hdt & Hmap).
    by exists dd.
Qed.

Lemma cell_constant_dtypes_witness :
  exists st' d cs_raw,
    @LSTMBlockCell.version_1 float_inference example_cell example_state = (Ok tt, st') /\
    map const_tensor (constants (new_events example_state st')) =
      ([Some {| np_dtype := np_float32; np_shape := []; np_data := [Fin (Q2Qc 1)] |}] ++
       [Some {| np_dtype := np_float32; np_shape := [2];
                np_data := repeat (Fin (Q2Qc 0)) (Z.to_nat 2) |}] ++
       [Some (np_array_scalar (- Q2Qc (3 # 2))%Qc d);
        Some (np_array_scalar (Q2Qc (3 # 2)) d)])%list /\
    denotes (new_nodes example_state st') (input example_cell) cs_raw
      (ClosedForm.cell_state_unclamped (Leaf "x") (Leaf "cs") (Leaf "hp") (Leaf "w")
         (Leaf "wci") (Leaf "wcf") (Leaf "b") 2 (Q2Qc 1) false) /\
    (true = true ->
     exists dd, dtypes (graph st') !! cs_raw = Some dd /\
                map_onnx_to_numpy_type (Some dd) = ret d).
Proof.
  exact (@cell_constant_dtypes float_inference _ _ _ _ _ _ _ _ _ _ _ _ _ _
           example_cell_call).
Defined.

(** ** C9: the output-rewiring step *)

Lemma replace_input_twice old new n :
  replace_input old new (replace_input old new n) = replace_input old new n.
Proof.
  unfold replace_input; cbn [name op_type input output attr]. f_equal.
  rewrite map_map. apply map_ext. intros i.
  destruct (String.eqb i old) eqn:Hi; [|by rewrite Hi].
  destruct (String.eqb new old) eqn:Hn; [|done].
  by apply String.eqb_eq in Hn.
Qed.

Lemma set_opt_twice {V} (m : gmap string V) old new :
  set_opt (set_opt m new (m !! old)) new (set_opt m new (m !! old) !! old)
  = set_opt m new (m !! old).
Proof.
  destruct (m !! old) as [v|] eqn:Hold; cbn [set_opt]; [|by rewrite Hold].
  destruct (decide (old = new)) as [->|Hne].
  - rewrite lookup_insert_eq. cbn [set_opt]. apply insert_insert_eq.
  - rewrite lookup_insert_ne by done. rewrite Hold. cbn [set_opt].
    apply insert_insert_eq.
Qed.

Lemma replace_output_graph_twice old new g :
  replace_output_graph old new (replace_output_graph old new g)
  = replace_output_graph old new g.
Proof.
  unfold replace_output_graph, copy_shape_graph, copy_dtype_graph,
    replace_all_inputs_graph; cbn [nodes dtypes shapes opset].
  f_equal.
  - rewrite map_map. apply map_ext, replace_input_twice.
  - apply set_opt_twice.
  - apply set_opt_twice.
Qed.

Lemma replace_input_lookup old new n k i :
  input n !! k = Some i ->
  input (replace_input old new n) !! k = Some (if String.eqb i old then new else i).
Proof. intros Hk. cbn [replace_input input]. by rewrite list_lookup_fmap, Hk. Qed.

Lemma replace_output_run `{ShapeInference} old new s :
  LSTMBlockCell.replace_output old new s =
  (Ok tt, {| graph := replace_output_graph old new (graph s); counter := counter s;
             trace := trace s ++ rewire_events (old, new) |}).
Proof.
  cbv [LSTMBlockCell.replace_output replace_all_inputs copy_dtype copy_shape
       bind modify_graph log ret graph counter trace rewire_events fst snd
       replace_output_graph].
  by rewrite <- !app_assoc.
Qed.

(** C9: one call of the rewiring step replaces the old reference by the
    new one at every position of every node's input list, keeping the
    order and the other inputs, copies the old reference's recorded element
    type and shape onto the new reference, and a second identical call
    leaves the graph as the first one left it; a run of the cell lowering
    makes its creations first and then exactly one such call for each of
    the seven outputs, in order. *)
Theorem replace_output_rewires `{ShapeInference}
    st node x cs_prev h_prev w wci wcf wco b fb cc up hs :
  cell_call st node x cs_prev h_prev w wci wcf wco b fb cc up hs ->
  (forall old new s,
     exists s',
       LSTMBlockCell.replace_output old new s = (Ok tt, s') /\
       nodes (graph s') = map (replace_input old new) (nodes (graph s)) /\
       (forall n,
          name (replace_input old new n) = name n /\
          op_type (replace_input old new n) = op_type n /\
          output (replace_input old new n) = output n /\
          attr (replace_input old new n) = attr n /\
          length (input (replace_input old new n)) = length (input n) /\
          forall k i, input n !! k = Some i ->
                      input (replace_input old new n) !! k
                      = Some (if String.eqb i old then new else i)) /\
       (forall d, dtypes (graph s) !! old = Some d -> dtypes (graph s') !! new = Some d) /\
       (forall sh, shapes (graph s) !! old = Some sh -> shapes (graph s') !! new = Some sh) /\
       exists s'', LSTMBlockCell.replace_output old new s' = (Ok tt, s'') /\
                   graph s'' = graph s') /\
  exists st' vs,
    LSTMBlockCell.version_1 node st = (Ok tt, st') /\
    length vs = 7%nat /\
    new_events st st' =
      (creations (new_events st st') ++
       flat_map rewire_events (combine (output node) vs))%list.
Proof.
  intros Hcall. split.
  - intros old new s. eexists. split; [apply replace_output_run|].
    cbn [graph]. split; [done|]. split; [|split; [|split]].
    + intros n. repeat split; try done.
      * cbn [replace_input input]. by rewrite length_map.
      * intros k i. apply replace_input_lookup.
    + intros d Hd. cbn [replace_output_graph copy_shape_graph copy_dtype_graph
                        replace_all_inputs_graph dtypes].
      rewrite Hd. cbn [set_opt]. apply lookup_insert_eq.
    + intros sh Hs. cbn [replace_output_graph copy_shape_graph copy_dtype_graph
                         replace_all_inputs_graph shapes].
      rewrite Hs. cbn [set_opt]. apply lookup_insert_eq.
    + eexists. split; [apply replace_output_run|].
      cbn [graph]. apply replace_output_graph_twice.
  - destruct (cell_call_run _ _ _ _ _ _ _ _ _ _ _ _ _ _ Hcall)
      as (st' & d & cs & Hrun & Hl).
    exists st', (map snd (rewirings (new_events st st'))).
    split; [done|]. split.
    + pose proof (lc_denotes _ _ _ _ _ _ _ _ _ _ _ _ _ _ _ _ _ _ Hl) as Hd.
      apply Forall2_length in Hd. by rewrite Hd.
    + rewrite <- (lc_rewired _ _ _ _ _ _ _ _ _ _ _ _ _ _ _ _ _ _ Hl) at 1.
      rewrite combine_fst_snd.
      exact (lc_history _ _ _ _ _ _ _ _ _ _ _ _ _ _ _ _ _ _ Hl).
Qed.

Lemma replace_output_rewires_witness :
  (forall old new s,
     exists s',
       @LSTMBlockCell.replace_output old new s = (Ok tt, s') /\
       nodes (graph s') = map (replace_input old new) (nodes (graph s)) /\
       (forall n,
          name (replace_input old new n) = name n /\
          op_type (replace_input old new n) = op_type n /\
          output (replace_input old new n) = output n /\
          attr (replace_input old new n) = attr n /\
          length (input (replace_input old new n)) = length (input n) /\
          forall k i, input n !! k = Some i ->
                      input (replace_input old new n) !! k
                      = Some (if String.eqb i old then new else i)) /\
       (forall d, dtypes (graph s) !! old = Some d -> dtypes (graph s') !! new = Some d) /\
       (forall sh, shapes (graph s) !! old = Some sh -> shapes (graph s') !! new = Some sh) /\
       exists s'', @LSTMBlockCell.replace_output old new s' = (Ok tt, s'') /\
                   graph s'' = graph s') /\
  exists st' vs,
    @LSTMBlockCell.version_1 float_inference example_cell example_state = (Ok tt, st') /\
    length vs = 7%nat /\
    new_events example_state st' =
      (creations (new_events example_state st') ++
       flat_map rewire_events (combine (output example_cell) vs))%list.
Proof.
  exact (@replace_output_rewires float_inference _ _ _ _ _ _ _ _ _ _ _ _ _ _
           example_cell_call).
Defined.

(** ** C3 and C4: the numeric meaning of the lowered cell *)




Section Numeric.
Variable prim :
    string -> list (string * attr_value) -> list (list scalar) -> nat -> list scalar.
Variable rho : string -> list scalar.

Lemma eval_cell_state (x cs_prev h_prev w wci wcf b : term) hs fb cc up ver d :
  eval prim rho (ClosedForm.cell_state x cs_prev h_prev w wci wcf b hs fb cc up ver d) =
  let raw :=
    eval prim rho (ClosedForm.cell_state_unclamped x cs_prev h_prev w wci wcf b hs fb up) in
  if bool_decide (Q2Qc 0 < cc)%Qc
  then (if ver <? 11
        then clip (Some (Fin (- cc)%Qc)) (Some (Fin cc)) raw
        else clip (Some (np_cast d (- cc)%Qc)) (Some (np_cast d cc)) raw)
  else raw.
Proof.
  unfold ClosedForm.cell_state, ClosedForm.clamp. cbv zeta.
  destruct (bool_decide (Q2Qc 0 < cc)%Qc); [|done].
  by destruct (ver <? 11).
Qed.


End Numeric.




(** ** C4: the peephole-disabled path *)

Section Peephole.
Variable prim :
    string -> list (string * attr_value) -> list (list scalar) -> nat -> list scalar.
Variable rho : string -> list scalar.

Lemma eval_outputs_peephole (x cs_prev h_prev w wci wcf wco b : string) hs fb cc ver d d' :
  (constant_clamp cc ver = true -> d = d') ->
  rho wci = repeat (Fin (Q2Qc 0)) (Z.to_nat hs) ->
  rho wcf = repeat (Fin (Q2Qc 0)) (Z.to_nat hs) ->
  rho wco = repeat (Fin (Q2Qc 0)) (Z.to_nat hs) ->
  map (eval prim rho)
    (ClosedForm.outputs (Leaf x) (Leaf cs_prev) (Leaf h_prev) (Leaf w)
       (Leaf wci) (Leaf wcf) (Leaf wco) (Leaf b) hs fb cc true ver d) =
  map (eval prim rho)
    (ClosedForm.outputs (Leaf x) (Leaf cs_prev) (Leaf h_prev) (Leaf w)
       (Leaf wci) (Leaf wcf) (Leaf wco) (Leaf b) hs fb cc false ver d').
Proof.
  intros Hd Hwci Hwcf Hwco.
  assert (eval prim rho
            (ClosedForm.cell_state_unclamped (Leaf x) (Leaf cs_prev) (Leaf h_prev) (Leaf w)
               (Leaf wci) (Leaf wcf) (Leaf b) hs fb true) =
          eval prim rho
            (ClosedForm.cell_state_unclamped (Leaf x) (Leaf cs_prev) (Leaf h_prev) (Leaf w)
               (Leaf wci) (Leaf wcf) (Leaf b) hs fb false)) as Hraw.
  { cbv [ClosedForm.cell_state_unclamped ClosedForm.in_gate ClosedForm.forget
         ClosedForm.peephole_in ClosedForm.peephole_forget ClosedForm.zero_vector
         ClosedForm.const ClosedForm.add ClosedForm.mul ClosedForm.sigmoid].
    cbn [eval map String.eqb Ascii.eqb Bool.eqb const_data assoc np_data].
    by rewrite Hwci, Hwcf. }
  assert (eval prim rho
            (ClosedForm.cell_state (Leaf x) (Leaf cs_prev) (Leaf h_prev) (Leaf w)
               (Leaf wci) (Leaf wcf) (Leaf b) hs fb cc true ver d) =
          eval prim rho
            (ClosedForm.cell_state (Leaf x) (Leaf cs_prev) (Leaf h_prev) (Leaf w)
               (Leaf wci) (Leaf wcf) (Leaf b) hs fb cc false ver d')) as Hcs.
  { rewrite !eval_cell_state. cbv zeta. rewrite Hraw. unfold constant_clamp in Hd.
    destruct (bool_decide (Q2Qc 0 < cc)%Qc); [|done].
    destruct (ver <? 11); [done|]. by rewrite Hd. }
  cbv [ClosedForm.outputs ClosedForm.hidden ClosedForm.cell_tanh ClosedForm.out_gate
       ClosedForm.peephole_out ClosedForm.cell_input ClosedForm.in_gate ClosedForm.forget
       ClosedForm.peephole_in ClosedForm.peephole_forget ClosedForm.zero_vector
       ClosedForm.const ClosedForm.add ClosedForm.mul ClosedForm.sigmoid ClosedForm.tanh].
  cbn [eval map String.eqb Ascii.eqb Bool.eqb const_data assoc np_data].
  by rewrite Hcs, Hwci, Hwcf, Hwco.
Qed.

End Peephole.

(** C4: with the peephole flag off, a run creates one float32 zero vector
    of the hidden width (shape [hidden_size], as many zeros), the closed
    form of its seven outputs is the peephole-on closed form with that
    vector in place of each of the three peephole weights, and the seven
    outputs have the values that a peephole-on run on the same inputs has
    when the three peephole weights are all-zero vectors of that width,
    given that, where the runs clamp through constants, both read the same
    element type for the cell state. *)
Theorem peephole_disabled_as_zero `{ShapeInference}
    st node_d node_e x cs_prev h_prev w wci wcf wco b fb cc hs :
  cell_call st node_d x cs_prev h_prev w wci wcf wco b fb cc false hs ->
  cell_call st node_e x cs_prev h_prev w wci wcf wco b fb cc true hs ->
  exists st_d st_e vs_d vs_e ts_d ts_e d_d d_e,
    LSTMBlockCell.version_1 node_d st = (Ok tt, st_d) /\
    LSTMBlockCell.version_1 node_e st = (Ok tt, st_e) /\
    rewirings (new_events st st_d) = combine (output node_d) vs_d /\
    rewirings (new_events st st_e) = combine (output node_e) vs_e /\
    Forall2 (denotes (new_nodes st st_d) (input node_d)) vs_d ts_d /\
    Forall2 (denotes (new_nodes st st_e) (input node_e)) vs_e ts_e /\
    0 <= hs /\
    map const_tensor (constants (new_events st st_d)) !! 1%nat =
      Some (Some {| np_dtype := np_float32; np_shape := [hs];
                    np_data := repeat (Fin (Q2Qc 0)) (Z.to_nat hs) |}) /\
    ts_d = ClosedForm.outputs (Leaf x) (Leaf cs_prev) (Leaf h_prev) (Leaf w)
             (ClosedForm.zero_vector hs) (ClosedForm.zero_vector hs)
             (ClosedForm.zero_vector hs) (Leaf b) hs fb cc true (opset (graph st)) d_d /\
    ts_e = ClosedForm.outputs (Leaf x) (Leaf cs_prev) (Leaf h_prev) (Leaf w)
             (Leaf wci) (Leaf wcf) (Leaf wco) (Leaf b) hs fb cc true
             (opset (graph st)) d_e /\
    (constant_clamp cc (opset (graph st)) = true ->
     exists raw dd,
       denotes (new_nodes st st_d) (input node_d) raw
         (ClosedForm.cell_state_unclamped (Leaf x) (Leaf cs_prev) (Leaf h_prev) (Leaf w)
            (Leaf wci) (Leaf wcf) (Leaf b) hs fb false) /\
       dtypes (graph st_d) !! raw = Some dd /\
       map_onnx_to_numpy_type (Some dd) = ret d_d) /\
    (constant_clamp cc (opset (graph st)) = true ->
     exists raw dd,
       denotes (new_nodes st st_e) (input node_e) raw
         (ClosedForm.cell_state_unclamped (Leaf x) (Leaf cs_prev) (Leaf h_prev) (Leaf w)
            (Leaf wci) (Leaf wcf) (Leaf b) hs fb true) /\
       dtypes (graph st_e) !! raw = Some dd /\
       map_onnx_to_numpy_type (Some dd) = ret d_e) /\
    forall prim rho,
      rho wci = repeat (Fin (Q2Qc 0)) (Z.to_nat hs) ->
      rho wcf = repeat (Fin (Q2Qc 0)) (Z.to_nat hs) ->
      rho wco = repeat (Fin (Q2Qc 0)) (Z.to_nat hs) ->
      (constant_clamp cc (opset (graph st)) = true -> d_d = d_e) ->
      map (eval prim rho) ts_d = map (eval prim rho) ts_e.
Proof.
  intros Hd He.
  destruct (cell_call_run _ _ _ _ _ _ _ _ _ _ _ _ _ _ Hd)
    as (st_d & d_d & cs_d & Hrun_d & Hl_d).
  destruct (cell_call_run _ _ _ _ _ _ _ _ _ _ _ _ _ _ He)
    as (st_e & d_e & cs_e & Hrun_e & Hl_e).
  exists st_d, st_e, (map snd (rewirings (new_events st st_d))),
    (map snd (rewirings (new_events st st_e))).
  eexists _, _. exists d_d, d_e.
  split; [done|]. split; [done|].
  split.
  { by rewrite <- (lc_rewired _ _ _ _ _ _ _ _ _ _ _ _ _ _ _ _ _ _ Hl_d) at 1;
      rewrite combine_fst_snd. }
  split.
  { by rewrite <- (lc_rewired _ _ _ _ _ _ _ _ _ _ _ _ _ _ _ _ _ _ Hl_e) at 1;
      rewrite combine_fst_snd. }
  split; [exact (lc_denotes _ _ _ _ _ _ _ _ _ _ _ _ _ _ _ _ _ _ Hl_d)|].
  split; [exact (lc_denotes _ _ _ _ _ _ _ _ _ _ _ _ _ _ _ _ _ _ Hl_e)|].
  split.
  { destruct (cc_weight _ _ _ _ _ _ _ _ _ _ _ _ _ _ Hd)
      as (rows & cols & _ & _ & Hnn & ->).
    by apply Z.quot_pos. }
  split.
  { by rewrite (lc_constants _ _ _ _ _ _ _ _ _ _ _ _ _ _ _ _ _ _ Hl_d). }
  split; [reflexivity|]. split; [reflexivity|].
  split.
  { intros Hc.
    destruct (lc_cell_dtype _ _ _ _ _ _ _ _ _ _ _ _ _ _ _ _ _ _ Hl_d Hc)
      as (dd & g & n & _ & _ & Hdd & Hmap).
    exists cs_d, dd. split; [|done].
    exact (lc_cs_raw _ _ _ _ _ _ _ _ _ _ _ _ _ _ _ _ _ _ Hl_d). }
  split.
  { intros Hc.
    destruct (lc_cell_dtype _ _ _ _ _ _ _ _ _ _ _ _ _ _ _ _ _ _ Hl_e Hc)
      as (dd & g & n & _ & _ & Hdd & Hmap).
    exists cs_e, dd. split; [|done].
    exact (lc_cs_raw _ _ _ _ _ _ _ _ _ _ _ _ _ _ _ _ _ _ Hl_e). }
  intros prim rho Hwci Hwcf Hwco Hsame. symmetry. apply eval_outputs_peephole; try done.
  intros Hc. symmetry. by apply Hsame.
Qed.

Lemma peephole_disabled_as_zero_witness :
  exists st_d st_e vs_d vs_e ts_d ts_e d_d d_e,
    @LSTMBlockCell.version_1 float_inference example_cell example_state = (Ok tt, st_d) /\
    @LSTMBlockCell.version_1 float_inference example_cell_peephole example_state
      = (Ok tt, st_e) /\
    rewirings (new_events example_state st_d) = combine (output example_cell) vs_d /\
    rewirings (new_events example_state st_e)
      = combine (output example_cell_peephole) vs_e /\
    Forall2 (denotes (new_nodes example_state st_d) (input example_cell)) vs_d ts_d /\
    Forall2 (denotes (new_nodes example_state st_e) (input example_cell_peephole))
      vs_e ts_e /\
    0 <= 2 /\
    map const_tensor (constants (new_events example_state st_d)) !! 1%nat =
      Some (Some {| np_dtype := np_float32; np_shape := [2];
                    np_data := repeat (Fin (Q2Qc 0)) (Z.to_nat 2) |}) /\
    ts_d = ClosedForm.outputs (Leaf "x") (Leaf "cs") (Leaf "hp") (Leaf "w")
             (ClosedForm.zero_vector 2) (ClosedForm.zero_vector 2)
             (ClosedForm.zero_vector 2) (Leaf "b") 2 (Q2Qc 1) (Q2Qc (3 # 2)) true
             (opset (graph example_state)) d_d /\
    ts_e = ClosedForm.outputs (Leaf "x") (Leaf "cs") (Leaf "hp") (Leaf "w")
             (Leaf "wci") (Leaf "wcf") (Leaf "wco") (Leaf "b") 2 (Q2Qc 1) (Q2Qc (3 # 2))
             true (opset (graph example_state)) d_e /\
    (constant_clamp (Q2Qc (3 # 2)) (opset (graph example_state)) = true ->
     exists raw dd,
       denotes (new_nodes example_state st_d) (input example_cell) raw
         (ClosedForm.cell_state_unclamped (Leaf "x") (Leaf "cs") (Leaf "hp") (Leaf "w")
            (Leaf "wci") (Leaf "wcf") (Leaf "b") 2 (Q2Qc 1) false) /\
       dtypes (graph st_d) !! raw = Some dd /\
       map_onnx_to_numpy_type (Some dd) = ret d_d) /\
    (constant_clamp (Q2Qc (3 # 2)) (opset (graph example_state)) = true ->
     exists raw dd,
       denotes (new_nodes example_state st_e) (input example_cell_peephole) raw
         (ClosedForm.cell_state_unclamped (Leaf "x") (Leaf "cs") (Leaf "hp") (Leaf "w")
            (Leaf "wci") (Leaf "wcf") (Leaf "b") 2 (Q2Qc 1) true) /\
       dtypes (graph st_e) !! raw = Some dd /\
       map_onnx_to_numpy_type (Some dd) = ret d_e) /\
    forall prim rho,
      rho "wci" = repeat (Fin (Q2Qc 0)) (Z.to_nat 2) ->
      rho "wcf" = repeat (Fin (Q2Qc 0)) (Z.to_nat 2) ->
      rho "wco" = repeat (Fin (Q2Qc 0)) (Z.to_nat 2) ->
      (constant_clamp (Q2Qc (3 # 2)) (opset (graph example_state)) = true -> d_d = d_e) ->
      map (eval prim rho) ts_d = map (eval prim rho) ts_e.
Proof.
  exact (@peephole_disabled_as_zero float_inference example_state example_cell
           example_cell_peephole
           "x" "cs" "hp" "w" "wci" "wcf" "wco" "b" (Q2Qc 1) (Q2Qc (3 # 2)) 2
           example_cell_call
           (lstm_node_call example_cell (Q2Qc 1) (Q2Qc (3 # 2)) 1 5 8 11 eq_refl
              ltac:(lia))).
Defined.

(** ** Rules for failing runs *)

Lemma fails_bind {A B} (c : M A) (k : A -> M B) e (Q : State -> Prop) st :
  wp c (fun a => fails (k a) e Q) st -> fails (bind c k) e Q st.
Proof.
  intros (a & st1 & Hc & st2 & Hk & HQ).
  exists st2. split; [|done]. unfold bind. by rewrite Hc.
Qed.

Lemma fails_here {A B} (c : M A) (k : A -> M B) e (Q : State -> Prop) st :
  fails c e Q st -> fails (bind c k) e Q st.
Proof.
  intros (st1 & Hc & HQ). exists st1. split; [|done]. unfold bind. by rewrite Hc.
Qed.

Lemma fails_raise {A} e (Q : State -> Prop) st :
  Q st -> fails (@raise A e) e Q st.
Proof. intros HQ. by exists st. Qed.

(** ** C5: the weight-shape error *)

(** C5, as claimed, does not hold: on a weight matrix of width 6 the
    lowering raises the shape error, but the graph has gained two nodes
    by then. *)
Lemma shape_error_after_two_nodes :
  exists st',
    @LSTMBlockCell.version_1 float_inference example_cell example_state_bad_width
      = (Raise (RuntimeError "shape of W of LSTMBlockCell lstm should be times of 4"), st') /\
    map op_type (new_nodes example_state_bad_width st') = ["Concat"; "MatMul"] /\
    new_nodes example_state_bad_width st' <> [].
Proof.
  eexists. split; [vm_compute; reflexivity|]. split; [vm_compute; reflexivity|].
  vm_compute. discriminate.
Qed.

(** C5, amended: when the declared shape of the weight is known and is not
    two-dimensional, or its width is no multiple of 4, the lowering raises
    a runtime error whose message names the fused node, after it has
    created exactly two nodes, the Concat of the input with the previous
    hidden state and the MatMul of that with the weight; it has created no
    constant, rewired nothing and removed nothing. *)
Theorem bad_weight_shape_fails `{ShapeInference}
    st node x cs_prev h_prev w wci wcf wco b afb acc aup s :
  input node = [x; cs_prev; h_prev; w; wci; wcf; wco; b] ->
  assoc "forget_bias" (attr node) = Some afb ->
  assoc "cell_clip" (attr node) = Some acc ->
  assoc "use_peephole" (attr node) = Some aup ->
  shapes (graph st) !! w = Some s ->
  fresh_from (counter st) w ->
  (length s <> 2%nat \/ exists rows cols, s = [rows; cols] /\ cols mod 4 <> 0) ->
  exists st' xh xh_w,
    LSTMBlockCell.version_1 node st
      = (Raise (RuntimeError ("shape of W of LSTMBlockCell " +:+ name node +:+
                              " should be times of 4")), st') /\
    new_events st st' = [EvMakeNode xh; EvMakeNode xh_w] /\
    new_nodes st st' = [xh; xh_w] /\
    op_type xh = "Concat" /\ input xh = [x; h_prev] /\
    op_type xh_w = "MatMul" /\
    (forall o, output xh !! 0%nat = Some o -> input xh_w = [o; w]) /\
    nodes (graph st') = (nodes (graph st) ++ [xh; xh_w])%list.
Proof.
  intros Hin Hfb Hcc Hup Hw Hfw Hbad.
  enough (fails (LSTMBlockCell.version_1 node)
            (RuntimeError (LSTMBlockCell.shape_error_msg (name node)))
            (fun st' => exists xh xh_w,
               trace st' = (trace st ++ [EvMakeNode xh; EvMakeNode xh_w])%list /\
               nodes (graph st') = (nodes (graph st) ++ [xh; xh_w])%list /\
               op_type xh = "Concat" /\ input xh = [x; h_prev] /\
               op_type xh_w = "MatMul" /\
               (forall o, output xh !! 0%nat = Some o -> input xh_w = [o; w])) st)
    as (st' & Hrun & xh & xh_w & Htr & Hns & Hrest).
  { exists st', xh, xh_w. split; [exact Hrun|].
    unfold new_events, new_nodes. rewrite Htr, Hns, !drop_app_length.
    split; [done|]. split; [done|].
    destruct Hrest as (? & ? & ? & ?). by repeat split. }
  unfold LSTMBlockCell.version_1. rewrite Hin.
  apply fails_bind. eapply wp_get_attr; [exact Hfb|].
  apply fails_bind. eapply wp_get_attr; [exact Hcc|].
  apply fails_bind. eapply wp_get_attr; [exact Hup|].
  apply fails_bind. wp_step.
  apply fails_bind. wp_step.
  apply fails_bind. wp_step.
  apply fails_bind. wp_step.
  rewrite !shapes_add_node_ne, Hw by (cbn [output default_outputs map seq]; solve_neqs).
  cbn [len_shape].
  apply fails_bind. apply wp_ret.
  apply fails_here.
  assert (forall Q : State -> Prop, forall s0, Q s0 ->
            fails (if negb (length s =? 2)%nat
                   then raise (RuntimeError (LSTMBlockCell.shape_error_msg (name node)))
                   else w1 <- index s 1 ;;
                        if negb (w1 mod 4 =? 0)
                        then raise (RuntimeError (LSTMBlockCell.shape_error_msg (name node)))
                        else ret tt)
                  (RuntimeError (LSTMBlockCell.shape_error_msg (name node))) Q s0) as Hchk.
  { intros Q s0 HQ. destruct Hbad as [Hlen|(rows & cols & -> & Hmod)].
    - apply Nat.eqb_neq in Hlen. rewrite Hlen. by apply fails_raise.
    - cbn [length Nat.eqb negb]. apply fails_bind. eapply wp_index; [reflexivity|].
      apply Z.eqb_neq in Hmod. rewrite Hmod. by apply fails_raise. }
  apply Hchk. eexists _, _. cbn [trace graph].
  split; [by rewrite <- app_assoc|].
  rewrite !nodes_add_node. split; [by rewrite <- app_assoc|]. cbn [op_type input output].
  repeat split. intros o [= <-]. done.
Qed.

Lemma bad_weight_shape_fails_witness :
  exists st' xh xh_w,
    @LSTMBlockCell.version_1 float_inference example_cell example_state_bad_width
      = (Raise (RuntimeError ("shape of W of LSTMBlockCell " +:+ name example_cell +:+
                              " should be times of 4")), st') /\
    new_events example_state_bad_width st' = [EvMakeNode xh; EvMakeNode xh_w] /\
    new_nodes example_state_bad_width st' = [xh; xh_w] /\
    op_type xh = "Concat" /\ input xh = ["x"; "hp"] /\
    op_type xh_w = "MatMul" /\
    (forall o, output xh !! 0%nat = Some o -> input xh_w = [o; "w"]) /\
    nodes (graph st') = (nodes (graph example_state_bad_width) ++ [xh; xh_w])%list.
Proof.
  apply (@bad_weight_shape_fails float_inference example_state_bad_width example_cell
           "x" "cs" "hp" "w" "wci" "wcf" "wco" "b"
           (AttrF (Q2Qc 1)) (AttrF (Q2Qc (3 # 2))) (AttrI 0) [5; 6]).
  - reflexivity.
  - reflexivity.
  - reflexivity.
  - reflexivity.
  - reflexivity.
  - by apply no_underscore_fresh.
  - right. exists 5, 6. split; [reflexivity|]. vm_compute. discriminate.
Defined.

(** ** The multi-layer lowering *)

Lemma wp_subscript (s : option (list Z)) l k a (Q : Z -> State -> Prop) st :
  s = Some l -> nth_error l k = Some a -> Q a st -> wp (subscript s k) Q st.
Proof. intros -> Hk HQ. unfold subscript. by eapply wp_index. Qed.

Lemma in_int64_wrap64 z : in_int64 (wrap64 z) = true.
Proof.
  unfold in_int64, wrap64, int64_min, int64_max.
  pose proof (Z.mod_pos_bound (z + 2 ^ 63) (2 ^ 64) ltac:(lia)).
  apply andb_true_intro. split; apply Z.leb_le; lia.
Qed.

Section Layers.
Context `{ShapeInference}.
Variables (node : Node) (X : string) (dirs units : Z).

Lemma chain_succ (a : nat) :
  chain node X dirs (Z.of_nat (S a)) =
  (CudnnRNN.NM node (X +:+ "_" +:+ str (Z.of_nat a * dirs)),
   if dirs =? 2 then CudnnRNN.NM node (X +:+ "_" +:+ str (Z.of_nat a * 2 + 1)) else X).
Proof.
  unfold chain, fwd_input, bwd_input.
  replace (Z.of_nat (S a) =? 0) with false by (symmetry; apply Z.eqb_neq; lia).
  by replace (Z.of_nat (S a) - 1) with (Z.of_nat a) by lia.
Qed.

Lemma wp_layers (n : nat) :
  forall (a : nat) st (Q : string * string -> State -> Prop),
    (forall st' ns,
       trace st' = (trace st ++ map EvMakeNode ns)%list ->
       nodes (graph st') = (nodes (graph st) ++ ns)%list ->
       map sig ns = flat_map (layer_sig node X dirs units) (map Z.of_nat (seq a n)) ->
       Q (chain node X dirs (Z.of_nat (a + n))) st') ->
    wp (for_each (map Z.of_nat (seq a n)) (CudnnRNN.layer_body node X dirs units)
          (chain node X dirs (Z.of_nat a))) Q st.
Proof.
  induction n as [|n IH]; intros a st Q HQ.
  - cbn [seq map for_each]. apply wp_ret.
    rewrite Nat.add_0_r in HQ. apply (HQ st []); cbn [map flat_map]; by rewrite ?app_nil_r.
  - cbn [seq map for_each]. apply wp_bind.
    unfold CudnnRNN.layer_body at 1. unfold chain at 1.
    unfold CudnnRNN.gru_step.
    destruct (dirs =? 2) eqn:Hd.
    + repeat wp_step.
      pose proof (chain_succ a) as Hc. rewrite Hd in Hc. rewrite <- Hc.
      apply IH. intros st' ns Htr Hns Hsig.
      replace (a + S n)%nat with (S a + n)%nat in HQ by lia.
      cbn [trace graph] in Htr, Hns. rewrite !nodes_add_node in Hns.
      rewrite <- !app_assoc in Htr, Hns. cbn [app] in Htr, Hns.
      match type of Hns with
      | _ = (_ ++ ?n1 :: ?n2 :: ?n3 :: ?n4 :: _)%list =>
        apply (HQ st' (n1 :: n2 :: n3 :: n4 :: ns)); [exact Htr|exact Hns|]
      end.
      cbn [map flat_map seq]. unfold layer_sig at 1. rewrite Hd, Hsig.
      reflexivity.
    + repeat wp_step.
      pose proof (chain_succ a) as Hc. rewrite Hd in Hc. rewrite <- Hc.
      apply IH. intros st' ns Htr Hns Hsig.
      replace (a + S n)%nat with (S a + n)%nat in HQ by lia.
      cbn [trace graph] in Htr, Hns. rewrite !nodes_add_node in Hns.
      rewrite <- !app_assoc in Htr, Hns. cbn [app] in Htr, Hns.
      match type of Hns with
      | _ = (_ ++ ?n1 :: ?n2 :: _)%list =>
        apply (HQ st' (n1 :: n2 :: ns)); [exact Htr|exact Hns|]
      end.
      cbn [map flat_map seq]. unfold layer_sig at 1. rewrite Hd, Hsig.
      reflexivity.
Qed.

End Layers.

Ltac solve_int64 :=
  cbn [forallb];
  repeat first [ assumption | apply in_int64_wrap64 | reflexivity
               | apply andb_true_intro; split ].

Ltac rnn_step :=
  first [ wp_step
        | lazymatch goal with
          | |- wp (np_array_int64 _) _ _ => apply wp_np_array_int64; [solve_int64|]
          end ].

Lemma chain_0 (node : Node) (X : string) (dirs : Z) : chain node X dirs (Z.of_nat 0) = (X, X).
Proof. unfold chain, fwd_input, bwd_input. cbn. by destruct (dirs =? 2). Qed.

Lemma nth_error_0_cons {A} (l : list A) (a : A) :
  nth_error l 0 = Some a -> exists r, l = a :: r.
Proof. destruct l; [done|]. intros [= ->]. by eexists. Qed.

Section Network.
Context `{ShapeInference}.

Lemma version_11_lowers st node X H0' P direction H0 hidden input_size out0 out1 :
  rnn_call st node X H0' P direction H0 hidden input_size out0 out1 ->
  wp (CudnnRNN.version_11 node)
     (fun _ st' => lowered_rnn st node X H0' P (num_dirs direction) H0 hidden input_size
                     out0 out1 st') st.
Proof.
  intros [HX HH HP Hmode Hdrop Hin Hdir (hs & Hhs & Hh0 & Hh2) (xs & Hxs & Hx2)
            Hint Ho0 Ho1].
  destruct (assoc "rnn_mode" (attr node)) as [amode|] eqn:Hamode; [|discriminate].
  destruct (assoc "dropout" (attr node)) as [adrop|] eqn:Hadrop; [|discriminate].
  destruct (assoc "input_mode" (attr node)) as [ain|] eqn:Hain; [|discriminate].
  destruct (assoc "direction" (attr node)) as [adir|] eqn:Hadir; [|discriminate].
  cbn in Hmode, Hdrop, Hin, Hdir.
  injection Hmode as Hmode. injection Hdrop as Hdrop. injection Hin as Hin.
  injection Hdir as Hdir.
  cbn [forallb] in Hint.
  repeat (apply andb_prop in Hint as [? Hint]).
  unfold CudnnRNN.version_11.
  apply wp_bind. eapply wp_index; [exact HX|].
  apply wp_bind. apply wp_get_shape. rewrite Hxs.
  apply wp_bind. eapply wp_index; [exact HH|].
  apply wp_bind. apply wp_get_shape. rewrite Hhs.
  apply wp_bind. eapply wp_index; [exact HP|].
  apply wp_bind. eapply wp_getitem; [exact Hamode|].
  apply wp_bind. apply wp_make_sure; [by rewrite Hmode|].
  apply wp_bind. eapply wp_getitem; [exact Hadrop|].
  apply wp_bind. apply wp_make_sure; [by rewrite Hdrop; apply bool_decide_eq_true_2|].
  apply wp_bind. eapply wp_getitem; [exact Hain|].
  apply wp_bind. apply wp_make_sure; [by rewrite Hin|].
  apply wp_bind. eapply wp_getitem; [exact Hadir|].
  rewrite Hdir. fold (num_dirs direction).
  set (dirs := num_dirs direction) in *.
  apply wp_bind. eapply wp_subscript; [reflexivity|exact Hh0|].
  apply wp_bind. eapply wp_subscript; [reflexivity|exact Hh2|].
  apply wp_bind. eapply wp_subscript; [reflexivity|exact Hx2|].
  set (layers := int_div H0 dirs) in *.
  repeat rnn_step.
  unfold range at 6.
  rewrite <- (chain_0 node X dirs).
  apply wp_layers. intros st1 steps Htr Hns Hsig.
  cbn [trace graph] in Htr, Hns.
  autorewrite with graph_nodes in Hns.
  rewrite <- !app_assoc in Htr, Hns. cbn [app] in Htr, Hns.
  unfold chain. cbv beta iota. cbn [Nat.add].
  destruct (output node) as [|o0 [|o1 orest]] eqn:Hout; try discriminate.
  injection Ho0 as ->. injection Ho1 as ->.
  wp_step. wp_step.
  replace (Z.of_nat (Z.to_nat layers)) with (Z.max 0 layers) by lia.
  destruct (dirs =? 2) eqn:Hd; repeat wp_step.
  all: unfold lowered_rnn; cbv zeta.
  all: match goal with
       | Hn : nodes (graph _) =
              (_ ++ ?c1 :: ?c2 :: ?c3 :: ?c4 :: ?c5 :: ?c6 :: ?c7 ::
                    ?s1 :: ?s2 :: ?s3 :: ?s4 :: ?s5 :: ?s6 :: ?s7 :: ?s8 :: ?s9 :: ?s10 ::
                    ?rest)%list,
         Ht : trace _ = _, Hs : map sig _ = _ |- _ =>
         exists [c1; c2; c3; c4; c5; c6; c7],
           [s1; s2; s3; s4; s5; s6; s7; s8; s9; s10], rest;
         eexists _, _;
         split; [cbn [trace]; rewrite Ht; rewrite <- !app_assoc; cbn [app map];
                 reflexivity|];
         split; [cbn [graph]; autorewrite with graph_nodes; rewrite nodes_remove, Hn;
                 rewrite <- !app_assoc; cbn [app]; reflexivity|];
         do 4 (split; [reflexivity|]);
         split; [exact Hs|]
       end.
  all: split; [|reflexivity].
  all: unfold final_sig.
  all: match goal with Hd : (_ =? 2) = _ |- _ => rewrite Hd end.
  all: reflexivity.
Qed.

Lemma version_11_run st node X Hn P direction H0 hidden input_size out0 out1 :
  rnn_call st node X Hn P direction H0 hidden input_size out0 out1 ->
  exists st',
    CudnnRNN.version_11 node st = (Ok tt, st') /\
    lowered_rnn st node X Hn P (num_dirs direction) H0 hidden input_size out0 out1 st'.
Proof.
  intros Hcall.
  destruct (version_11_lowers _ _ _ _ _ _ _ _ _ _ _ Hcall) as ([] & st' & Hrun & Hl).
  by exists st'.
Qed.

End Network.

Lemma example_rnn_call (H0 : Z) :
  in_int64 (int_div H0 2 * 2) = true ->
  @rnn_call (rnn_state example_rnn H0 5 3) example_rnn "x" "h" "p" "bidirectional"
    H0 5 3 "y" "yh".
Proof.
  intros Hint. split; try reflexivity.
  - eexists. split; [reflexivity|]. by split.
  - eexists. split; [reflexivity|]. done.
  - cbn [forallb]. change (num_dirs "bidirectional") with 2. by rewrite Hint.
Qed.

(** ** C7: the three configuration checks *)

Lemma fails_make_sure (b : bool) msg (Q : State -> Prop) st :
  b = false -> Q st -> fails (make_sure b msg) (UnsupportedConfiguration msg) Q st.
Proof. intros -> HQ. by apply fails_raise. Qed.

(** C7, as claimed, does not hold: the error of a network in an
    unsupported recurrence mode does not name the node. *)
Lemma configuration_error_without_node_name :
    @CudnnRNN.version_11 float_inference example_rnn_lstm
      (rnn_state example_rnn_lstm 4 5 3) =
    (Raise (UnsupportedConfiguration "rnn mode other than gru are not supported yet"),
     rnn_state example_rnn_lstm 4 5 3) /\
    contains (name example_rnn_lstm) "rnn mode other than gru are not supported yet" = false.
Proof. split; vm_compute; reflexivity. Qed.

(** C7, amended: on a node with its four inputs and the attributes read so
    far, an unsupported recurrence mode, a non-zero dropout, or an
    unsupported input mode, checked in this order, raises an
    unsupported-configuration error and leaves the graph, the name counter
    and the history exactly as they were; the message is one of three
    fixed texts that name the violated constraint, and does not mention the
    node. *)
Theorem unsupported_configuration_fails `{ShapeInference} st node X Hn P mode :
  nth_error (input node) 0 = Some X ->
  nth_error (input node) 1 = Some Hn ->
  nth_error (input node) 3 = Some P ->
  assoc "rnn_mode" (attr node) = Some mode ->
  (attr_s mode <> "gru" ->
   CudnnRNN.version_11 node st =
   (Raise (UnsupportedConfiguration "rnn mode other than gru are not supported yet"), st)) /\
  (attr_s mode = "gru" ->
   forall dropout, assoc "dropout" (attr node) = Some dropout ->
     (attr_f dropout <> Q2Qc 0 ->
      CudnnRNN.version_11 node st =
      (Raise (UnsupportedConfiguration "dropout not supported yet"), st)) /\
     (attr_f dropout = Q2Qc 0 ->
      forall input_mode, assoc "input_mode" (attr node) = Some input_mode ->
        attr_s input_mode <> "linear_input" ->
        CudnnRNN.version_11 node st =
        (Raise (UnsupportedConfiguration "input mode must be linear input"), st))).
Proof.
  intros HX HH HP Hmode.
  assert (forall e,
            fails (CudnnRNN.version_11 node) e (fun st' => st' = st) st ->
            CudnnRNN.version_11 node st = (Raise e, st)) as Hfails.
  { intros e (st' & Hrun & ->). exact Hrun. }
  split; [|intros Hgru dropout Hdrop; split; [|intros Hzero input_mode Hin]];
    intros Hbad; apply Hfails; unfold CudnnRNN.version_11.
  all: apply fails_bind; (eapply wp_index; [exact HX|]).
  all: apply fails_bind; apply wp_get_shape.
  all: apply fails_bind; (eapply wp_index; [exact HH|]).
  all: apply fails_bind; apply wp_get_shape.
  all: apply fails_bind; (eapply wp_index; [exact HP|]).
  all: apply fails_bind; (eapply wp_getitem; [exact Hmode|]).
  - apply fails_here, fails_make_sure; [by apply String.eqb_neq|done].
  - apply fails_bind. apply wp_make_sure; [by apply String.eqb_eq|].
    apply fails_bind. eapply wp_getitem; [exact Hdrop|].
    apply fails_here, fails_make_sure; [by apply bool_decide_eq_false_2|done].
  - apply fails_bind. apply wp_make_sure; [by apply String.eqb_eq|].
    apply fails_bind. eapply wp_getitem; [exact Hdrop|].
    apply fails_bind. apply wp_make_sure; [by apply bool_decide_eq_true_2|].
    apply fails_bind. eapply wp_getitem; [exact Hin|].
    apply fails_here, fails_make_sure; [by apply String.eqb_neq|done].
Qed.

Lemma unsupported_configuration_fails_witness :
  ("lstm" <> "gru" ->
   @CudnnRNN.version_11 float_inference example_rnn_lstm (rnn_state example_rnn_lstm 4 5 3) =
   (Raise (UnsupportedConfiguration "rnn mode other than gru are not supported yet"),
    rnn_state example_rnn_lstm 4 5 3)) /\
  ("lstm" = "gru" ->
   forall dropout, assoc "dropout" (attr example_rnn_lstm) = Some dropout ->
     (attr_f dropout <> Q2Qc 0 ->
      @CudnnRNN.version_11 float_inference example_rnn_lstm
        (rnn_state example_rnn_lstm 4 5 3) =
      (Raise (UnsupportedConfiguration "dropout not supported yet"),
       rnn_state example_rnn_lstm 4 5 3)) /\
     (attr_f dropout = Q2Qc 0 ->
      forall input_mode, assoc "input_mode" (attr example_rnn_lstm) = Some input_mode ->
        attr_s input_mode <> "linear_input" ->
        @CudnnRNN.version_11 float_inference example_rnn_lstm
          (rnn_state example_rnn_lstm 4 5 3) =
        (Raise (UnsupportedConfiguration "input mode must be linear input"),
         rnn_state example_rnn_lstm 4 5 3))).
Proof.
  exact (@unsupported_configuration_fails float_inference
           (rnn_state example_rnn_lstm 4 5 3) example_rnn_lstm "x" "h" "p" (AttrS "lstm")
           eq_refl eq_refl eq_refl eq_refl).
Defined.

(** ** C6: the layer count *)

(** C6, as claimed, does not hold: with a leading dimension of 3 and two
    directions the lowering succeeds, and the shapes it declares are for
    one layer, two slices of the three. *)
Lemma odd_leading_dimension_truncates :
  exists st',
    @CudnnRNN.version_11 float_inference example_rnn example_rnn_state_odd = (Ok tt, st') /\
    map const_tensor (constants (new_events example_rnn_state_odd st')) !! 0%nat
      = Some (Some (int64_array [2; 15; 3])) /\
    3 mod 2 <> 0.
Proof.
  eexists. split; [vm_compute; reflexivity|]. split; [vm_compute; reflexivity|].
  vm_compute. discriminate.
Qed.

Lemma constants_app evs1 evs2 :
  constants (evs1 ++ evs2) = (constants evs1 ++ constants evs2)%list.
Proof. unfold constants. apply omap_app. Qed.

Lemma constants_consts ns : constants (map EvMakeConst ns) = ns.
Proof. induction ns as [|n ns IH]; [done|]. cbn. by rewrite <- IH at 2. Qed.

Lemma constants_nodes ns : constants (map EvMakeNode ns) = [].
Proof. by induction ns. Qed.

Lemma primitives_app evs1 evs2 :
  primitives (evs1 ++ evs2) = (primitives evs1 ++ primitives evs2)%list.
Proof. unfold primitives. apply omap_app. Qed.

Lemma primitives_consts ns : primitives (map EvMakeConst ns) = [].
Proof. by induction ns. Qed.

Lemma primitives_nodes ns : primitives (map EvMakeNode ns) = ns.
Proof. induction ns as [|n ns IH]; [done|]. cbn. by rewrite <- IH at 2. Qed.

Lemma removals_app evs1 evs2 :
  removals (evs1 ++ evs2) = (removals evs1 ++ removals evs2)%list.
Proof. unfold removals. apply omap_app. Qed.

Lemma removals_consts ns : removals (map EvMakeConst ns) = [].
Proof. by induction ns. Qed.

Lemma removals_nodes ns : removals (map EvMakeNode ns) = [].
Proof. by induction ns. Qed.

Lemma lowered_rnn_events st node X Hn P dirs H0 hidden input_size out0 out1 st' :
  lowered_rnn st node X Hn P dirs H0 hidden input_size out0 out1 st' ->
  exists consts scaffold steps final final_hidden,
    new_events st st' =
      (map EvMakeConst consts ++ map EvMakeNode scaffold ++ map EvMakeNode steps ++
       EvRemove (name node) :: [EvMakeNode final; EvMakeNode final_hidden])%list /\
    map const_tensor consts
      = map Some (rnn_constants (int_div H0 dirs) dirs hidden input_size) /\
    map sig scaffold = scaffold_sig (counter st) node Hn P (int_div H0 dirs * dirs) /\
    map sig steps = flat_map (layer_sig node X dirs hidden) (range (int_div H0 dirs)) /\
    sig final = final_sig node X dirs (Z.max 0 (int_div H0 dirs)) out0 /\
    sig final_hidden = final_hidden_sig node (int_div H0 dirs * dirs) out1.
Proof.
  intros (consts & scaffold & steps & final & final_hidden & Htr & _ & _ & _ & Hc & Hs
          & Hl & Hf & Hh).
  exists consts, scaffold, steps, final, final_hidden.
  split; [|done]. unfold new_events. rewrite Htr. apply drop_app_length.
Qed.

Lemma length_layers node X dirs units (l : list Z) :
  dirs = 1 \/ dirs = 2 ->
  length (flat_map (layer_sig node X dirs units) l) = (length l * Z.to_nat (2 * dirs))%nat.
Proof.
  intros Hd. induction l as [|i l IH]; [done|]. cbn [flat_map length].
  rewrite length_app, IH. unfold layer_sig.
  destruct Hd as [-> | ->]; cbn; lia.
Qed.

(** C6, amended: the layer count is the quotient of the leading dimension
    of the initial hidden states by the direction count, truncated towards
    zero.  No check is made: on every well-formed call the lowering
    succeeds and declares its shapes and builds its layers for the
    truncated count, whose product with the direction count is the leading
    dimension only when the division is exact. *)
Theorem layer_count_truncates `{ShapeInference}
    st node X Hn P direction H0 hidden input_size out0 out1 :
  rnn_call st node X Hn P direction H0 hidden input_size out0 out1 ->
  let dirs := if String.eqb direction "unidirectional" then 1 else 2 in
  let layers := Z.quot H0 dirs in
  exists st' scaffold steps final final_hidden,
    CudnnRNN.version_11 node st = (Ok tt, st') /\
    map const_tensor (constants (new_events st st')) =
      map Some (rnn_constants layers dirs hidden input_size) /\
    primitives (new_events st st') = (scaffold ++ steps ++ [final; final_hidden])%list /\
    length scaffold = 10%nat /\
    map sig steps = flat_map (layer_sig node X dirs hidden) (range layers) /\
    length steps = (Z.to_nat layers * Z.to_nat (2 * dirs))%nat /\
    (layers * dirs = H0 <-> Z.rem H0 dirs = 0).
Proof.
  intros Hcall dirs layers.
  destruct (version_11_run _ _ _ _ _ _ _ _ _ _ _ Hcall) as (st' & Hrun & Hl).
  apply lowered_rnn_events in Hl
    as (consts & scaffold & steps & final & final_hidden & Hev & Hc & Hs & Hst & _ & _).
  fold dirs in Hc, Hs, Hst. fold layers in Hc, Hs, Hst.
  exists st', scaffold, steps, final, final_hidden.
  split; [exact Hrun|]. rewrite Hev.
  split; [|split; [|split; [|split; [|split]]]].
  - rewrite !constants_app, constants_consts, !constants_nodes. cbn. by rewrite app_nil_r.
  - rewrite !primitives_app, primitives_consts, !primitives_nodes. reflexivity.
  - apply (f_equal length) in Hs. by rewrite length_map in Hs.
  - exact Hst.
  - apply (f_equal length) in Hst. rewrite length_map in Hst. rewrite Hst.
    unfold range. rewrite length_layers, length_map, length_seq; [done|].
    unfold num_dirs. destruct (String.eqb direction "unidirectional"); [by left|by right].
  - pose proof (Z.quot_rem' H0 dirs). unfold layers.
    assert (dirs <> 0)
      by (subst layers dirs; unfold num_dirs;
          destruct (String.eqb direction "unidirectional"); lia).
    lia.
Qed.

Lemma layer_count_truncates_witness :
  let dirs := if String.eqb "bidirectional" "unidirectional" then 1 else 2 in
  let layers := Z.quot 3 dirs in
  exists st' scaffold steps final final_hidden,
    @CudnnRNN.version_11 float_inference example_rnn example_rnn_state_odd = (Ok tt, st') /\
    map const_tensor (constants (new_events example_rnn_state_odd st')) =
      map Some (rnn_constants layers dirs 5 3) /\
    primitives (new_events example_rnn_state_odd st')
      = (scaffold ++ steps ++ [final; final_hidden])%list /\
    length scaffold = 10%nat /\
    map sig steps = flat_map (layer_sig example_rnn "x" dirs 5) (range layers) /\
    length steps = (Z.to_nat layers * Z.to_nat (2 * dirs))%nat /\
    (layers * dirs = 3 <-> Z.rem 3 dirs = 0).
Proof.
  exact (@layer_count_truncates float_inference _ _ _ _ _ _ _ _ _ _ _
           (example_rnn_call 3 eq_refl)).
Defined.

(** ** C2: the chain of layers *)

(** C2, as claimed, does not hold: in two bidirectional layers the reverse
    operator of the second layer reads the squeezed reverse output of the
    first layer, not what the forward operator of its layer reads. *)
Lemma reverse_reads_previous_reverse :
  exists st',
    @CudnnRNN.version_11 float_inference example_rnn example_rnn_state = (Ok tt, st') /\
    gru_inputs (primitives (new_events example_rnn_state st')) =
      [(Some "forward", Some "x"); (Some "reverse", Some "x");
       (Some "forward", Some "rnn_x_0"); (Some "reverse", Some "rnn_x_1")].
Proof. eexists. split; vm_compute; reflexivity. Qed.

Lemma NM_inj node s1 s2 : CudnnRNN.NM node s1 = CudnnRNN.NM node s2 -> s1 = s2.
Proof.
  unfold CudnnRNN.NM. intros Heq.
  apply (inj (String.app (name node))) in Heq.
  by apply (inj (String.app "_")) in Heq.
Qed.

Lemma bwd_input_neq_fwd node X i : 1 <= i -> bwd_input node X i <> fwd_input node X 2 i.
Proof.
  intros Hi. unfold bwd_input, fwd_input.
  replace (i =? 0) with false by (symmetry; apply Z.eqb_neq; lia).
  intros Heq. apply NM_inj in Heq.
  apply (inj (String.app X)) in Heq. apply (inj (String.app "_")) in Heq.
  apply (inj pretty) in Heq. lia.
Qed.

(** C2, amended: the nodes a run creates are ten scaffold nodes, then for
    each layer in order the forward operator with its squeeze and, when
    bidirectional, the reverse operator with its squeeze, then the node
    bound to the first output and the node bound to the second.  The
    forward operator of layer 0 reads the network input and that of layer
    i >= 1 the squeezed forward output of layer i - 1; the reverse operator
    of layer 0 reads the network input and that of layer i >= 1 the
    squeezed reverse output of layer i - 1, which is never what the forward
    operator of that layer reads.  The first output is, if bidirectional,
    the Concat along the last axis of the last layer's two squeezed outputs
    and otherwise the Identity of the forward one; the second output is the
    Concat along axis 0 of the final hidden states YH_0, YH_1, ..., the
    state of direction d of layer i being number i * directions + d. *)
Theorem layer_chain `{ShapeInference}
    st node X Hn P direction H0 hidden input_size out0 out1 :
  rnn_call st node X Hn P direction H0 hidden input_size out0 out1 ->
  let dirs := num_dirs direction in
  let layers := int_div H0 dirs in
  exists st' scaffold steps final final_hidden,
    CudnnRNN.version_11 node st = (Ok tt, st') /\
    primitives (new_events st st') = (scaffold ++ steps ++ [final; final_hidden])%list /\
    length scaffold = 10%nat /\
    map sig steps =
      flat_map (fun i =>
        gru_sig node X hidden "forward" (fwd_input node X dirs i) ("_" +:+ str (i * dirs)) ++
        (if dirs =? 2
         then gru_sig node X hidden "reverse" (bwd_input node X i) ("_" +:+ str (i * 2 + 1))
         else []))%list (range layers) /\
    sig final =
      (if dirs =? 2
       then ("Concat",
             [fwd_input node X dirs (Z.max 0 layers); bwd_input node X (Z.max 0 layers)],
             [out0], [("axis", AttrI (-1))])
       else ("Identity", [fwd_input node X dirs (Z.max 0 layers)], [out0], [])) /\
    sig final_hidden =
      ("Concat", map (fun i => CudnnRNN.NM node ("YH_" +:+ str i)) (range (layers * dirs)),
       [out1], [("axis", AttrI 0)]) /\
    forall i, 1 <= i -> bwd_input node X i <> fwd_input node X 2 i.
Proof.
  intros Hcall dirs layers.
  destruct (version_11_run _ _ _ _ _ _ _ _ _ _ _ Hcall) as (st' & Hrun & Hl).
  apply lowered_rnn_events in Hl
    as (consts & scaffold & steps & final & final_hidden & Hev & Hc & Hs & Hst & Hf & Hh).
  exists st', scaffold, steps, final, final_hidden.
  split; [exact Hrun|]. rewrite Hev.
  split; [|split; [|split; [|split; [|split]]]].
  - rewrite !primitives_app, primitives_consts, !primitives_nodes. reflexivity.
  - apply (f_equal length) in Hs. by rewrite length_map in Hs.
  - exact Hst.
  - exact Hf.
  - exact Hh.
  - intros i. apply bwd_input_neq_fwd.
Qed.

Lemma layer_chain_witness :
  let dirs := num_dirs "bidirectional" in
  let layers := int_div 4 dirs in
  exists st' scaffold steps final final_hidden,
    @CudnnRNN.version_11 float_inference example_rnn example_rnn_state = (Ok tt, st') /\
    primitives (new_events example_rnn_state st')
      = (scaffold ++ steps ++ [final; final_hidden])%list /\
    length scaffold = 10%nat /\
    map sig steps =
      flat_map (fun i =>
        gru_sig example_rnn "x" 5 "forward" (fwd_input example_rnn "x" dirs i)
          ("_" +:+ str (i * dirs)) ++
        (if dirs =? 2
         then gru_sig example_rnn "x" 5 "reverse" (bwd_input example_rnn "x" i)
                ("_" +:+ str (i * 2 + 1))
         else []))%list (range layers) /\
    sig final =
      (if dirs =? 2
       then ("Concat",
             [fwd_input example_rnn "x" dirs (Z.max 0 layers);
              bwd_input example_rnn "x" (Z.max 0 layers)],
             ["y"], [("axis", AttrI (-1))])
       else ("Identity", [fwd_input example_rnn "x" dirs (Z.max 0 layers)], ["y"], [])) /\
    sig final_hidden =
      ("Concat",
       map (fun i => CudnnRNN.NM example_rnn ("YH_" +:+ str i)) (range (layers * dirs)),
       ["yh"], [("axis", AttrI 0)]) /\
    forall i, 1 <= i -> bwd_input example_rnn "x" i <> fwd_input example_rnn "x" 2 i.
Proof.
  exact (@layer_chain float_inference _ _ _ _ _ _ _ _ _ _ _ (example_rnn_call 4 eq_refl)).
Defined.

(** ** C8: the removal of the fused node *)

(** C8, as claimed, does not hold: a successful run of the cell lowering
    removes nothing, and the fused cell is still a node of the graph. *)
Lemma fused_cell_not_removed :
  exists st',
    @LSTMBlockCell.version_1 float_inference example_cell example_state = (Ok tt, st') /\
    removals (new_events example_state st') = [] /\
    existsb (fun n => String.eqb (name n) (name example_cell)) (nodes (graph st')) = true.
Proof. eexists. split; [|split]; vm_compute; reflexivity. Qed.

Lemma name_rewire_all ps n : name (rewire_all ps n) = name n.
Proof.
  unfold rewire_all. revert n. induction ps as [|p ps IH]; intros n; [done|].
  cbn [fold_left]. by rewrite IH.
Qed.

Lemma removals_creations evs : removals (creations evs) = [].
Proof.
  induction evs as [|e evs IH]; [done|]. unfold creations in *. cbn [List.filter].
  by destruct e.
Qed.

Lemma removals_rewire ps : removals (flat_map rewire_events ps) = [].
Proof. induction ps as [|p ps IH]; [done|]. cbn. exact IH. Qed.

(** C8, amended: a successful run of the cell lowering never removes the
    fused node: its history holds no removal and the node stays in the
    graph, rewired.  A successful run of the multi-layer lowering removes
    the fused node exactly once, and does so before it creates the two
    nodes that carry the fused node's first and second output. *)
Theorem fused_node_removal `{ShapeInference}
    st_c cell x cs_prev h_prev w wci wcf wco b fb cc up hs
    st_r node X Hn P direction H0 hidden input_size out0 out1 :
  cell_call st_c cell x cs_prev h_prev w wci wcf wco b fb cc up hs ->
  rnn_call st_r node X Hn P direction H0 hidden input_size out0 out1 ->
  (exists st',
     LSTMBlockCell.version_1 cell st_c = (Ok tt, st') /\
     removals (new_events st_c st') = [] /\
     map name (nodes (graph st')) =
       (map name (nodes (graph st_c)) ++ map name (new_nodes st_c st'))%list) /\
  (exists st' before final final_hidden,
     CudnnRNN.version_11 node st_r = (Ok tt, st') /\
     new_events st_r st' =
       (before ++ EvRemove (name node) ::
        [EvMakeNode final; EvMakeNode final_hidden])%list /\
     removals before = [] /\
     removals (new_events st_r st') = [name node] /\
     output final = [out0] /\ output final_hidden = [out1]).
Proof.
  intros Hcell Hrnn. split.
  - destruct (cell_call_run _ _ _ _ _ _ _ _ _ _ _ _ _ _ Hcell)
      as (st' & d & cs & Hrun & Hl).
    exists st'. split; [exact Hrun|]. split.
    + rewrite (lc_history _ _ _ _ _ _ _ _ _ _ _ _ _ _ _ _ _ _ Hl).
      by rewrite removals_app, removals_creations, removals_rewire.
    + rewrite (lc_nodes _ _ _ _ _ _ _ _ _ _ _ _ _ _ _ _ _ _ Hl) at 1.
      rewrite map_app, map_map. f_equal. apply map_ext. intros n. apply name_rewire_all.
  - destruct (version_11_run _ _ _ _ _ _ _ _ _ _ _ Hrnn) as (st' & Hrun & Hl).
    apply lowered_rnn_events in Hl
      as (consts & scaffold & steps & final & final_hidden & Hev & _ & _ & _ & Hf & Hh).
    exists st',
      (map EvMakeConst consts ++ map EvMakeNode scaffold ++ map EvMakeNode steps)%list,
      final, final_hidden.
    split; [exact Hrun|]. split; [by rewrite Hev, <- !app_assoc|]. split; [|split; [|split]].
    + by rewrite !removals_app, removals_consts, !removals_nodes.
    + rewrite Hev, !removals_app, removals_consts, !removals_nodes. reflexivity.
    + unfold final_sig in Hf. destruct (num_dirs direction =? 2); by injection Hf.
    + by injection Hh.
Qed.

Lemma fused_node_removal_witness :
  (exists st',
     @LSTMBlockCell.version_1 float_inference example_cell example_state = (Ok tt, st') /\
     removals (new_events example_state st') = [] /\
     map name (nodes (graph st')) =
       (map name (nodes (graph example_state)) ++
        map name (new_nodes example_state st'))%list) /\
  (exists st' before final final_hidden,
     @CudnnRNN.version_11 float_inference example_rnn example_rnn_state = (Ok tt, st') /\
     new_events example_rnn_state st' =
       (before ++ EvRemove (name example_rnn) ::
        [EvMakeNode final; EvMakeNode final_hidden])%list /\
     removals before = [] /\
     removals (new_events example_rnn_state st') = [name example_rnn] /\
     output final = ["y"] /\ output final_hidden = ["yh"]).
Proof.
  exact (@fused_node_removal float_inference _ _ _ _ _ _ _ _ _ _ _ _ _ _
           _ _ _ _ _ _ _ _ _ _ _ example_cell_call (example_rnn_call 4 eq_refl)).
Defined.

(** * Further properties of the two handlers *)

(** ** The cell lowering on malformed nodes *)

(** Unpacking [node.input] into eight names fails on any other number of
    inputs: both entry points raise a ValueError and leave the graph, the
    name counter and the history untouched. *)
Theorem version_1_input_arity `{ShapeInference} st node :
  length (input node) <> 8%nat ->
  exists msg,
    LSTMBlockCell.version_1 node st = (Raise (ValueError msg), st) /\
    LSTMBlockCell.version_7 node st = (Raise (ValueError msg), st).
Proof.
  intros Hlen. exists "not enough values to unpack".
  unfold LSTMBlockCell.version_7, LSTMBlockCell.version_1.
  destruct (input node) as [|? [|? [|? [|? [|? [|? [|? [|? [|? ?]]]]]]]]];
    try done.
Qed.

Lemma version_1_input_arity_witness :
  exists msg,
    @LSTMBlockCell.version_1 float_inference consumer_node example_state
      = (Raise (ValueError msg), example_state) /\
    @LSTMBlockCell.version_7 float_inference consumer_node example_state
      = (Raise (ValueError msg), example_state).
Proof.
  apply (@version_1_input_arity float_inference example_state consumer_node).
  cbn. lia.
Defined.

Lemma fails_get_attr (n : Node) key (Q : State -> Prop) st :
  assoc key (attr n) = None -> Q st ->
  fails (get_attr n key) (AttributeError "'NoneType' object has no attribute") Q st.
Proof. intros Hk HQ. unfold get_attr. rewrite Hk. by apply fails_raise. Qed.

(** Reading [.f] or [.i] of an attribute the node does not carry raises an
    AttributeError; the three attributes are read before anything is
    created, so the state is untouched. *)
Theorem version_1_missing_attribute `{ShapeInference} st node :
  length (input node) = 8%nat ->
  assoc "forget_bias" (attr node) = None \/
  assoc "cell_clip" (attr node) = None \/
  assoc "use_peephole" (attr node) = None ->
  LSTMBlockCell.version_1 node st
  = (Raise (AttributeError "'NoneType' object has no attribute"), st).
Proof.
  intros Hlen Hmiss.
  enough (fails (LSTMBlockCell.version_1 node)
            (AttributeError "'NoneType' object has no attribute")
            (fun st' => st' = st) st) as (st' & Hrun & ->) by exact Hrun.
  unfold LSTMBlockCell.version_1.
  destruct (input node) as [|? [|? [|? [|? [|? [|? [|? [|? [|? ?]]]]]]]]];
    try discriminate.
  destruct (assoc "forget_bias" (attr node)) as [afb|] eqn:Hfb;
    [|by apply fails_here, fails_get_attr].
  apply fails_bind. eapply wp_get_attr; [exact Hfb|].
  destruct (assoc "cell_clip" (attr node)) as [acc|] eqn:Hcc;
    [|by apply fails_here, fails_get_attr].
  apply fails_bind. eapply wp_get_attr; [exact Hcc|].
  destruct (assoc "use_peephole" (attr node)) as [aup|] eqn:Hup;
    [|by apply fails_here, fails_get_attr].
  by destruct Hmiss as [?|[?|?]].
Qed.

Lemma version_1_missing_attribute_witness :
  @LSTMBlockCell.version_1 float_inference
     {| name := "cell"; op_type := "LSTMBlockCell";
        input := ["x"; "cs"; "hp"; "w"; "wci"; "wcf"; "wco"; "b"];
        output := ["i"; "c"; "f"; "o"; "ci"; "co"; "h"];
        attr := [("forget_bias", AttrF (Q2Qc 1)); ("use_peephole", AttrI 0)] |}
     example_state
  = (Raise (AttributeError "'NoneType' object has no attribute"), example_state).
Proof.
  apply (@version_1_missing_attribute float_inference); [reflexivity|].
  right. left. reflexivity.
Defined.

(** When nothing is recorded for the shape of the weight, [len(w_shape)]
    raises a TypeError; the Concat and the MatMul exist by then. *)
Theorem version_1_unknown_weight_shape `{ShapeInference}
    st node x cs_prev h_prev w wci wcf wco b afb acc aup :
  input node = [x; cs_prev; h_prev; w; wci; wcf; wco; b] ->
  assoc "forget_bias" (attr node) = Some afb ->
  assoc "cell_clip" (attr node) = Some acc ->
  assoc "use_peephole" (attr node) = Some aup ->
  shapes (graph st) !! w = None ->
  fresh_from (counter st) w ->
  exists st' xh xh_w,
    LSTMBlockCell.version_1 node st
      = (Raise (TypeError "object of type 'NoneType' has no len()"), st') /\
    new_events st st' = [EvMakeNode xh; EvMakeNode xh_w] /\
    nodes (graph st') = (nodes (graph st) ++ [xh; xh_w])%list /\
    sig xh = ("Concat", [x; h_prev], [out_name (name xh) 0], [("axis", AttrI 1)]) /\
    sig xh_w = ("MatMul", [out_name (name xh) 0; w], [out_name (name xh_w) 0], []).
Proof.
  intros Hin Hfb Hcc Hup Hw Hfw.
  enough (fails (LSTMBlockCell.version_1 node)
            (TypeError "object of type 'NoneType' has no len()")
            (fun st' => exists xh xh_w,
               trace st' = (trace st ++ [EvMakeNode xh; EvMakeNode xh_w])%list /\
               nodes (graph st') = (nodes (graph st) ++ [xh; xh_w])%list /\
               sig xh = ("Concat", [x; h_prev], [out_name (name xh) 0],
                         [("axis", AttrI 1)]) /\
               sig xh_w = ("MatMul", [out_name (name xh) 0; w],
                           [out_name (name xh_w) 0], [])) st)
    as (st' & Hrun & xh & xh_w & Htr & Hns & Hrest).
  { exists st', xh, xh_w. split; [exact Hrun|].
    unfold new_events. rewrite Htr, drop_app_length. by split. }
  unfold LSTMBlockCell.version_1. rewrite Hin.
  apply fails_bind. eapply wp_get_attr; [exact Hfb|].
  apply fails_bind. eapply wp_get_attr; [exact Hcc|].
  apply fails_bind. eapply wp_get_attr; [exact Hup|].
  apply fails_bind. wp_step.
  apply fails_bind. wp_step.
  apply fails_bind. wp_step.
  apply fails_bind. wp_step.
  rewrite !shapes_add_node_ne, Hw by (cbn [output default_outputs map seq]; solve_neqs).
  apply fails_here. cbn [len_shape]. apply fails_raise.
  eexists _, _. cbn [trace graph].
  split; [by rewrite <- app_assoc|].
  rewrite !nodes_add_node. split; [by rewrite <- app_assoc|]. by split.
Qed.

Lemma version_1_unknown_weight_shape_witness :
  exists st' xh xh_w,
    @LSTMBlockCell.version_1 float_inference example_cell example_state_no_shapes
      = (Raise (TypeError "object of type 'NoneType' has no len()"), st') /\
    new_events example_state_no_shapes st' = [EvMakeNode xh; EvMakeNode xh_w] /\
    nodes (graph st') = (nodes (graph example_state_no_shapes) ++ [xh; xh_w])%list /\
    sig xh = ("Concat", ["x"; "hp"], [out_name (name xh) 0], [("axis", AttrI 1)]) /\
    sig xh_w = ("MatMul", [out_name (name xh) 0; "w"], [out_name (name xh_w) 0], []).
Proof.
  apply (@version_1_unknown_weight_shape float_inference example_state_no_shapes
           example_cell "x" "cs" "hp" "w" "wci" "wcf" "wco" "b"
           (AttrF (Q2Qc 1)) (AttrF (Q2Qc (3 # 2))) (AttrI 0)).
  - reflexivity.
  - reflexivity.
  - reflexivity.
  - reflexivity.
  - reflexivity.
  - by apply no_underscore_fresh.
Defined.

(** ** What the cell lowering leaves alone *)

Lemma rewire_all_id ps n :
  (forall i, In i (input n) -> ~ In i (map fst ps)) -> rewire_all ps n = n.
Proof.
  unfold rewire_all. revert n. induction ps as [|[o v] ps IH]; intros n Hn; [done|].
  cbn [fold_left fst snd]. rewrite replace_input_id.
  - apply IH. intros i Hi Hin. apply (Hn i Hi). by right.
  - apply List.Forall_forall. intros i Hi ->. apply (Hn o Hi). by left.
Qed.

Lemma rewire_all_shape ps n :
  name (rewire_all ps n) = name n /\ op_type (rewire_all ps n) = op_type n /\
  output (rewire_all ps n) = output n /\ attr (rewire_all ps n) = attr n /\
  length (input (rewire_all ps n)) = length (input n).
Proof.
  unfold rewire_all. revert n. induction ps as [|p ps IH]; intros n; [done|].
  cbn [fold_left].
  destruct (IH (replace_input (fst p) (snd p) n)) as (-> & -> & -> & -> & ->).
  cbn [replace_input name op_type output attr input]. repeat split.
  apply List.length_map.
Qed.

(** A successful run keeps every node of the graph at its position,
    appends the nodes it creates, keeps the target version, and leaves a
    node that consumes none of the fused node's outputs exactly as it
    was. *)
Theorem version_1_frame `{ShapeInference}
    st node x cs_prev h_prev w wci wcf wco b fb cc up hs :
  cell_call st node x cs_prev h_prev w wci wcf wco b fb cc up hs ->
  exists st',
    LSTMBlockCell.version_1 node st = (Ok tt, st') /\
    opset (graph st') = opset (graph st) /\
    length (nodes (graph st')) =
      (length (nodes (graph st)) + length (new_nodes st st'))%nat /\
    forall k n,
      nodes (graph st) !! k = Some n ->
      (exists n', nodes (graph st') !! k = Some n' /\
                  name n' = name n /\ op_type n' = op_type n /\
                  output n' = output n /\ attr n' = attr n /\
                  length (input n') = length (input n)) /\
      ((forall i, In i (input n) -> ~ In i (output node)) ->
       nodes (graph st') !! k = Some n).
Proof.
  intros Hcall.
  destruct (cell_call_run _ _ _ _ _ _ _ _ _ _ _ _ _ _ Hcall)
    as (st' & d & cs & Hrun & Hl).
  pose proof (lc_nodes _ _ _ _ _ _ _ _ _ _ _ _ _ _ _ _ _ _ Hl) as Hns.
  pose proof (lc_rewired _ _ _ _ _ _ _ _ _ _ _ _ _ _ _ _ _ _ Hl) as Hrw.
  exists st'. split; [exact Hrun|].
  split; [exact (lc_opset _ _ _ _ _ _ _ _ _ _ _ _ _ _ _ _ _ _ Hl)|].
  split; [by rewrite Hns at 1; rewrite length_app, length_map|].
  intros k n Hk.
  assert (nodes (graph st') !! k
          = Some (rewire_all (rewirings (new_events st st')) n)) as Hk'.
  { rewrite Hns. rewrite lookup_app_l.
    - by rewrite list_lookup_fmap, Hk.
    - rewrite length_map. by eapply lookup_lt_Some. }
  split.
  - eexists. split; [exact Hk'|]. apply rewire_all_shape.
  - intros Hfree. rewrite Hk'. f_equal. apply rewire_all_id. by rewrite Hrw.
Qed.

Lemma version_1_frame_witness :
  exists st',
    @LSTMBlockCell.version_1 float_inference example_cell example_state = (Ok tt, st') /\
    opset (graph st') = opset (graph example_state) /\
    length (nodes (graph st')) =
      (length (nodes (graph example_state)) + length (new_nodes example_state st'))%nat /\
    forall k n,
      nodes (graph example_state) !! k = Some n ->
      (exists n', nodes (graph st') !! k = Some n' /\
                  name n' = name n /\ op_type n' = op_type n /\
                  output n' = output n /\ attr n' = attr n /\
                  length (input n') = length (input n)) /\
      ((forall i, In i (input n) -> ~ In i (output example_cell)) ->
       nodes (graph st') !! k = Some n).
Proof.
  exact (@version_1_frame float_inference _ _ _ _ _ _ _ _ _ _ _ _ _ _ example_cell_call).
Defined.

(** ** The multi-layer lowering on malformed nodes *)

Lemma fails_index {A} (l : list A) k (Q : State -> Prop) st :
  nth_error l k = None -> Q st -> fails (index l k) IndexError Q st.
Proof. intros Hk HQ. unfold index. rewrite Hk. by apply fails_raise. Qed.

Lemma fails_getitem {A} (d : list (string * A)) key (Q : State -> Prop) st :
  assoc key d = None -> Q st -> fails (getitem d key) (KeyError key) Q st.
Proof. intros Hk HQ. unfold getitem. rewrite Hk. by apply fails_raise. Qed.

Lemma fails_run {A} (c : M A) e st :
  fails c e (fun st' => st' = st) st -> c st = (Raise e, st).
Proof. by intros (st' & Hrun & ->). Qed.

(** [node.input[0]], [node.input[1]] and [node.input[3]] are read before
    the configuration checks: a node with fewer than four inputs raises an
    IndexError, whatever its attributes, and the state is untouched. *)
Theorem version_11_too_few_inputs `{ShapeInference} st node :
  (length (input node) < 4)%nat ->
  CudnnRNN.version_11 node st = (Raise IndexError, st).
Proof.
  intros Hlen. apply fails_run. unfold CudnnRNN.version_11.
  destruct (input node) as [|X [|Hn [|c [|P rest]]]]; cbn [length] in Hlen; try lia.
  - by apply fails_here, fails_index.
  - apply fails_bind. eapply wp_index; [reflexivity|].
    apply fails_bind. apply wp_get_shape.
    by apply fails_here, fails_index.
  - apply fails_bind. eapply wp_index; [reflexivity|].
    apply fails_bind. apply wp_get_shape.
    apply fails_bind. eapply wp_index; [reflexivity|].
    apply fails_bind. apply wp_get_shape.
    by apply fails_here, fails_index.
  - apply fails_bind. eapply wp_index; [reflexivity|].
    apply fails_bind. apply wp_get_shape.
    apply fails_bind. eapply wp_index; [reflexivity|].
    apply fails_bind. apply wp_get_shape.
    by apply fails_here, fails_index.
Qed.

Lemma version_11_too_few_inputs_witness :
  @CudnnRNN.version_11 float_inference consumer_node example_state
  = (Raise IndexError, example_state).
Proof.
  apply (@version_11_too_few_inputs float_inference example_state consumer_node).
  cbn. lia.
Defined.

Ltac rnn_inputs HX HH HP :=
  unfold CudnnRNN.version_11;
  apply fails_bind; (eapply wp_index; [exact HX|]);
  apply fails_bind; apply wp_get_shape;
  apply fails_bind; (eapply wp_index; [exact HH|]);
  apply fails_bind; apply wp_get_shape;
  apply fails_bind; (eapply wp_index; [exact HP|]).

(** [node.attr[key]] raises a KeyError that carries the key, for the first
    of "rnn_mode", "dropout", "input_mode" and "direction" that the node
    lacks while the checks before it pass; the state is untouched. *)
Theorem version_11_missing_attribute `{ShapeInference} st node X Hn P :
  nth_error (input node) 0 = Some X ->
  nth_error (input node) 1 = Some Hn ->
  nth_error (input node) 3 = Some P ->
  (assoc "rnn_mode" (attr node) = None ->
   CudnnRNN.version_11 node st = (Raise (KeyError "rnn_mode"), st)) /\
  (forall mode, assoc "rnn_mode" (attr node) = Some mode -> attr_s mode = "gru" ->
   (assoc "dropout" (attr node) = None ->
    CudnnRNN.version_11 node st = (Raise (KeyError "dropout"), st)) /\
   (forall dropout, assoc "dropout" (attr node) = Some dropout ->
    attr_f dropout = Q2Qc 0 ->
    (assoc "input_mode" (attr node) = None ->
     CudnnRNN.version_11 node st = (Raise (KeyError "input_mode"), st)) /\
    (forall input_mode, assoc "input_mode" (attr node) = Some input_mode ->
     attr_s input_mode = "linear_input" ->
     assoc "direction" (attr node) = None ->
     CudnnRNN.version_11 node st = (Raise (KeyError "direction"), st)))).
Proof.
  intros HX HH HP.
  split; [|intros mode Hmode Hgru; split;
           [|intros dropout Hdrop Hzero; split; [|intros input_mode Hin Hlin]]];
    intros Hmiss; apply fails_run; rnn_inputs HX HH HP.
  - by apply fails_here, fails_getitem.
  - apply fails_bind. eapply wp_getitem; [exact Hmode|].
    apply fails_bind. apply wp_make_sure; [by apply String.eqb_eq|].
    by apply fails_here, fails_getitem.
  - apply fails_bind. eapply wp_getitem; [exact Hmode|].
    apply fails_bind. apply wp_make_sure; [by apply String.eqb_eq|].
    apply fails_bind. eapply wp_getitem; [exact Hdrop|].
    apply fails_bind. apply wp_make_sure; [by apply bool_decide_eq_true_2|].
    by apply fails_here, fails_getitem.
  - apply fails_bind. eapply wp_getitem; [exact Hmode|].
    apply fails_bind. apply wp_make_sure; [by apply String.eqb_eq|].
    apply fails_bind. eapply wp_getitem; [exact Hdrop|].
    apply fails_bind. apply wp_make_sure; [by apply bool_decide_eq_true_2|].
    apply fails_bind. eapply wp_getitem; [exact Hin|].
    apply fails_bind. apply wp_make_sure; [by apply String.eqb_eq|].
    by apply fails_here, fails_getitem.
Qed.

Lemma fails_subscript_none k (Q : State -> Prop) st :
  Q st -> fails (subscript None k) (TypeError "'NoneType' object is not subscriptable") Q st.
Proof. intros HQ. by apply fails_raise. Qed.

Lemma fails_subscript_short l k (Q : State -> Prop) st :
  (length l <= k)%nat -> Q st -> fails (subscript (Some l) k) IndexError Q st.
Proof. intros Hk HQ. apply fails_index; [|done]. by apply nth_error_None. Qed.

Lemma nth_error_lt {A} (l : list A) k : (k < length l)%nat -> exists a, nth_error l k = Some a.
Proof.
  intros Hk. destruct (nth_error l k) eqn:Hn; [by eexists|].
  apply nth_error_None in Hn. lia.
Qed.

(** Once the three checks pass, the leading and the third dimension of
    the initial hidden states and the third dimension of the input are
    read, in this order: a shape that is not recorded raises a TypeError, a
    shape of fewer than three dimensions an IndexError, and in each case
    nothing has been created. *)
Theorem version_11_shape_errors `{ShapeInference} st node X Hn P direction :
  nth_error (input node) 0 = Some X ->
  nth_error (input node) 1 = Some Hn ->
  nth_error (input node) 3 = Some P ->
  attr_s <$> assoc "rnn_mode" (attr node) = Some "gru" ->
  attr_f <$> assoc "dropout" (attr node) = Some (Q2Qc 0) ->
  attr_s <$> assoc "input_mode" (attr node) = Some "linear_input" ->
  attr_s <$> assoc "direction" (attr node) = Some direction ->
  (shapes (graph st) !! Hn = None ->
   CudnnRNN.version_11 node st
   = (Raise (TypeError "'NoneType' object is not subscriptable"), st)) /\
  (forall hs, shapes (graph st) !! Hn = Some hs ->
   ((length hs < 3)%nat -> CudnnRNN.version_11 node st = (Raise IndexError, st)) /\
   ((3 <= length hs)%nat ->
    (shapes (graph st) !! X = None ->
     CudnnRNN.version_11 node st
     = (Raise (TypeError "'NoneType' object is not subscriptable"), st)) /\
    (forall xs, shapes (graph st) !! X = Some xs -> (length xs < 3)%nat ->
     CudnnRNN.version_11 node st = (Raise IndexError, st)))).
Proof.
  intros HX HH HP Hmode Hdrop Hin Hdir.
  destruct (assoc "rnn_mode" (attr node)) as [amode|] eqn:Hamode; [|discriminate].
  destruct (assoc "dropout" (attr node)) as [adrop|] eqn:Hadrop; [|discriminate].
  destruct (assoc "input_mode" (attr node)) as [ain|] eqn:Hain; [|discriminate].
  destruct (assoc "direction" (attr node)) as [adir|] eqn:Hadir; [|discriminate].
  cbn in Hmode, Hdrop, Hin, Hdir.
  injection Hmode as Hmode. injection Hdrop as Hdrop. injection Hin as Hin.
  split; [intros Hnone|intros hs Hhs; split;
                        [intros Hshort|intros Hlong; split;
                                        [intros Hxnone|intros xs Hxs Hxshort]]];
    apply fails_run; rnn_inputs HX HH HP.
  all: apply fails_bind; (eapply wp_getitem; [exact Hamode|]).
  all: apply fails_bind; (apply wp_make_sure; [by apply String.eqb_eq|]).
  all: apply fails_bind; (eapply wp_getitem; [exact Hadrop|]).
  all: apply fails_bind; (apply wp_make_sure; [by apply bool_decide_eq_true_2|]).
  all: apply fails_bind; (eapply wp_getitem; [exact Hain|]).
  all: apply fails_bind; (apply wp_make_sure; [by apply String.eqb_eq|]).
  all: apply fails_bind; (eapply wp_getitem; [exact Hadir|]).
  - rewrite Hnone. by apply fails_here, fails_subscript_none.
  - rewrite Hhs. destruct hs as [|h0 hs'].
    + apply fails_here, fails_subscript_short; [cbn; lia|done].
    + apply fails_bind. eapply wp_subscript; [reflexivity|reflexivity|].
      apply fails_here, fails_subscript_short; [lia|done].
  - rewrite Hhs, Hxnone.
    destruct (nth_error_lt hs 0 ltac:(lia)) as (h0 & Hh0).
    destruct (nth_error_lt hs 2 ltac:(lia)) as (h2 & Hh2).
    apply fails_bind. eapply wp_subscript; [reflexivity|exact Hh0|].
    apply fails_bind. eapply wp_subscript; [reflexivity|exact Hh2|].
    by apply fails_here, fails_subscript_none.
  - rewrite Hhs, Hxs.
    destruct (nth_error_lt hs 0 ltac:(lia)) as (h0 & Hh0).
    destruct (nth_error_lt hs 2 ltac:(lia)) as (h2 & Hh2).
    apply fails_bind. eapply wp_subscript; [reflexivity|exact Hh0|].
    apply fails_bind. eapply wp_subscript; [reflexivity|exact Hh2|].
    apply fails_here, fails_subscript_short; [lia|done].
Qed.

Lemma version_11_missing_attribute_witness :
  (assoc "rnn_mode" (@nil (string * attr_value)) = None ->
   @CudnnRNN.version_11 float_inference
      {| name := "net"; op_type := "CudnnRNN"; input := ["x"; "h"; "c"; "p"];
         output := ["y"; "yh"]; attr := [] |} example_rnn_state
   = (Raise (KeyError "rnn_mode"), example_rnn_state)) /\
  (forall mode, assoc "rnn_mode" (@nil (string * attr_value)) = Some mode ->
   attr_s mode = "gru" ->
   (assoc "dropout" (@nil (string * attr_value)) = None ->
    @CudnnRNN.version_11 float_inference
      {| name := "net"; op_type := "CudnnRNN"; input := ["x"; "h"; "c"; "p"];
         output := ["y"; "yh"]; attr := [] |} example_rnn_state
    = (Raise (KeyError "dropout"), example_rnn_state)) /\
   (forall dropout, assoc "dropout" (@nil (string * attr_value)) = Some dropout ->
    attr_f dropout = Q2Qc 0 ->
    (assoc "input_mode" (@nil (string * attr_value)) = None ->
     @CudnnRNN.version_11 float_inference
      {| name := "net"; op_type := "CudnnRNN"; input := ["x"; "h"; "c"; "p"];
         output := ["y"; "yh"]; attr := [] |} example_rnn_state
     = (Raise (KeyError "input_mode"), example_rnn_state)) /\
    (forall input_mode,
     assoc "input_mode" (@nil (string * attr_value)) = Some input_mode ->
     attr_s input_mode = "linear_input" ->
     assoc "direction" (@nil (string * attr_value)) = None ->
     @CudnnRNN.version_11 float_inference
      {| name := "net"; op_type := "CudnnRNN"; input := ["x"; "h"; "c"; "p"];
         output := ["y"; "yh"]; attr := [] |} example_rnn_state
     = (Raise (KeyError "direction"), example_rnn_state)))).
Proof.
  exact (@version_11_missing_attribute float_inference example_rnn_state
           {| name := "net"; op_type := "CudnnRNN"; input := ["x"; "h"; "c"; "p"];
              output := ["y"; "yh"]; attr := [] |} "x" "h" "p"
           eq_refl eq_refl eq_refl).
Defined.

Lemma version_11_shape_errors_witness :
  (shapes (graph example_state_no_shapes) !! "h" = None ->
   @CudnnRNN.version_11 float_inference example_rnn example_state_no_shapes
   = (Raise (TypeError "'NoneType' object is not subscriptable"),
      example_state_no_shapes)) /\
  (forall hs, shapes (graph example_state_no_shapes) !! "h" = Some hs ->
   ((length hs < 3)%nat ->
    @CudnnRNN.version_11 float_inference example_rnn example_state_no_shapes
    = (Raise IndexError, example_state_no_shapes)) /\
   ((3 <= length hs)%nat ->
    (shapes (graph example_state_no_shapes) !! "x" = None ->
     @CudnnRNN.version_11 float_inference example_rnn example_state_no_shapes
     = (Raise (TypeError "'NoneType' object is not subscriptable"),
        example_state_no_shapes)) /\
    (forall xs, shapes (graph example_state_no_shapes) !! "x" = Some xs ->
     (length xs < 3)%nat ->
     @CudnnRNN.version_11 float_inference example_rnn example_state_no_shapes
     = (Raise IndexError, example_state_no_shapes)))).
Proof.
  exact (@version_11_shape_errors float_inference example_state_no_shapes example_rnn
           "x" "h" "p" "bidirectional" eq_refl eq_refl eq_refl eq_refl eq_refl eq_refl
           eq_refl).
Defined.

(** ** The multi-layer lowering on degenerate layer counts *)

Lemma num_dirs_cases direction : num_dirs direction = 1 \/ num_dirs direction = 2.
Proof. unfold num_dirs. destruct (String.eqb direction "unidirectional"); tauto. Qed.

Lemma range_nonpos n : n <= 0 -> range n = [].
Proof. intros Hn. unfold range. by replace (Z.to_nat n) with 0%nat by lia. Qed.

Lemma map_op_type_sig ns : map op_type ns = map sig_op (map sig ns).
Proof. by rewrite map_map. Qed.

(** When the leading dimension of the initial hidden states is unknown
    (recorded as -1) and the network is unidirectional, the lowering still
    succeeds: the layer count is -1, so it builds the scaffold, with Split
    nodes that have no outputs, and no recurrent operator, binds the first
    output to an Identity of the network input and the second output to a
    Concat without inputs. *)
Theorem version_11_unknown_layer_count `{ShapeInference}
    st node X Hn P hidden input_size out0 out1 :
  rnn_call st node X Hn P "unidirectional" (-1) hidden input_size out0 out1 ->
  exists st' scaffold final final_hidden,
    CudnnRNN.version_11 node st = (Ok tt, st') /\
    primitives (new_events st st') = (scaffold ++ [final; final_hidden])%list /\
    map op_type scaffold =
      ["Slice"; "Slice"; "Slice"; "Reshape"; "Reshape"; "Reshape";
       "Split"; "Split"; "Split"; "Split"] /\
    Forall (fun n => output n = []) (drop 6 scaffold) /\
    sig final = ("Identity", [X], [out0], []) /\
    sig final_hidden = ("Concat", [], [out1], [("axis", AttrI 0)]).
Proof.
  intros Hcall.
  destruct (version_11_run _ _ _ _ _ _ _ _ _ _ _ Hcall) as (st' & Hrun & Hl).
  apply lowered_rnn_events in Hl
    as (consts & scaffold & steps & final & final_hidden & Hev & Hc & Hs & Hst & Hf & Hh).
  change (num_dirs "unidirectional") with 1 in *.
  change (int_div (-1) 1) with (-1) in *.
  rewrite range_nonpos in Hst by done. cbn [flat_map] in Hst.
  apply map_eq_nil in Hst. subst steps.
  unfold final_hidden_sig, names in Hh. rewrite range_nonpos in Hh by done.
  unfold scaffold_sig, names in Hs. rewrite range_nonpos in Hs by done.
  exists st', scaffold, final, final_hidden.
  split; [exact Hrun|]. rewrite Hev.
  rewrite !primitives_app, primitives_consts, !primitives_nodes. cbn [app map primitives].
  split; [reflexivity|].
  split; [by rewrite map_op_type_sig, Hs|].
  split; [|split; [exact Hf|exact Hh]].
  do 11 (destruct scaffold as [|? scaffold]; try discriminate).
  cbn [map] in Hs. unfold sig in Hs. cbn [drop].
  repeat (apply List.Forall_cons; [injection Hs; intros; congruence|]).
  apply List.Forall_nil.
Qed.

Lemma unidirectional_rnn_call (H0 : Z) :
  in_int64 (int_div H0 1 * 1) = true ->
  @rnn_call (rnn_state example_rnn_uni H0 5 3) example_rnn_uni "x" "h" "p" "unidirectional"
    H0 5 3 "y" "yh".
Proof.
  intros Hint. split; try reflexivity.
  - eexists. split; [reflexivity|]. by split.
  - eexists. split; [reflexivity|]. done.
  - cbn [forallb]. change (num_dirs "unidirectional") with 1. by rewrite Hint.
Qed.

Lemma version_11_unknown_layer_count_witness :
  exists st' scaffold final final_hidden,
    @CudnnRNN.version_11 float_inference example_rnn_uni example_rnn_state_unknown
      = (Ok tt, st') /\
    primitives (new_events example_rnn_state_unknown st')
      = (scaffold ++ [final; final_hidden])%list /\
    map op_type scaffold =
      ["Slice"; "Slice"; "Slice"; "Reshape"; "Reshape"; "Reshape";
       "Split"; "Split"; "Split"; "Split"] /\
    Forall (fun n => output n = []) (drop 6 scaffold) /\
    sig final = ("Identity", ["x"], ["y"], []) /\
    sig final_hidden = ("Concat", [], ["yh"], [("axis", AttrI 0)]).
Proof.
  apply (@version_11_unknown_layer_count float_inference example_rnn_state_unknown
           example_rnn_uni "x" "h" "p" 5 3 "y" "yh").
  by apply (unidirectional_rnn_call (-1)).
Defined.

(** ** The packed parameters *)

Lemma wrap64_id z : in_int64 z = true -> wrap64 z = z.
Proof.
  unfold in_int64, wrap64, int64_min, int64_max. intros Hz.
  apply andb_prop in Hz as [Hlo Hhi]. apply Z.leb_le in Hlo, Hhi.
  rewrite Z.mod_small; lia.
Qed.

(** The seven int64 constants are, in order and under these generated
    names: the shapes [layers*dirs, 3*hidden, input_size],
    [layers*dirs, 3*hidden, hidden] and [layers*dirs, 6*hidden], the offset
    0, and the ends of the weight, recurrence and bias segments.  While the
    sizes fit int64 the ends are the running sums of the segment sizes, and
    the three slices of the packed parameters cut [0, w_end), [w_end, r_end)
    and [r_end, b_end), in this order. *)
Theorem version_11_parameter_segments `{ShapeInference}
    st node X Hn P direction H0 hidden input_size out0 out1 :
  rnn_call st node X Hn P direction H0 hidden input_size out0 out1 ->
  let count := int_div H0 (num_dirs direction) * num_dirs direction in
  let w_size := count * (3 * hidden) * input_size in
  let r_size := count * (3 * hidden) * hidden in
  let b_size := count * (6 * hidden) in
  in_int64 w_size = true -> in_int64 r_size = true -> in_int64 b_size = true ->
  in_int64 (w_size + r_size) = true -> in_int64 (w_size + r_size + b_size) = true ->
  exists st' slices rest,
    CudnnRNN.version_11 node st = (Ok tt, st') /\
    map (fun n => (name n, const_tensor n)) (constants (new_events st st')) =
      [(make_name_str "w_shape" (1 + counter st),
        Some (int64_array [count; 3 * hidden; input_size]));
       (make_name_str "r_shape" (2 + counter st),
        Some (int64_array [count; 3 * hidden; hidden]));
       (make_name_str "b_shape" (3 + counter st),
        Some (int64_array [count; 6 * hidden]));
       (make_name_str "zero" (4 + counter st), Some (int64_array [0]));
       (make_name_str "w_end" (5 + counter st), Some (int64_array [w_size]));
       (make_name_str "r_end" (6 + counter st), Some (int64_array [w_size + r_size]));
       (make_name_str "b_end" (7 + counter st),
        Some (int64_array [w_size + r_size + b_size]))] /\
    primitives (new_events st st') = (slices ++ rest)%list /\
    map (fun n => (op_type n, input n)) slices =
      [("Slice", [P; make_name_str "zero" (4 + counter st);
                  make_name_str "w_end" (5 + counter st)]);
       ("Slice", [P; make_name_str "w_end" (5 + counter st);
                  make_name_str "r_end" (6 + counter st)]);
       ("Slice", [P; make_name_str "r_end" (6 + counter st);
                  make_name_str "b_end" (7 + counter st)])].
Proof.
  intros Hcall count w_size r_size b_size Hw Hr Hb Hwr Hwrb.
  destruct (version_11_run _ _ _ _ _ _ _ _ _ _ _ Hcall) as (st' & Hrun & Hl).
  destruct Hl as (consts & scaffold & steps & final & final_hidden & Htr & _ & Hnm & _
                  & Hc & Hs & _).
  fold count in Hc, Hs.
  assert (new_events st st' =
          (map EvMakeConst consts ++ map EvMakeNode scaffold ++ map EvMakeNode steps ++
           EvRemove (name node) :: [EvMakeNode final; EvMakeNode final_hidden])%list)
    as Hev by (unfold new_events; rewrite Htr; apply drop_app_length).
  do 8 (destruct consts as [|? consts]; try discriminate).
  do 11 (destruct scaffold as [|? scaffold]; try discriminate).
  match goal with
  | _ : map sig (?s1 :: ?s2 :: ?s3 :: ?more) = _ |- _ =>
    exists st', [s1; s2; s3],
      (more ++ steps ++ [final; final_hidden])%list
  end.
  split; [exact Hrun|]. rewrite Hev.
  rewrite !constants_app, constants_consts, !constants_nodes.
  rewrite !primitives_app, primitives_consts, !primitives_nodes.
  cbn [constants primitives omap list_omap app map].
  assert (np_prod [count; 3 * hidden; input_size] = w_size) as Hpw
    by (unfold np_prod; cbn [fold_right]; rewrite <- (wrap64_id _ Hw); f_equal;
        unfold w_size; ring).
  assert (np_prod [count; 3 * hidden; hidden] = r_size) as Hpr
    by (unfold np_prod; cbn [fold_right]; rewrite <- (wrap64_id _ Hr); f_equal;
        unfold r_size; ring).
  assert (np_prod [count; 6 * hidden] = b_size) as Hpb
    by (unfold np_prod; cbn [fold_right]; rewrite <- (wrap64_id _ Hb); f_equal;
        unfold b_size; ring).
  unfold rnn_constants in Hc. cbv zeta in Hc. fold count in Hc.
  rewrite Hpw, Hpr, Hpb in Hc.
  unfold np_add in Hc. rewrite (wrap64_id _ Hwr), (wrap64_id _ Hwrb) in Hc.
  cbn [map] in Hnm, Hc, Hs. unfold rnn_constant_names in Hnm.
  injection Hnm as -> -> -> -> -> -> ->. injection Hc as -> -> -> -> -> -> ->.
  split; [reflexivity|]. split; [reflexivity|].
  unfold scaffold_sig, sig in Hs. cbv zeta in Hs.
  injection Hs; intros. cbn [map]. congruence.
Qed.

Lemma version_11_parameter_segments_witness :
  let count := int_div 4 (num_dirs "bidirectional") * num_dirs "bidirectional" in
  let w_size := count * (3 * 5) * 3 in
  let r_size := count * (3 * 5) * 5 in
  let b_size := count * (6 * 5) in
  exists st' slices rest,
    @CudnnRNN.version_11 float_inference example_rnn example_rnn_state = (Ok tt, st') /\
    map (fun n => (name n, const_tensor n)) (constants (new_events example_rnn_state st')) =
      [(make_name_str "w_shape" (1 + counter example_rnn_state),
        Some (int64_array [count; 3 * 5; 3]));
       (make_name_str "r_shape" (2 + counter example_rnn_state),
        Some (int64_array [count; 3 * 5; 5]));
       (make_name_str "b_shape" (3 + counter example_rnn_state),
        Some (int64_array [count; 6 * 5]));
       (make_name_str "zero" (4 + counter example_rnn_state), Some (int64_array [0]));
       (make_name_str "w_end" (5 + counter example_rnn_state), Some (int64_array [w_size]));
       (make_name_str "r_end" (6 + counter example_rnn_state),
        Some (int64_array [w_size + r_size]));
       (make_name_str "b_end" (7 + counter example_rnn_state),
        Some (int64_array [w_size + r_size + b_size]))] /\
    primitives (new_events example_rnn_state st') = (slices ++ rest)%list /\
    map (fun n => (op_type n, input n)) slices =
      [("Slice", ["p"; make_name_str "zero" (4 + counter example_rnn_state);
                  make_name_str "w_end" (5 + counter example_rnn_state)]);
       ("Slice", ["p"; make_name_str "w_end" (5 + counter example_rnn_state);
                  make_name_str "r_end" (6 + counter example_rnn_state)]);
       ("Slice", ["p"; make_name_str "r_end" (6 + counter example_rnn_state);
                  make_name_str "b_end" (7 + counter example_rnn_state)])].
Proof.
  exact (@version_11_parameter_segments float_inference _ _ _ _ _ _ _ _ _ _ _
           (example_rnn_call 4 eq_refl) eq_refl eq_refl eq_refl eq_refl eq_refl).
Defined.

(** ** The wiring of the layers *)

Lemma range_In (j n : Z) : 0 <= j < n -> In j (range n).
Proof.
  intros Hj. unfold range. apply in_map_iff. exists (Z.to_nat j).
  split; [lia|]. apply in_seq. lia.
Qed.

Lemma In_range (j n : Z) : In j (range n) -> 0 <= j < n.
Proof.
  unfold range. intros Hj. apply in_map_iff in Hj as (k & <- & Hk).
  apply in_seq in Hk. lia.
Qed.

Lemma range_NoDup n : NoDup (range n).
Proof.
  unfold range. apply (NoDup_fmap_2 Z.of_nat), NoDup_seq.
Qed.

Lemma names_NoDup node count prefix : NoDup (names node count prefix).
Proof.
  assert (Inj (=) (=) (fun i : Z => CudnnRNN.NM node (prefix +:+ str i))) as Hinj.
  { intros i j Heq. apply NM_inj in Heq. apply (inj (String.app prefix)) in Heq.
    by apply (inj pretty) in Heq. }
  unfold names. apply (NoDup_fmap_2 _), range_NoDup.
Qed.

Lemma names_In node count prefix j :
  0 <= j < count -> In (CudnnRNN.NM node (prefix +:+ str j)) (names node count prefix).
Proof.
  intros Hj. unfold names. apply in_map_iff. exists j. split; [done|]. by apply range_In.
Qed.

(** The four Split nodes hand out the per-layer, per-direction weights,
    recurrences, biases and initial states under pairwise distinct names,
    and every recurrent operator reads its weight, recurrence, bias and
    initial state from among these names: no parameter input of a layer
    dangles, also when the layer count was truncated. *)
Theorem version_11_parameters_wired `{ShapeInference}
    st node X Hn P direction H0 hidden input_size out0 out1 :
  rnn_call st node X Hn P direction H0 hidden input_size out0 out1 ->
  let dirs := num_dirs direction in
  let count := int_div H0 dirs * dirs in
  exists st' before splits steps rest,
    CudnnRNN.version_11 node st = (Ok tt, st') /\
    primitives (new_events st st') = (before ++ splits ++ steps ++ rest)%list /\
    length before = 6%nat /\ length rest = 2%nat /\
    map (fun n => (op_type n, input n, output n)) splits =
      [("Split", [make_name_str "W" (11 + counter st)], names node count "W_");
       ("Split", [make_name_str "R" (12 + counter st)], names node count "R_");
       ("Split", [make_name_str "B" (13 + counter st)], names node count "B_");
       ("Split", [Hn], names node count "H_")] /\
    Forall (fun n => NoDup (output n)) splits /\
    Forall (fun n => op_type n = "GRU" \/ op_type n = "Squeeze") steps /\
    Forall (fun n =>
              op_type n = "GRU" ->
              exists XN w r b h,
                input n = [XN; w; r; b; ""; h] /\
                In w (names node count "W_") /\ In r (names node count "R_") /\
                In b (names node count "B_") /\ In h (names node count "H_")) steps.
Proof.
  intros Hcall dirs count.
  destruct (version_11_run _ _ _ _ _ _ _ _ _ _ _ Hcall) as (st' & Hrun & Hl).
  apply lowered_rnn_events in Hl
    as (consts & scaffold & steps & final & final_hidden & Hev & _ & Hs & Hst & _ & _).
  fold dirs in Hs, Hst. fold count in Hs.
  do 11 (destruct scaffold as [|? scaffold]; try discriminate).
  match goal with
  | _ : map sig (?s1 :: ?s2 :: ?s3 :: ?s4 :: ?s5 :: ?s6 :: ?more) = _ |- _ =>
    exists st', [s1; s2; s3; s4; s5; s6], more, steps, [final; final_hidden]
  end.
  split; [exact Hrun|]. rewrite Hev.
  rewrite !primitives_app, primitives_consts, !primitives_nodes.
  cbn [primitives omap list_omap app map].
  split; [reflexivity|]. split; [reflexivity|]. split; [reflexivity|].
  unfold scaffold_sig, sig in Hs. cbv zeta in Hs. cbn [map] in Hs.
  injection Hs; intros.
  split; [cbn [map]; congruence|].
  split.
  { repeat (apply List.Forall_cons;
            [match goal with
             | Ho : output ?n = names _ _ _ |- NoDup (output ?n) =>
               rewrite Ho; apply names_NoDup
             end|]).
    apply List.Forall_nil. }
  assert (forall s, In s (map sig steps) ->
            (sig_op s = "GRU" \/ sig_op s = "Squeeze") /\
            (sig_op s = "GRU" ->
             exists XN w r b h,
               sig_inputs s = [XN; w; r; b; ""; h] /\
               In w (names node count "W_") /\ In r (names node count "R_") /\
               In b (names node count "B_") /\ In h (names node count "H_"))) as Hall.
  { intros s Hin. rewrite Hst in Hin. apply in_flat_map in Hin as (i & Hi & Hin).
    apply In_range in Hi.
    assert (dirs = 1 \/ dirs = 2) as Hd by apply num_dirs_cases.
    assert (0 <= i * dirs < count) as Hfwd by (unfold count; nia).
    unfold layer_sig, gru_sig in Hin.
    destruct (dirs =? 2) eqn:Hd2.
    - apply Z.eqb_eq in Hd2.
      assert (0 <= i * 2 + 1 < count) as Hbwd by (unfold count; nia).
      cbn [app In] in Hin.
      destruct Hin as [<-|[<-|[<-|[<-|[]]]]]; (split; [cbn; tauto|]);
        intros Hop; try discriminate;
        eexists _, _, _, _, _; (split; [reflexivity|]);
        repeat split;
        match goal with
        | |- In _ (names _ _ ?p) =>
          first [ by apply (names_In node count p (i * dirs))
                | by apply (names_In node count p (i * 2 + 1)) ]
        end.
    - cbn [app In] in Hin.
      destruct Hin as [<-|[<-|[]]]; (split; [cbn; tauto|]);
        intros Hop; try discriminate;
        eexists _, _, _, _, _; (split; [reflexivity|]);
        repeat split;
        match goal with
        | |- In _ (names _ _ ?p) =>
          first [ by apply (names_In node count p (i * dirs))
                | by apply (names_In node count p (i * 2 + 1)) ]
        end. }
  split; apply List.Forall_forall; intros m Hm;
    destruct (Hall (sig m) (in_map sig _ _ Hm)) as [Hop Hgru]; [exact Hop|exact Hgru].
Qed.

Lemma version_11_parameters_wired_witness :
  let dirs := num_dirs "bidirectional" in
  let count := int_div 4 dirs * dirs in
  exists st' before splits steps rest,
    @CudnnRNN.version_11 float_inference example_rnn example_rnn_state = (Ok tt, st') /\
    primitives (new_events example_rnn_state st')
      = (before ++ splits ++ steps ++ rest)%list /\
    length before = 6%nat /\ length rest = 2%nat /\
    map (fun n => (op_type n, input n, output n)) splits =
      [("Split", [make_name_str "W" (11 + counter example_rnn_state)],
        names example_rnn count "W_");
       ("Split", [make_name_str "R" (12 + counter example_rnn_state)],
        names example_rnn count "R_");
       ("Split", [make_name_str "B" (13 + counter example_rnn_state)],
        names example_rnn count "B_");
       ("Split", ["h"], names example_rnn count "H_")] /\
    Forall (fun n => NoDup (output n)) splits /\
    Forall (fun n => op_type n = "GRU" \/ op_type n = "Squeeze") steps /\
    Forall (fun n =>
              op_type n = "GRU" ->
              exists XN w r b h,
                input n = [XN; w; r; b; ""; h] /\
                In w (names example_rnn count "W_") /\
                In r (names example_rnn count "R_") /\
                In b (names example_rnn count "B_") /\
                In h (names example_rnn count "H_")) steps.
Proof.
  exact (@version_11_parameters_wired float_inference _ _ _ _ _ _ _ _ _ _ _
           (example_rnn_call 4 eq_refl)).
Defined.

Lemma range_double_from (n : nat) :
  forall a : nat,
    map Z.of_nat (seq (2 * a) (2 * n)) =
    flat_map (fun i => [i * 2; i * 2 + 1]) (map Z.of_nat (seq a n)).
Proof.
  induction n as [|n IH]; intros a; [done|].
  replace (2 * S n)%nat with (S (S (2 * n))) by lia.
  cbn [seq map flat_map app]. f_equal; [lia|]. f_equal; [lia|].
  replace (S (S (2 * a))) with (2 * S a)%nat by lia. apply IH.
Qed.

Lemma range_double (n : Z) : range (n * 2) = flat_map (fun i => [i * 2; i * 2 + 1]) (range n).
Proof.
  unfold range. destruct (Z.le_gt_cases 0 n) as [Hn|Hn].
  - replace (Z.to_nat (n * 2)) with (2 * Z.to_nat n)%nat by lia.
    apply (range_double_from (Z.to_nat n) 0).
  - replace (Z.to_nat (n * 2)) with 0%nat by lia.
    by replace (Z.to_nat n) with 0%nat by lia.
Qed.

Lemma names_by_layer node prefix dirs layers :
  dirs = 1 \/ dirs = 2 ->
  names node (layers * dirs) prefix =
  flat_map (fun i =>
              CudnnRNN.NM node (prefix +:+ str (i * dirs)) ::
              (if dirs =? 2 then [CudnnRNN.NM node (prefix +:+ str (i * 2 + 1))] else []))
           (range layers).
Proof.
  intros [-> | ->]; unfold names; cbn [Z.eqb Pos.eqb].
  - rewrite Z.mul_1_r. induction (range layers) as [|i l IH]; [done|].
    cbn [map flat_map app]. by rewrite Z.mul_1_r, IH.
  - rewrite range_double. induction (range layers) as [|i l IH]; [done|].
    cbn [map flat_map app]. by rewrite IH.
Qed.

Lemma final_states_app ns1 ns2 :
  final_states (ns1 ++ ns2) = (final_states ns1 ++ final_states ns2)%list.
Proof. unfold final_states. apply flat_map_app. Qed.

Lemma final_states_sig ns :
  final_states ns =
  flat_map (fun s => if String.eqb (sig_op s) "GRU" then drop 1 (sig_outputs s) else [])
           (map sig ns).
Proof. induction ns as [|n ns IH]; [done|]. cbn [map flat_map]. by rewrite <- IH. Qed.

(** The Concat bound to the second output reads exactly the final hidden
    states that the recurrent operators produce, in the order in which the
    operators are created: layer by layer, forward before reverse. *)
Theorem version_11_hidden_states_in_order `{ShapeInference}
    st node X Hn P direction H0 hidden input_size out0 out1 :
  rnn_call st node X Hn P direction H0 hidden input_size out0 out1 ->
  exists st' created final_hidden,
    CudnnRNN.version_11 node st = (Ok tt, st') /\
    primitives (new_events st st') = (created ++ [final_hidden])%list /\
    op_type final_hidden = "Concat" /\
    output final_hidden = [out1] /\
    input final_hidden = final_states created /\
    NoDup (input final_hidden).
Proof.
  intros Hcall.
  destruct (version_11_run _ _ _ _ _ _ _ _ _ _ _ Hcall) as (st' & Hrun & Hl).
  apply lowered_rnn_events in Hl
    as (consts & scaffold & steps & final & final_hidden & Hev & _ & Hs & Hst & Hf & Hh).
  exists st', (scaffold ++ steps ++ [final])%list, final_hidden.
  split; [exact Hrun|]. rewrite Hev.
  rewrite !primitives_app, primitives_consts, !primitives_nodes.
  cbn [primitives omap list_omap app map].
  split; [by rewrite <- !app_assoc|].
  unfold final_hidden_sig, sig in Hh. injection Hh as Hop Hin Hout _.
  split; [exact Hop|]. split; [exact Hout|].
  split; [|rewrite Hin; apply names_NoDup].
  rewrite Hin, !final_states_app, !final_states_sig, Hs, Hst.
  rewrite (names_by_layer node "YH_" _ _ (num_dirs_cases direction)).
  cbn [map flat_map]. rewrite Hf.
  assert (flat_map
            (fun s => if String.eqb (sig_op s) "GRU" then drop 1 (sig_outputs s) else [])
            (scaffold_sig (counter st) node Hn P
               (int_div H0 (num_dirs direction) * num_dirs direction)) = []) as -> by done.
  assert ((if String.eqb
                (sig_op (final_sig node X (num_dirs direction)
                           (Z.max 0 (int_div H0 (num_dirs direction))) out0)) "GRU"
           then drop 1 (sig_outputs (final_sig node X (num_dirs direction)
                                       (Z.max 0 (int_div H0 (num_dirs direction))) out0))
           else []) = []) as ->
    by (unfold final_sig; by destruct (num_dirs direction =? 2)).
  cbn [app]. rewrite app_nil_r. clear Hst.
  induction (range (int_div H0 (num_dirs direction))) as [|i l IH]; [done|].
  cbn [flat_map]. rewrite flat_map_app, <- IH.
  unfold layer_sig, gru_sig. by destruct (num_dirs direction =? 2).
Qed.

Lemma version_11_hidden_states_in_order_witness :
  exists st' created final_hidden,
    @CudnnRNN.version_11 float_inference example_rnn example_rnn_state = (Ok tt, st') /\
    primitives (new_events example_rnn_state st') = (created ++ [final_hidden])%list /\
    op_type final_hidden = "Concat" /\
    output final_hidden = ["yh"] /\
    input final_hidden = final_states created /\
    NoDup (input final_hidden).
Proof.
  exact (@version_11_hidden_states_in_order float_inference _ _ _ _ _ _ _ _ _ _ _
           (example_rnn_call 4 eq_refl)).
Defined.

(** ** What the multi-layer lowering leaves alone *)

(** A successful run drops from the graph the nodes that bear the fused
    node's name and keeps every other node, unchanged and in order, in
    front of the nodes it creates; the last two nodes of the graph are the
    ones bound to the fused node's outputs. *)
Theorem version_11_frame `{ShapeInference}
    st node X Hn P direction H0 hidden input_size out0 out1 :
  rnn_call st node X Hn P direction H0 hidden input_size out0 out1 ->
  exists st' created final final_hidden,
    CudnnRNN.version_11 node st = (Ok tt, st') /\
    nodes (graph st') =
      (filter (fun n => name n ≠ name node) (nodes (graph st)) ++ created ++
       [final; final_hidden])%list /\
    output final = [out0] /\ output final_hidden = [out1] /\
    (forall n, In n (nodes (graph st)) -> name n <> name node ->
               In n (nodes (graph st'))) /\
    Forall (fun n => name n <> name node) (take (length (nodes (graph st')) - 2)
                                              (nodes (graph st'))).
Proof.
  intros Hcall.
  destruct (version_11_run _ _ _ _ _ _ _ _ _ _ _ Hcall) as (st' & Hrun & Hl).
  destruct Hl as (consts & scaffold & steps & final & final_hidden & _ & Hns & _ & _ & _
                  & _ & _ & Hf & Hh).
  exists st', (filter (fun n => name n ≠ name node) (consts ++ scaffold ++ steps)%list),
    final, final_hidden.
  split; [exact Hrun|].
  rewrite list.filter_app in Hns. rewrite <- app_assoc in Hns.
  split; [exact Hns|].
  split; [unfold final_sig in Hf; destruct (num_dirs direction =? 2); by injection Hf|].
  split; [by injection Hh|]. split.
  - intros n Hin Hne. rewrite Hns. apply in_or_app. left.
    apply list_elem_of_In, list_elem_of_filter. split; [done|]. by apply list_elem_of_In.
  - rewrite Hns. rewrite app_assoc, length_app. cbn [length].
    replace (_ + 2 - 2)%nat with
      (length (filter (fun n => name n ≠ name node) (nodes (graph st)) ++
               filter (fun n => name n ≠ name node) (consts ++ scaffold ++ steps)%list))
      by lia.
    rewrite take_app_length. apply Forall_app. split.
    + apply List.Forall_forall. intros n Hin.
      by apply list_elem_of_In, list_elem_of_filter in Hin as [? _].
    + apply List.Forall_forall. intros n Hin.
      by apply list_elem_of_In, list_elem_of_filter in Hin as [? _].
Qed.

Lemma version_11_frame_witness :
  exists st' created final final_hidden,
    @CudnnRNN.version_11 float_inference example_rnn example_rnn_state = (Ok tt, st') /\
    nodes (graph st') =
      (filter (fun n => name n ≠ name example_rnn) (nodes (graph example_rnn_state)) ++
       created ++ [final; final_hidden])%list /\
    output final = ["y"] /\ output final_hidden = ["yh"] /\
    (forall n, In n (nodes (graph example_rnn_state)) -> name n <> name example_rnn ->
               In n (nodes (graph st'))) /\
    Forall (fun n => name n <> name example_rnn)
      (take (length (nodes (graph st')) - 2) (nodes (graph st'))).
Proof.
  exact (@version_11_frame float_inference _ _ _ _ _ _ _ _ _ _ _
           (example_rnn_call 4 eq_refl)).
Defined.

(** ** The nodes of the lowered cell *)

Ltac solve_generated :=
  lazymatch goal with
  | |- generated _ (out_name (make_name_str ?b ?k) ?s) =>
    exists b, k, (Some s); split; [reflexivity|lia]
  | |- generated _ (make_name_str ?b ?k) =>
    exists b, k, None; split; [reflexivity|lia]
  end.

Ltac solve_wired :=
  split;
  [ cbn [output default_outputs map seq];
    repeat (apply List.Forall_cons; [solve_generated|]); apply List.Forall_nil
  | cbn [input];
    repeat (apply List.Forall_cons;
            [first [right; solve_generated | left; cbn [In]; tauto]|]);
    apply List.Forall_nil ].

Section Created.
Context `{ShapeInference}.

Lemma version_1_creates st node x cs_prev h_prev w wci wcf wco b
    o0 o1 o2 o3 o4 o5 o6 afb acc aup r cols :
  input node = [x; cs_prev; h_prev; w; wci; wcf; wco; b] ->
  output node = [o0; o1; o2; o3; o4; o5; o6] ->
  assoc "forget_bias" (attr node) = Some afb ->
  assoc "cell_clip" (attr node) = Some acc ->
  assoc "use_peephole" (attr node) = Some aup ->
  shapes (graph st) !! w = Some [r; cols] ->
  cols mod 4 = 0 -> 0 <= cols ->
  Forall (fresh_from (counter st)) (input node) ->
  Forall (fresh_from (counter st)) (output node) ->
  (forall v, In v (input node) -> ~ In v (output node)) ->
  ((Q2Qc 0 < attr_f acc)%Qc -> 11 <= opset (graph st) ->
     forall g n, op_type n = "Add" -> exists d, infer_dtype g n 0 = Some d /\ d <> STRING) ->
  wp (LSTMBlockCell.version_1 node)
     (fun _ st' =>
        exists evs,
          trace st' = (trace st ++ evs)%list /\
          Forall (well_wired (counter st) (input node)) (created_nodes evs) /\
          Forall (generated (counter st)) (map snd (rewirings evs)) /\
          map op_type (created_nodes evs) =
            cell_ops (negb (attr_i aup =? 0)) (bool_decide (Q2Qc 0 < attr_f acc)%Qc)
                     (opset (graph st) <? 11)) st.
Proof.
  intros Hin Hout Hfb Hcc Hup Hw Hmod Hnn Hfi Hfo Hdisj Hinf.
  unfold LSTMBlockCell.version_1. rewrite Hin in *. rewrite Hout in *.
  repeat (apply Forall_cons_iff in Hfi as [? Hfi]).
  repeat (apply Forall_cons_iff in Hfo as [? Hfo]).
  apply wp_bind. eapply wp_get_attr; [exact Hfb|].
  apply wp_bind. eapply wp_get_attr; [exact Hcc|].
  apply wp_bind. eapply wp_get_attr; [exact Hup|].
  repeat wp_step.
  rewrite !shapes_add_node_ne by (wp_simpl; solve_neqs).
  rewrite Hw. cbn [len_shape]. repeat wp_step.
  rewrite Hmod. cbn [Z.eqb negb].
  repeat wp_step.
  destruct (attr_i aup =? 0) eqn:Hpeep; cbn [negb]; repeat wp_step.
  all: unfold LSTMBlockCell.clip_cs.
  all: destruct (bool_decide (Q2Qc 0 < attr_f acc)%Qc) eqn:Hclip; repeat wp_step.
  all: repeat (rewrite opset_add_node || rewrite opset_add_const).
  all: try match goal with
       | |- context [opset (graph ?s) <? 11] =>
         destruct (opset (graph s) <? 11) eqn:Hops; repeat wp_step
       end.
  all: try match goal with
       | |- context [dtypes (add_node ?n ?g) !! _] =>
         let d := fresh "d" in let Hd := fresh "Hd" in let Hns := fresh "Hns" in
         let nd := fresh "nd" in let Hnd := fresh "Hnd" in
         destruct (Hinf ltac:(by apply bool_decide_eq_true in Hclip)
                        ltac:(by apply Z.ltb_ge in Hops) g n eq_refl) as (d & Hd & Hns);
         rewrite (dtypes_add_node_hit n g _ d eq_refl Hd);
         destruct (map_onnx_to_numpy_type_ok d Hns) as [nd Hnd];
         eapply wp_map_onnx_to_numpy_type; [exact Hnd|]
       end.
  all: repeat wp_step.
  all: eexists.
  all: split; [cbn [trace]; rewrite <- !app_assoc; cbn [app]; reflexivity|].
  all: cbn [created_nodes rewirings omap list_omap map snd].
  all: split; [repeat (apply List.Forall_cons; [solve_wired|]); apply List.Forall_nil|].
  all: split; [repeat (apply List.Forall_cons; [solve_generated|]); apply List.Forall_nil|].
  all: cbn [op_type]; reflexivity.
Qed.

End Created.

Lemma cell_call_creates `{ShapeInference}
    st node x cs_prev h_prev w wci wcf wco b fb cc up hs :
  cell_call st node x cs_prev h_prev w wci wcf wco b fb cc up hs ->
  exists st' d cs_raw,
    LSTMBlockCell.version_1 node st = (Ok tt, st') /\
    lowered_cell st (input node) (output node) x cs_prev h_prev w wci wcf wco b
      fb cc up hs d cs_raw st' /\
    Forall (well_wired (counter st) (input node)) (new_nodes st st') /\
    Forall (generated (counter st)) (map snd (rewirings (new_events st st'))) /\
    map op_type (new_nodes st st') =
      cell_ops up (bool_decide (Q2Qc 0 < cc)%Qc) (opset (graph st) <? 11).
Proof.
  intros Hcall.
  destruct (cell_call_run _ _ _ _ _ _ _ _ _ _ _ _ _ _ Hcall)
    as (st' & d & cs & Hrun & Hl).
  exists st', d, cs. split; [exact Hrun|]. split; [exact Hl|].
  rewrite (lc_created _ _ _ _ _ _ _ _ _ _ _ _ _ _ _ _ _ _ Hl).
  fold (created_nodes (new_events st st')).
  destruct Hcall as [Hin Hout Hfb Hcc Hup (rows & cols & Hw & Hmod & Hnn & ->)
                       Hfi Hfo Hdisj Hinf].
  destruct (output node) as [|o0 [|o1 [|o2 [|o3 [|o4 [|o5 [|o6 [|]]]]]]]] eqn:Houts;
    try discriminate.
  destruct (assoc "forget_bias" (attr node)) as [afb|] eqn:Hafb; [|discriminate].
  destruct (assoc "cell_clip" (attr node)) as [acc|] eqn:Hacc; [|discriminate].
  destruct (assoc "use_peephole" (attr node)) as [aup|] eqn:Haup; [|discriminate].
  simpl in Hfb, Hcc, Hup. injection Hfb as <-. injection Hcc as <-. injection Hup as <-.
  rewrite <- Houts in Hfo, Hdisj.
  destruct (version_1_creates st node x cs_prev h_prev w wci wcf wco b
              o0 o1 o2 o3 o4 o5 o6 afb acc aup rows cols
              Hin Houts Hafb Hacc Haup Hw Hmod Hnn Hfi Hfo Hdisj Hinf)
    as ([] & st'' & Hrun' & evs & Htr & Hwired & Hgen & Hops).
  rewrite Hrun in Hrun'. injection Hrun' as <-.
  assert (new_events st st' = evs) as ->
    by (unfold new_events; rewrite Htr; apply drop_app_length).
  done.
Qed.

Lemma generated_not_fresh c v o : generated c v -> fresh_from c o -> v <> o.
Proof. intros (base & n & slot & -> & Hlt) Hfresh Heq. by apply (Hfresh base n slot). Qed.

Lemma rewire_name_id ps i : ~ In i (map fst ps) -> rewire_name ps i = i.
Proof.
  unfold rewire_name. induction ps as [|p ps IH]; intros Hi; [done|].
  cbn [fold_left]. cbn [map In] in Hi.
  destruct (String.eqb i (fst p)) eqn:Heq.
  - apply String.eqb_eq in Heq. exfalso. apply Hi. by left.
  - apply IH. intros Hin. apply Hi. by right.
Qed.

Lemma rewire_name_cases ps i : rewire_name ps i = i \/ In (rewire_name ps i) (map snd ps).
Proof.
  unfold rewire_name. revert i. induction ps as [|p ps IH]; intros i; [by left|].
  cbn [fold_left map In].
  destruct (String.eqb i (fst p)) eqn:Heq.
  - destruct (IH (snd p)) as [-> | Hin]; [right; by left|right; by right].
  - destruct (IH i) as [-> | Hin]; [by left|right; by right].
Qed.

Lemma rewire_name_fresh ps i :
  (forall v, In v (map snd ps) -> ~ In v (map fst ps)) ->
  ~ In (rewire_name ps i) (map fst ps).
Proof.
  revert i. induction ps as [|p ps IH]; intros i Hps; [by intros []|].
  assert (forall v, In v (map snd ps) -> ~ In v (map fst ps)) as Hps'.
  { intros v Hv Hin. apply (Hps v); [by right|by right]. }
  change (rewire_name (p :: ps) i)
    with (rewire_name ps (if String.eqb i (fst p) then snd p else i)).
  cbn [map In]. intros [Heq | Hin]; [|by eapply IH].
  destruct (String.eqb i (fst p)) eqn:Hi.
  - rewrite rewire_name_id in Heq.
    + apply (Hps (snd p)); [by left|left; done].
    + intros Hin. apply (Hps (snd p)); [by left|by right].
  - apply String.eqb_neq in Hi.
    destruct (rewire_name_cases ps i) as [Hid | Hin].
    + rewrite Hid in Heq. congruence.
    + apply (Hps (rewire_name ps i)); [by right|by left].
Qed.

Lemma input_rewire_all ps n : input (rewire_all ps n) = map (rewire_name ps) (input n).
Proof.
  unfold rewire_all, rewire_name. revert n. induction ps as [|p ps IH]; intros n.
  - cbn [fold_left]. by rewrite map_id.
  - cbn [fold_left]. rewrite IH. cbn [replace_input input]. rewrite map_map.
    apply map_ext. intros i. done.
Qed.

(** After a successful run no node of the graph, kept or created, reads
    any of the fused node's seven outputs: every consumer now reads the
    replacement value, and the created nodes read only the cell's inputs
    and each other. *)
Theorem version_1_no_stale_consumer `{ShapeInference}
    st node x cs_prev h_prev w wci wcf wco b fb cc up hs :
  cell_call st node x cs_prev h_prev w wci wcf wco b fb cc up hs ->
  exists st',
    LSTMBlockCell.version_1 node st = (Ok tt, st') /\
    Forall (fun n => Forall (fun i => ~ In i (output node)) (input n))
      (nodes (graph st')) /\
    Forall (fun n => Forall (fun i => In i (input node) \/ generated (counter st) i)
                       (input n) /\
                     Forall (generated (counter st)) (output n))
      (new_nodes st st').
Proof.
  intros Hcall.
  destruct (cell_call_creates _ _ _ _ _ _ _ _ _ _ _ _ _ _ Hcall)
    as (st' & d & cs & Hrun & Hl & Hwired & Hgen & _).
  pose proof (lc_nodes _ _ _ _ _ _ _ _ _ _ _ _ _ _ _ _ _ _ Hl) as Hns.
  pose proof (lc_rewired _ _ _ _ _ _ _ _ _ _ _ _ _ _ _ _ _ _ Hl) as Hrw.
  pose proof (cc_fresh_output _ _ _ _ _ _ _ _ _ _ _ _ _ _ Hcall) as Hfo.
  pose proof (cc_no_feedback _ _ _ _ _ _ _ _ _ _ _ _ _ _ Hcall) as Hdisj.
  assert (forall v, generated (counter st) v -> ~ In v (output node)) as Hgo.
  { intros v Hv Hin. rewrite List.Forall_forall in Hfo.
    by apply (generated_not_fresh _ _ _ Hv (Hfo v Hin)). }
  exists st'. split; [exact Hrun|]. split.
  - rewrite Hns. apply Forall_app. split.
    + apply List.Forall_forall. intros n' Hn'. apply in_map_iff in Hn' as (n & <- & Hn).
      rewrite input_rewire_all. apply List.Forall_forall. intros i' Hi'.
      apply in_map_iff in Hi' as (i & <- & Hi).
      rewrite <- Hrw. apply rewire_name_fresh. intros v Hv. rewrite Hrw.
      apply Hgo. rewrite List.Forall_forall in Hgen. by apply Hgen.
    + eapply List.Forall_impl; [|exact Hwired]. intros n [_ Hn].
      eapply List.Forall_impl; [|exact Hn]. intros i [Hi | Hi]; [by apply Hdisj|by apply Hgo].
  - eapply List.Forall_impl; [|exact Hwired]. by intros n [? ?].
Qed.

Lemma version_1_no_stale_consumer_witness :
  exists st',
    @LSTMBlockCell.version_1 float_inference example_cell example_state = (Ok tt, st') /\
    Forall (fun n => Forall (fun i => ~ In i (output example_cell)) (input n))
      (nodes (graph st')) /\
    Forall (fun n => Forall (fun i => In i (input example_cell) \/
                                      generated (counter example_state) i)
                       (input n) /\
                     Forall (generated (counter example_state)) (output n))
      (new_nodes example_state st').
Proof.
  exact (@version_1_no_stale_consumer float_inference _ _ _ _ _ _ _ _ _ _ _ _ _ _
           example_cell_call).
Defined.

(** A successful run creates the primitives of the cell in a fixed order:
    21 nodes, one more for the zero vector when the peephole is off, and
    one (attribute clamp) or three (constant-input clamp) more when the
    clamp bound is positive; it uses only Concat, MatMul, Add, Split,
    Const, Mul, Sigmoid, Tanh and Clip. *)
Theorem version_1_created_ops `{ShapeInference}
    st node x cs_prev h_prev w wci wcf wco b fb cc up hs :
  cell_call st node x cs_prev h_prev w wci wcf wco b fb cc up hs ->
  exists st',
    LSTMBlockCell.version_1 node st = (Ok tt, st') /\
    map op_type (new_nodes st st') =
      (["Concat"; "MatMul"; "Add"; "Split"; "Const"; "Add"] ++
       (if up then [] else ["Const"]) ++
       ["Mul"; "Add"; "Sigmoid"; "Mul"; "Add"; "Sigmoid"; "Tanh"; "Mul"; "Mul"; "Add"] ++
       (if bool_decide (Q2Qc 0 < cc)%Qc
        then (if opset (graph st) <? 11 then ["Clip"] else ["Const"; "Const"; "Clip"])
        else []) ++
       ["Mul"; "Add"; "Sigmoid"; "Tanh"; "Mul"])%list /\
    length (new_nodes st st') =
      (21 + (if up then 0 else 1) +
       (if bool_decide (Q2Qc 0 < cc)%Qc
        then (if (opset (graph st) <? 11)%Z then 1 else 3) else 0))%nat.
Proof.
  intros Hcall.
  destruct (cell_call_creates _ _ _ _ _ _ _ _ _ _ _ _ _ _ Hcall)
    as (st' & d & cs & Hrun & _ & _ & _ & Hops).
  exists st'. split; [exact Hrun|]. split; [exact Hops|].
  apply (f_equal length) in Hops. rewrite length_map in Hops. rewrite Hops.
  unfold cell_ops.
  destruct up, (bool_decide (Q2Qc 0 < cc)%Qc), (opset (graph st) <? 11); reflexivity.
Qed.

Lemma version_1_created_ops_witness :
  exists st',
    @LSTMBlockCell.version_1 float_inference example_cell example_state = (Ok tt, st') /\
    map op_type (new_nodes example_state st') =
      (["Concat"; "MatMul"; "Add"; "Split"; "Const"; "Add"] ++
       (if false then [] else ["Const"]) ++
       ["Mul"; "Add"; "Sigmoid"; "Mul"; "Add"; "Sigmoid"; "Tanh"; "Mul"; "Mul"; "Add"] ++
       (if bool_decide (Q2Qc 0 < Q2Qc (3 # 2))%Qc
        then (if opset (graph example_state) <? 11 then ["Clip"]
              else ["Const"; "Const"; "Clip"])
        else []) ++
       ["Mul"; "Add"; "Sigmoid"; "Tanh"; "Mul"])%list /\
    length (new_nodes example_state st') =
      (21 + (if false then 0 else 1) +
       (if bool_decide (Q2Qc 0 < Q2Qc (3 # 2))%Qc
        then (if (opset (graph example_state) <? 11)%Z then 1 else 3) else 0))%nat.
Proof.
  exact (@version_1_created_ops float_inference _ _ _ _ _ _ _ _ _ _ _ _ _ _
           example_cell_call).
Defined.
